(** * Drug name normaliser: the RxNorm lookup client and the CSV join

    A shallow embedding of [lib/rxnorm-client.ts] (retry policy, the two
    lookups, [normalizeDrugName], [normalizeDrugNameBatch]) and of
    [addGenericNameColumn] from [lib/csv-processor.ts], with the properties
    the specification states about them.

    Conventions of the embedding.
    - A JavaScript string is a [string]; one [ascii] stands for one code unit
      in the range 0..255.
    - A JavaScript [number] that holds a count, a status code or a number of
      milliseconds is a [Z]; [String_of_number] is its decimal rendering.
    - A number in a cell of a row is a safe integer ([Js.SafeInteger]), the
      range in which [String] gives the decimal digits of the value.
    - A row is a plain object: reading a property it does not hold itself
      reaches [Object.prototype] ([Js.Object_prototype]).
    - An [async] function is a computation in the monad [Async]: it reads the
      remote service, counts the [fetch] calls made so far, may throw, and
      emits the events a caller can observe ([fetch] calls, [sleep] pauses,
      progress callbacks) in the order they happen. *)

From Stdlib Require Import Ascii.
From stdpp Require Import gmap strings list pretty.

Local Open Scope string_scope.
Local Open Scope list_scope.
Local Open Scope Z_scope.

(** ** JavaScript string primitives *)

Module Js.

(** White space of [String.prototype.trim] among the code units 0..255:
    TAB, LF, VT, FF, CR, SPACE and NBSP. *)
Definition is_whitespace (c : ascii) : bool :=
  let n := nat_of_ascii c in
  ((9 <=? n)%nat && (n <=? 13)%nat) || (n =? 32)%nat || (n =? 160)%nat.

Fixpoint trimStart (s : string) : string :=
  match s with
  | EmptyString => EmptyString
  | String c rest => if is_whitespace c then trimStart rest else s
  end.

Fixpoint trimEnd (s : string) : string :=
  match s with
  | EmptyString => EmptyString
  | String c rest =>
      match trimEnd rest with
      | EmptyString => if is_whitespace c then EmptyString else String c EmptyString
      | kept => String c kept
      end
  end.

Definition trim (s : string) : string := trimEnd (trimStart s).

(** [String(n)] and [`${n}`] for an integral number. *)
Definition String_of_number (n : Z) : string := pretty n.

(** [s.includes(sub)]. *)
Fixpoint includes (sub s : string) : bool :=
  String.prefix sub s ||
  match s with
  | EmptyString => false
  | String _ rest => includes sub rest
  end.

Definition hex_digit (n : nat) : ascii :=
  ascii_of_nat (if (n <? 10)%nat then 48 + n else 55 + n)%nat.

Definition percent (n : nat) : string :=
  String "%" (String (hex_digit (n / 16)%nat) (String (hex_digit (n mod 16)%nat) EmptyString)).

(** The characters [encodeURIComponent] leaves alone:
    A-Z a-z 0-9 - _ . ! ~ * ' ( ) *)
Definition is_unreserved (c : ascii) : bool :=
  let n := nat_of_ascii c in
  ((65 <=? n) && (n <=? 90) || (97 <=? n) && (n <=? 122) || (48 <=? n) && (n <=? 57)
   || (n =? 45) || (n =? 95) || (n =? 46) || (n =? 33) || (n =? 126)
   || (n =? 42) || (n =? 39) || (n =? 40) || (n =? 41))%nat.

(** [encodeURIComponent]: every other code unit is written as the
    percent-encoded bytes of its UTF-8 form (one byte below 128, two
    bytes from 128 to 255). *)
Fixpoint encodeURIComponent (s : string) : string :=
  match s with
  | EmptyString => EmptyString
  | String c rest =>
      let n := nat_of_ascii c in
      (if is_unreserved c then String c EmptyString
       else if (n <? 128)%nat then percent n
       else percent (192 + n / 64) +:+ percent (128 + n mod 64))
      +:+ encodeURIComponent rest
  end.

(** A number for which [Number.isSafeInteger] holds: an integer between
    -(2^53 - 1) and 2^53 - 1. *)
Record SafeInteger := {
  to_Z : Z;
  is_safe : bool_decide (Z.abs to_Z ≤ 9007199254740991)
}.

(** The values a property of a row can have. [VObject text] is an object
    or a function, [text] being what [String] gives for it. *)
Inductive Value :=
| VString (s : string)
| VNumber (n : SafeInteger)
| VNull
| VUndefined
| VObject (text : string).

(** Truthiness, as [||], [!] and [Boolean] test it. *)
Definition ToBoolean (value : Value) : bool :=
  match value with
  | VString s => negb (String.eqb s "")
  | VNumber n => negb (to_Z n =? 0)
  | VNull | VUndefined => false
  | VObject _ => true
  end.

(** [String(value)]. *)
Definition ToString (value : Value) : string :=
  match value with
  | VString s => s
  | VNumber n => String_of_number (to_Z n)
  | VNull => "null"
  | VUndefined => "undefined"
  | VObject text => text
  end.

(** The text of a built-in function, as V8 prints it. *)
Definition native_function (name : string) : string :=
  "function " +:+ name +:+ "() { [native code] }".

(** The members of [Object.prototype], which a plain object inherits, each
    with the text [String] gives for it: the methods, [constructor] (the
    function [Object]) and the accessor [__proto__], whose value on a plain
    object is [Object.prototype] itself. *)
Definition Object_prototype (key : string) : option string :=
  if String.eqb key "constructor" then Some (native_function "Object")
  else if String.eqb key "__proto__" then Some "[object Object]"
  else if bool_decide (key ∈ ["__defineGetter__"; "__defineSetter__"; "hasOwnProperty";
                              "__lookupGetter__"; "__lookupSetter__"; "isPrototypeOf";
                              "propertyIsEnumerable"; "toString"; "valueOf";
                              "toLocaleString"])
  then Some (native_function key)
  else None.

End Js.

(** ** Types of [lib/types.ts] *)

(** What the two endpoints answer, as far as the client reads it. A field
    that may be missing from the JSON object is an [option]. *)
Module Wire.

Record Candidate := { rxcui : string }.

Record ApproximateGroup := { candidate : option (list Candidate) }.

Record ConceptProperties := { name : string }.

Record ConceptGroup := {
  tty : string;
  conceptProperties : option (list ConceptProperties)
}.

Record RelatedGroup := { conceptGroup : option (list ConceptGroup) }.

(** A parsed body: [RxNormApproximateResponse] and [RxNormRelatedResponse]
    are the two views of one JSON object, each with its own top field. *)
Record Data := {
  approximateGroup : option ApproximateGroup;
  relatedGroup : option RelatedGroup
}.

(** What [await response.json()] and the reading of the data that follows
    come to: a JSON object with the fields above, or an error thrown on the
    way (the [SyntaxError] of a body that is not JSON, the [TypeError] of
    reading a field of [null]). *)
Inductive Body :=
| Json (data : Data)
| NotJson (error_name error_message : string).

(** A [Response] of the Fetch API. *)
Record Response := {
  status : Z;
  statusText : string;
  body : Body
}.

(** [response.ok]: the status is in the range 200-299. *)
Definition ok (response : Response) : bool :=
  (200 <=? status response) && (status response <=? 299).

End Wire.

Inductive Status := SUCCESS | NOT_FOUND | ERROR.

Record NormalizationResult := {
  originalName : string;
  genericName : option string;
  rxcui : option string;
  status : Status;
  errorMessage : option string
}.

Record RxNormConfig := {
  baseUrl : string;
  timeout : Z;
  retryAttempts : Z;
  retryDelay : Z
}.

Definition DEFAULT_RXNORM_CONFIG : RxNormConfig :=
  {| baseUrl := "https://rxnav.nlm.nih.gov/REST";
     timeout := 10000;
     retryAttempts := 3;
     retryDelay := 1000 |}.

Definition GENERIC_NAME_COLUMN : string := "GENERIC_NAME".

(** ** Thrown values *)

(** What a [catch] clause of the client can receive: an [RxNormAPIError]
    with its four fields, or another [Error] object (the [TypeError] of a
    failed [fetch], the [AbortError] of an aborted one, the [SyntaxError] of
    [response.json()]). *)
Inductive Thrown :=
| RxNormAPIError (message : string) (code : option string)
                 (statusCode : option Z) (drugName : option string)
| OtherError (name message : string).

(** [error.message]. *)
Definition message_of (error : Thrown) : string :=
  match error with
  | RxNormAPIError message _ _ _ => message
  | OtherError _ message => message
  end.

(** [error.name]. *)
Definition name_of (error : Thrown) : string :=
  match error with
  | RxNormAPIError _ _ _ _ => "RxNormAPIError"
  | OtherError name _ => name
  end.

(** [`${error}`], that is [Error.prototype.toString]. *)
Definition toString (error : Thrown) : string :=
  let name := name_of error in
  let message := message_of error in
  if String.eqb name "" then message
  else if String.eqb message "" then name
  else name +:+ ": " +:+ message.

(** ** The monad of asynchronous computations *)

Inductive Event :=
| Fetch (url : string) (timeout : Z)
| Sleep (ms : Z)
| Progress (completed total : Z) (current : string).

(** How one [fetch] call ends: the promise resolves with a response, or it
    rejects with an error of the given name; the name is ["AbortError"] when
    the timer of [fetchWithTimeout] fired first. *)
Inductive FetchOutcome :=
| Resolved (response : Wire.Response)
| Rejected (error_name error_message : string).

(** The remote service and the network: the outcome of the [n]-th [fetch]
    call of the run (counted from 0), given its URL. *)
Definition Remote := nat → string → FetchOutcome.

Inductive Completion (A : Type) :=
| Returns (value : A)
| Throws (error : Thrown).
Arguments Returns {A} value.
Arguments Throws {A} error.

(** A computation reads the remote, starts after [n] fetch calls, and ends
    with a completion, the new number of fetch calls, and the events it
    emitted, oldest first. *)
Definition Async (A : Type) : Type :=
  Remote → nat → Completion A * nat * list Event.

Definition run {A} (m : Async A) (remote : Remote) (n : nat) :
  Completion A * nat * list Event := m remote n.

Global Instance Async_ret : MRet Async :=
  λ A a, λ _ n, (Returns a, n, []).

Global Instance Async_bind : MBind Async :=
  λ A B f m, λ remote n,
    match m remote n with
    | (Returns a, n1, t1) =>
        let '(c, n2, t2) := f a remote n1 in (c, n2, t1 ++ t2)
    | (Throws e, n1, t1) => (Throws e, n1, t1)
    end.

Definition throw {A} (error : Thrown) : Async A :=
  λ _ n, (Throws error, n, []).

(** [try { body } catch (error) { handler }] *)
Definition try_catch {A} (body : Async A) (handler : Thrown → Async A) : Async A :=
  λ remote n,
    match body remote n with
    | (Returns a, n1, t1) => (Returns a, n1, t1)
    | (Throws e, n1, t1) =>
        let '(c, n2, t2) := handler e remote n1 in (c, n2, t1 ++ t2)
    end.

(** [fetch(url, { signal })] under an abort timer of [timeout] ms. *)
Definition fetch (url : string) (timeout : Z) : Async Wire.Response :=
  λ remote n,
    (match remote n url with
     | Resolved response => Returns response
     | Rejected error_name error_message => Throws (OtherError error_name error_message)
     end, S n, [Fetch url timeout]).

Definition sleep (ms : Z) : Async unit :=
  λ _ n, (Returns tt, n, [Sleep ms]).

(** A call of the progress callback. The callback is the caller's code: it
    is taken to return normally, and its result is unused. The call is
    what the batch contributes, and it is recorded as an event. *)
Definition call_onProgress (completed total : Z) (current : string) : Async unit :=
  λ _ n, (Returns tt, n, [Progress completed total current]).

(** [response.json()] *)
Definition json (response : Wire.Response) : Async Wire.Data :=
  match Wire.body response with
  | Wire.Json data => mret data
  | Wire.NotJson error_name error_message => throw (OtherError error_name error_message)
  end.

(** [if (cond) { await m }] *)
Definition when (cond : bool) (m : Async unit) : Async unit :=
  if cond then m else mret tt.

(** ** [fetchWithTimeout] and [fetchWithRetry] *)

Definition fetchWithTimeout (url : string) (timeout : Z) : Async Wire.Response :=
  try_catch
    (response ← fetch url timeout;
     mret response)
    (λ error,
       if String.eqb (name_of error) "AbortError"
       then throw (RxNormAPIError
                     ("Request timeout after " +:+ Js.String_of_number timeout +:+ "ms")
                     (Some "TIMEOUT") None None)
       else throw error).

(** The guard of the [catch] clause of [fetchWithRetry]: the error is an
    [RxNormAPIError] whose [statusCode] is set, is not 0, and lies in
    400..499. *)
Definition is_client_error (error : Thrown) : bool :=
  match error with
  | RxNormAPIError _ _ (Some statusCode) _ =>
      negb (statusCode =? 0) && (400 <=? statusCode) && (statusCode <? 500)
  | _ => false
  end.

(** The body of the [try] block of [fetchWithRetry]. *)
Definition attempt_fetch (url : string) (config : RxNormConfig) : Async Wire.Response :=
  response ← fetchWithTimeout url (timeout config);
  if negb (Wire.ok response)
  then throw (RxNormAPIError
                ("HTTP " +:+ Js.String_of_number (Wire.status response) +:+ ": "
                 +:+ Wire.statusText response)
                (Some "HTTP_ERROR") (Some (Wire.status response)) None)
  else mret response.

(** [`${lastError?.message}`] *)
Definition lastError_message (lastError : option Thrown) : string :=
  match lastError with
  | Some error => message_of error
  | None => "undefined"
  end.

(** The [for] loop of [fetchWithRetry] over the attempt numbers still to
    run, followed by the final [throw]. *)
Fixpoint fetchWithRetry_loop (url : string) (config : RxNormConfig)
    (attempts : list Z) (lastError : option Thrown) : Async Wire.Response :=
  match attempts with
  | [] =>
      throw (RxNormAPIError
               ("Failed after " +:+ Js.String_of_number (retryAttempts config)
                +:+ " attempts: " +:+ lastError_message lastError)
               (Some "MAX_RETRIES_EXCEEDED") None None)
  | attempt :: later =>
      try_catch (attempt_fetch url config)
        (λ error,
           if is_client_error error then throw error
           else
             when (attempt <? retryAttempts config)
                  (sleep (retryDelay config * attempt));;
             fetchWithRetry_loop url config later (Some error))
  end.

(** [for (let attempt = 1; attempt <= config.retryAttempts; attempt++)] *)
Definition fetchWithRetry (url : string) (config : RxNormConfig) : Async Wire.Response :=
  fetchWithRetry_loop url config (seqZ 1 (retryAttempts config)) None.

(** ** The two lookups *)

Definition searchDrug (drugName : string) (config : RxNormConfig) : Async (option string) :=
  if String.eqb drugName "" || String.eqb (Js.trim drugName) ""
  then throw (RxNormAPIError "Drug name cannot be empty" (Some "INVALID_INPUT") None None)
  else
    let encodedName := Js.encodeURIComponent (Js.trim drugName) in
    let url := baseUrl config +:+ "/approximateTerm.json?term=" +:+ encodedName in
    try_catch
      (response ← fetchWithRetry url config;
       data ← json response;
       match Wire.approximateGroup data with
       | None => mret None
       | Some approximateGroup =>
           match Wire.candidate approximateGroup with
           | None | Some [] => mret None
           | Some (top :: _) => mret (Some (Wire.rxcui top))
           end
       end)
      (λ error,
         match error with
         | RxNormAPIError message code statusCode _ =>
             throw (RxNormAPIError message code statusCode (Some drugName))
         | OtherError _ _ =>
             throw (RxNormAPIError
                      ("Unexpected error searching for drug: " +:+ toString error)
                      (Some "UNKNOWN_ERROR") None (Some drugName))
         end).

Definition getGenericName (rxcui : string) (config : RxNormConfig) : Async (option string) :=
  if String.eqb rxcui "" || String.eqb (Js.trim rxcui) ""
  then throw (RxNormAPIError "RxCUI cannot be empty" (Some "INVALID_INPUT") None None)
  else
    let url := baseUrl config +:+ "/rxcui/" +:+ rxcui +:+ "/related.json?tty=IN" in
    try_catch
      (response ← fetchWithRetry url config;
       data ← json response;
       match Wire.relatedGroup data with
       | None => mret None
       | Some relatedGroup =>
           match Wire.conceptGroup relatedGroup with
           | None | Some [] => mret None
           | Some conceptGroup =>
               let ingredientGroup :=
                 List.find (λ group, String.eqb (Wire.tty group) "IN") conceptGroup in
               match ingredientGroup with
               | None => mret None
               | Some ingredientGroup =>
                   match Wire.conceptProperties ingredientGroup with
                   | None | Some [] => mret None
                   | Some (first :: _) => mret (Some (Wire.name first))
                   end
               end
           end
       end)
      (λ error,
         match error with
         | RxNormAPIError _ _ _ _ => throw error
         | OtherError _ _ =>
             throw (RxNormAPIError
                      ("Unexpected error getting generic name: " +:+ toString error)
                      (Some "UNKNOWN_ERROR") None None)
         end).

(** ** [normalizeDrugName] *)

(** [!value] on a [string | null]: null and the empty string are falsy. *)
Definition falsy (value : option string) : bool :=
  match value with
  | None => true
  | Some s => String.eqb s ""
  end.

Definition normalizeDrugName (drugName : string) (config : RxNormConfig) :
    Async NormalizationResult :=
  try_catch
    (found ← searchDrug drugName config;
     match found with
     | None | Some EmptyString =>
         mret {| originalName := drugName;
                 genericName := None;
                 rxcui := None;
                 status := NOT_FOUND;
                 errorMessage := Some "Drug not found in RxNorm database" |}
     | Some id =>
         ingredient ← getGenericName id config;
         match ingredient with
         | None | Some EmptyString =>
             mret {| originalName := drugName;
                     genericName := None;
                     rxcui := Some id;
                     status := NOT_FOUND;
                     errorMessage := Some "Generic name not found for this drug" |}
         | Some generic =>
             mret {| originalName := drugName;
                     genericName := Some generic;
                     rxcui := Some id;
                     status := SUCCESS;
                     errorMessage := None |}
         end
     end)
    (λ error,
       match error with
       | RxNormAPIError message _ _ _ =>
           mret {| originalName := drugName;
                   genericName := None;
                   rxcui := None;
                   status := ERROR;
                   errorMessage := Some message |}
       | OtherError _ _ =>
           mret {| originalName := drugName;
                   genericName := None;
                   rxcui := None;
                   status := ERROR;
                   errorMessage := Some ("Unexpected error: " +:+ toString error) |}
       end).

(** ** [normalizeDrugNameBatch] *)

(** The [for] loop of the batch, at index [i], over the names from
    [drugNames[i]] on. [onProgress] tells whether the optional callback was
    supplied. *)
Fixpoint normalizeDrugNameBatch_loop (onProgress : bool) (config : RxNormConfig)
    (total i : Z) (remaining : list string) (results : list NormalizationResult) :
    Async (list NormalizationResult) :=
  match remaining with
  | [] => mret results
  | drugName :: later =>
      when onProgress (call_onProgress i total drugName);;
      result ← normalizeDrugName drugName config;
      let results := results ++ [result] in
      when (i <? total - 1) (sleep 100);;
      normalizeDrugNameBatch_loop onProgress config total (i + 1) later results
  end.

Definition normalizeDrugNameBatch (drugNames : list string) (onProgress : bool)
    (config : RxNormConfig) : Async (list NormalizationResult) :=
  let total := Z.of_nat (length drugNames) in
  results ← normalizeDrugNameBatch_loop onProgress config total 0 drugNames [];
  when onProgress (call_onProgress total total "");;
  mret results.

(** ** [addGenericNameColumn] of [lib/csv-processor.ts] *)

(** A cell of a [CSVRow]: [string | number | null], the numbers being the
    safe integers. *)
Inductive Cell :=
| CellString (s : string)
| CellNumber (n : Js.SafeInteger)
| CellNull.

Definition Value_of_Cell (cell : Cell) : Js.Value :=
  match cell with
  | CellString s => Js.VString s
  | CellNumber n => Js.VNumber n
  | CellNull => Js.VNull
  end.

(** [row[key]] on a row that is a plain object: the cell the row holds
    under [key], else the member of [Object.prototype] of that name, else
    [undefined]. *)
Definition get_property (row : gmap string Cell) (key : string) : Js.Value :=
  match row !! key with
  | Some cell => Value_of_Cell cell
  | None =>
      match Js.Object_prototype key with
      | Some text => Js.VObject text
      | None => Js.VUndefined
      end
  end.

(** [String(value || '')]: a falsy value ([undefined], [null], the empty
    string, the number 0) gives the empty string. *)
Definition String_or_empty (value : Js.Value) : string :=
  Js.ToString (if Js.ToBoolean value then value else Js.VString "").

(** [genericNames.get(drugName) || 'NOT_FOUND'] *)
Definition get_or_NOT_FOUND (genericNames : gmap string string) (drugName : string) : string :=
  match genericNames !! drugName with
  | Some found => if String.eqb found "" then "NOT_FOUND" else found
  | None => "NOT_FOUND"
  end.

Definition addGenericNameColumn (originalData : list (gmap string Cell))
    (columnName : string) (genericNames : gmap string string) : list (gmap string Cell) :=
  List.map
    (λ row,
       let drugName := Js.trim (String_or_empty (get_property row columnName)) in
       let genericName := get_or_NOT_FOUND genericNames drugName in
       <[GENERIC_NAME_COLUMN := CellString genericName]> row)
    originalData.

(** ** [validateRxNormAPI] *)

(** [rxcui !== null] tells null from every string, the empty one too. *)
Definition validateRxNormAPI (config : RxNormConfig) : Async bool :=
  try_catch
    (found ← searchDrug "aspirin" config;
     mret (match found with
           | None => false
           | Some _ => true
           end))
    (λ _, mret false).

(** ** More JavaScript string primitives *)

Module JsString.

(** [toLowerCase] on one code unit in 0..255: A-Z and the capital letters of
    Latin-1 (all of 192..222 but the multiplication sign 215) move up by 32. *)
Definition lower_unit (c : ascii) : ascii :=
  let n := nat_of_ascii c in
  if ((65 <=? n) && (n <=? 90) || (192 <=? n) && (n <=? 214)
      || (216 <=? n) && (n <=? 222))%nat
  then ascii_of_nat (n + 32)
  else c.

Fixpoint toLowerCase (s : string) : string :=
  match s with
  | EmptyString => EmptyString
  | String c rest => String (lower_unit c) (toLowerCase rest)
  end.

(** [s.endsWith(suffix)] *)
Definition endsWith (suffix s : string) : bool :=
  let ls := String.length s in
  let lsuffix := String.length suffix in
  (lsuffix <=? ls)%nat && String.eqb (String.substring (ls - lsuffix) lsuffix s) suffix.

(** [parts.join(separator)] *)
Fixpoint join (separator : string) (parts : list string) : string :=
  match parts with
  | [] => ""
  | [part] => part
  | part :: later => part +:+ separator +:+ join separator later
  end.

(** [array.indexOf(value)], [None] standing for -1. *)
Fixpoint indexOf (value : string) (array : list string) : option nat :=
  match array with
  | [] => None
  | first :: later =>
      if String.eqb first value then Some 0%nat
      else match indexOf value later with
           | Some index => Some (S index)
           | None => None
           end
  end.

(** [array.findIndex(test)], [None] standing for -1. *)
Fixpoint findIndex (test : string → bool) (array : list string) : option nat :=
  match array with
  | [] => None
  | first :: later =>
      if test first then Some 0%nat
      else match findIndex test later with
           | Some index => Some (S index)
           | None => None
           end
  end.

(** [set.add(value)] on a [Set] kept as the list of its elements in the
    order they were first added. *)
Definition Set_add (elements : list string) (value : string) : list string :=
  if bool_decide (value ∈ elements) then elements else elements ++ [value].

(** [Array.from(new Set(values))] *)
Definition Array_from_Set (values : list string) : list string :=
  fold_left Set_add values [].

End JsString.

(** ** The rest of [lib/csv-processor.ts] *)

(** What PapaParse hands to its callbacks. *)
Module Papa.

Record ParseError := {
  row : option Z;
  message : string
}.

Record ParseMeta := {
  delimiter : string;
  linebreak : string;
  aborted : bool;
  truncated : bool;
  cursor : Z;
  fields : option (list string)
}.

Record ParseResult := {
  data : list (gmap string Cell);
  errors : list ParseError;
  meta : ParseMeta
}.

(** The callback [Papa.parse] ends with: [complete(results)] or
    [error(error)]. *)
Inductive Callback :=
| complete (results : ParseResult)
| error (error_name error_message : string).

End Papa.

Module Csv.

Record CSVConfig := {
  delimiter : string;
  header : bool;
  skipEmptyLines : bool;
  dynamicTyping : bool
}.

(** [Partial<CSVConfig>]: a field left out is [None]. *)
Record PartialCSVConfig := {
  delimiter_given : option string;
  header_given : option bool;
  skipEmptyLines_given : option bool;
  dynamicTyping_given : option bool
}.

Record ParsedCSVData := {
  data : list (gmap string Cell);
  columns : list string;
  meta : Papa.ParseMeta
}.

(** The [details] of a [CSVProcessingError]. *)
Inductive Details :=
| NoDetails
| ParseErrors (errors : list Papa.ParseError)
| Cause (error_name error_message : string)
| FileType (fileName fileType : string)
| FileSize (fileSize maxSize : Z)
| Columns (availableColumns : list string) (requestedColumn : string).

(** What the functions of the module throw or reject with: a
    [CSVProcessingError], or an error that came from elsewhere. *)
Inductive Thrown :=
| CSVProcessingError (message : string) (code : option string) (details : Details)
| Foreign (error_name error_message : string).

(** A call that returns or throws; a promise that resolves or rejects. *)
Inductive Try (A : Type) :=
| Value (value : A)
| Raised (error : Thrown).
Arguments Value {A} value.
Arguments Raised {A} error.

(** A [File] of the browser; [text] is what [await file.text()] gives. *)
Record File := {
  name : string;
  type : string;
  size : Z;
  text : Try string
}.

Record Stats := {
  rowCount : Z;
  columnCount : Z;
  stats_columns : list string;
  hasHeaders : bool;
  isEmpty : bool
}.

Record Validation := {
  isValid : bool;
  errors : list string;
  warnings : list string
}.

End Csv.

Definition DEFAULT_CSV_CONFIG : Csv.CSVConfig :=
  {| Csv.delimiter := ",";
     Csv.header := true;
     Csv.skipEmptyLines := true;
     Csv.dynamicTyping := false |}.

(** [{ ...DEFAULT_CSV_CONFIG, ...config }] *)
Definition fullConfig (config : Csv.PartialCSVConfig) : Csv.CSVConfig :=
  {| Csv.delimiter := default (Csv.delimiter DEFAULT_CSV_CONFIG) (Csv.delimiter_given config);
     Csv.header := default (Csv.header DEFAULT_CSV_CONFIG) (Csv.header_given config);
     Csv.skipEmptyLines :=
       default (Csv.skipEmptyLines DEFAULT_CSV_CONFIG) (Csv.skipEmptyLines_given config);
     Csv.dynamicTyping :=
       default (Csv.dynamicTyping DEFAULT_CSV_CONFIG) (Csv.dynamicTyping_given config) |}.

(** [`Row ${err.row}: ${err.message}`] *)
Definition describe_parse_error (err : Papa.ParseError) : string :=
  "Row "
  +:+ match Papa.row err with
      | Some row => Js.String_of_number row
      | None => "undefined"
      end
  +:+ ": " +:+ Papa.message err.

(** The [complete] and [error] callbacks of [parseCSV], which settle its
    promise. *)
Definition parseCSV_settle (config : Csv.CSVConfig) (callback : Papa.Callback) :
    Csv.Try Csv.ParsedCSVData :=
  match callback with
  | Papa.complete results =>
      match Papa.errors results with
      | _ :: _ =>
          let errorMessages :=
            JsString.join "; " (describe_parse_error <$> Papa.errors results) in
          Csv.Raised (Csv.CSVProcessingError
                        ("CSV parsing errors: " +:+ errorMessages)
                        (Some "PARSE_ERROR")
                        (Csv.ParseErrors (Papa.errors results)))
      | [] =>
          match Papa.data results with
          | [] =>
              Csv.Raised (Csv.CSVProcessingError "No data found in CSV file"
                            (Some "NO_DATA") Csv.NoDetails)
          | _ :: _ =>
              let columns := default [] (Papa.fields (Papa.meta results)) in
              if Csv.header config && bool_decide (columns = [])
              then Csv.Raised (Csv.CSVProcessingError
                                 "No column headers found in CSV file"
                                 (Some "NO_HEADERS") Csv.NoDetails)
              else Csv.Value {| Csv.data := Papa.data results;
                                Csv.columns := columns;
                                Csv.meta := Papa.meta results |}
          end
      end
  | Papa.error error_name error_message =>
      Csv.Raised (Csv.CSVProcessingError
                    ("Papa Parse error: " +:+ error_message)
                    (Some "PAPA_PARSE_ERROR")
                    (Csv.Cause error_name error_message))
  end.

(** [parseCSV]. [Papa_parse] is the library call, given the content and the
    full configuration and answering with the callback it ends with. The
    outer [Try] is the call itself, which throws on empty content; the inner
    one is the promise it returns. *)
Definition parseCSV (Papa_parse : string → Csv.CSVConfig → Papa.Callback)
    (csvContent : string) (config : Csv.PartialCSVConfig) :
    Csv.Try (Csv.Try Csv.ParsedCSVData) :=
  if String.eqb csvContent "" || String.eqb (Js.trim csvContent) ""
  then Csv.Raised (Csv.CSVProcessingError "CSV content is empty"
                     (Some "EMPTY_CONTENT") Csv.NoDetails)
  else Csv.Value (parseCSV_settle (fullConfig config)
                    (Papa_parse csvContent (fullConfig config))).

(** [await parseCSV(...)] inside an [async] function: a throw of the call
    and a rejection of its promise both reject. *)
Definition await_call {A} (call : Csv.Try (Csv.Try A)) : Csv.Try A :=
  match call with
  | Csv.Value promise => promise
  | Csv.Raised error => Csv.Raised error
  end.

(** [readCSVFile]; the result is how its promise settles. *)
Definition readCSVFile (Papa_parse : string → Csv.CSVConfig → Papa.Callback)
    (file : option Csv.File) (config : Csv.PartialCSVConfig) :
    Csv.Try Csv.ParsedCSVData :=
  match file with
  | None =>
      Csv.Raised (Csv.CSVProcessingError "No file provided" (Some "NO_FILE") Csv.NoDetails)
  | Some file =>
      if negb (JsString.endsWith ".csv" (JsString.toLowerCase (Csv.name file)))
         && negb (String.eqb (Csv.type file) "text/csv")
      then Csv.Raised (Csv.CSVProcessingError "File must be a CSV file (.csv)"
                         (Some "INVALID_FILE_TYPE")
                         (Csv.FileType (Csv.name file) (Csv.type file)))
      else
        let maxSize := 10 * 1024 * 1024 in
        if maxSize <? Csv.size file
        then Csv.Raised (Csv.CSVProcessingError
                           ("File size exceeds "
                            +:+ Js.String_of_number (maxSize / (1024 * 1024))
                            +:+ "MB limit")
                           (Some "FILE_TOO_LARGE")
                           (Csv.FileSize (Csv.size file) maxSize))
        else
          let attempt :=
            match Csv.text file with
            | Csv.Value csvContent => await_call (parseCSV Papa_parse csvContent config)
            | Csv.Raised error => Csv.Raised error
            end in
          match attempt with
          | Csv.Value parsed => Csv.Value parsed
          | Csv.Raised (Csv.CSVProcessingError message code details) =>
              Csv.Raised (Csv.CSVProcessingError message code details)
          | Csv.Raised (Csv.Foreign error_name error_message) =>
              Csv.Raised (Csv.CSVProcessingError
                            ("Failed to read CSV file: "
                             +:+ toString (OtherError error_name error_message))
                            (Some "FILE_READ_ERROR")
                            (Csv.Cause error_name error_message))
          end
  end.

(** The double quote, as a string of one code unit. *)
Definition double_quote : string := String (ascii_of_nat 34) EmptyString.

Definition validateColumn (columns : list string) (columnName : string) : Csv.Try bool :=
  if negb (bool_decide (columnName ∈ columns))
  then Csv.Raised (Csv.CSVProcessingError
                     ("Column " +:+ double_quote +:+ columnName +:+ double_quote
                      +:+ " not found in CSV file")
                     (Some "COLUMN_NOT_FOUND")
                     (Csv.Columns columns columnName))
  else Csv.Value true.

(** The [for] loop of [extractColumnValues] over the rows, [values] being
    the set so far. *)
Definition extractColumnValues_step (columnName : string) (values : list string)
    (row : gmap string Cell) : list string :=
  let value := get_property row columnName in
  match value with
  | Js.VNull | Js.VUndefined | Js.VString "" => values
  | _ => JsString.Set_add values (Js.trim (Js.ToString value))
  end.

Definition extractColumnValues (data : list (gmap string Cell)) (columnName : string) :
    list string :=
  fold_left (extractColumnValues_step columnName) data [].

(** [generateCSV]; [Papa_unparse] is the library call, given the rows, the
    delimiter and the header flag. *)
Definition generateCSV (Papa_unparse : list (gmap string Cell) → string → bool → string)
    (data : list (gmap string Cell)) (config : Csv.PartialCSVConfig) : Csv.Try string :=
  match data with
  | [] => Csv.Raised (Csv.CSVProcessingError "No data to generate CSV"
                        (Some "NO_DATA") Csv.NoDetails)
  | _ :: _ =>
      Csv.Value (Papa_unparse data (Csv.delimiter (fullConfig config))
                   (Csv.header (fullConfig config)))
  end.

Definition MEDICATION_COLUMN_KEYWORDS : list string :=
  ["medication"; "drug"; "medicine"; "description"; "name"; "med"; "rx"; "prescription"].

(** One of the two [for] loops of [detectMedicationColumn] over the
    keywords: [Some result] when the loop returns [columns[index]], [None]
    when it runs to its end. *)
Fixpoint detect_loop (find : string → option nat) (columns : list string)
    (keywords : list string) : option (option string) :=
  match keywords with
  | [] => None
  | keyword :: later =>
      match find keyword with
      | Some index => Some (columns !! index)
      | None => detect_loop find columns later
      end
  end.

Definition detectMedicationColumn (columns : list string) : option string :=
  let normalizedColumns := JsString.toLowerCase <$> columns in
  match detect_loop (λ keyword, JsString.indexOf keyword normalizedColumns)
          columns MEDICATION_COLUMN_KEYWORDS with
  | Some result => result
  | None =>
      match detect_loop
              (λ keyword, JsString.findIndex (λ col, Js.includes keyword col)
                            normalizedColumns)
              columns MEDICATION_COLUMN_KEYWORDS with
      | Some result => result
      | None => None
      end
  end.

Definition getCSVStats (data : Csv.ParsedCSVData) : Csv.Stats :=
  {| Csv.rowCount := Z.of_nat (length (Csv.data data));
     Csv.columnCount := Z.of_nat (length (Csv.columns data));
     Csv.stats_columns := Csv.columns data;
     Csv.hasHeaders := 0 <? Z.of_nat (length (Csv.columns data));
     Csv.isEmpty := Z.of_nat (length (Csv.data data)) =? 0 |}.

(** [sample.every(row => Object.keys(row).length === firstRowKeys.length)]
    on the first ten rows, the first of which gives [firstRowKeys]. *)
Definition hasConsistentKeys (data : list (gmap string Cell)) : bool :=
  let sample := take 10 data in
  match sample with
  | [] => true
  | first :: _ => forallb (λ row, (size row =? size first)%nat) sample
  end.

Definition validateCSVStructure (parsedData : Csv.ParsedCSVData) : Csv.Validation :=
  let rows := Z.of_nat (length (Csv.data parsedData)) in
  let errors :=
    (if rows =? 0 then ["CSV file contains no data rows"] else [])
    ++ (if bool_decide (Csv.columns parsedData = [])
        then ["CSV file contains no columns"] else []) in
  let warnings :=
    (if negb (bool_decide (Csv.columns parsedData = []))
        && falsy (detectMedicationColumn (Csv.columns parsedData))
     then ["Could not auto-detect medication column - manual selection required"]
     else [])
    ++ (if 1000 <? rows
        then ["Large file detected (" +:+ Js.String_of_number rows
              +:+ " rows) - processing may take several minutes"]
        else [])
    ++ (if (10 <? rows) && negb (hasConsistentKeys (Csv.data parsedData))
        then ["Inconsistent number of columns detected across rows"]
        else []) in
  {| Csv.isValid := bool_decide (errors = []);
     Csv.errors := errors;
     Csv.warnings := warnings |}.

(** ** [handleNormalize] of the page *)

(** What [handleNormalize] leaves in the state of the page: nothing when it
    returns at once, the rows given to [setNormalizedData], or the message
    given to [setError]. *)
Inductive Normalized :=
| Untouched
| NormalizedData (rows : list (gmap string Cell))
| Error (message : string).

(** [result.genericName || 'NOT_FOUND'] *)
Definition genericName_or_NOT_FOUND (result : NormalizationResult) : string :=
  match genericName result with
  | None | Some EmptyString => "NOT_FOUND"
  | Some generic => generic
  end.

(** [csvData.data.map(row => String(row[selectedColumn] || '').trim())
    .filter(Boolean)] *)
Definition page_drugNames (data : list (gmap string Cell)) (selectedColumn : string) :
    list string :=
  List.filter (λ drugName, negb (String.eqb drugName ""))
    (List.map (λ row, Js.trim (String_or_empty (get_property row selectedColumn))) data).

(** [results.forEach(result => genericMap.set(...))] on a new [Map]. *)
Definition page_genericMap (results : list NormalizationResult) : gmap string string :=
  fold_left
    (λ genericMap result,
       <[originalName result := genericName_or_NOT_FOUND result]> genericMap)
    results ∅.

Definition handleNormalize (csvData : option Csv.ParsedCSVData) (selectedColumn : string) :
    Async Normalized :=
  match csvData with
  | None => mret Untouched
  | Some csvData =>
      if String.eqb selectedColumn "" then mret Untouched
      else
        try_catch
          (let drugNames := page_drugNames (Csv.data csvData) selectedColumn in
           let uniqueDrugs := JsString.Array_from_Set drugNames in
           results ← normalizeDrugNameBatch uniqueDrugs true DEFAULT_RXNORM_CONFIG;
           let genericMap := page_genericMap results in
           let normalized :=
             addGenericNameColumn (Csv.data csvData) selectedColumn genericMap in
           mret (NormalizedData normalized))
          (λ err, mret (Error ("Normalization failed: " +:+ toString err)))
  end.

(** * Vocabulary of the properties *)

(** The error a failed attempt leaves in [lastError]: the [HTTP_ERROR] of a
    response that is not ok, the [TIMEOUT] of an aborted request, or the
    error [fetch] rejected with. *)
Definition attempt_error (config : RxNormConfig) (outcome : FetchOutcome) : Thrown :=
  match outcome with
  | Resolved response =>
      RxNormAPIError
        ("HTTP " +:+ Js.String_of_number (Wire.status response) +:+ ": "
         +:+ Wire.statusText response)
        (Some "HTTP_ERROR") (Some (Wire.status response)) None
  | Rejected error_name error_message =>
      if String.eqb error_name "AbortError"
      then RxNormAPIError
             ("Request timeout after " +:+ Js.String_of_number (timeout config) +:+ "ms")
             (Some "TIMEOUT") None None
      else OtherError error_name error_message
  end.

(** The attempt got a response with an ok status. *)
Definition succeeds (outcome : FetchOutcome) : bool :=
  match outcome with
  | Resolved response => Wire.ok response
  | Rejected _ _ => false
  end.

(** The attempt got a response with a status in 400..499. *)
Definition fails_4xx (outcome : FetchOutcome) : bool :=
  match outcome with
  | Resolved response => (400 <=? Wire.status response) && (Wire.status response <? 500)
  | Rejected _ _ => false
  end.

(** Any other failure: another status that is not ok, a network error, a
    timeout. *)
Definition fails_otherwise (outcome : FetchOutcome) : bool :=
  negb (succeeds outcome) && negb (fails_4xx outcome).

(** The request was aborted by the timer. *)
Definition times_out (outcome : FetchOutcome) : bool :=
  match outcome with
  | Resolved _ => false
  | Rejected error_name _ => String.eqb error_name "AbortError"
  end.

Definition attempt_completion (config : RxNormConfig) (outcome : FetchOutcome) :
    Completion Wire.Response :=
  match outcome with
  | Resolved response =>
      if Wire.ok response then Returns response else Throws (attempt_error config outcome)
  | Rejected _ _ => Throws (attempt_error config outcome)
  end.

(** The events of [made] attempts in a row, the first one numbered
    [attempt]: a fetch per attempt, and between two attempts the pause
    [retryDelay * attempt] after the earlier one; nothing follows the last
    fetch. *)
Fixpoint retry_trace (url : string) (config : RxNormConfig) (attempt : Z) (made : nat) :
    list Event :=
  match made with
  | O => []
  | S more =>
      Fetch url (timeout config) ::
      match more with
      | O => []
      | S _ => Sleep (retryDelay config * attempt) :: retry_trace url config (attempt + 1) more
      end
  end.

(** The number of [fetch] calls in a trace. *)
Fixpoint fetch_count (t : list Event) : nat :=
  match t with
  | [] => 0
  | Fetch _ _ :: rest => S (fetch_count rest)
  | _ :: rest => fetch_count rest
  end.

(** The error thrown once the attempts are used up. *)
Definition max_retries_error (config : RxNormConfig) (lastError : option Thrown) : Thrown :=
  RxNormAPIError
    ("Failed after " +:+ Js.String_of_number (retryAttempts config)
     +:+ " attempts: " +:+ lastError_message lastError)
    (Some "MAX_RETRIES_EXCEEDED") None None.

(** The last error seen once [left] attempts in a row have failed. *)
Definition last_error (url : string) (config : RxNormConfig) (remote : Remote)
    (lastError : option Thrown) (n left : nat) : option Thrown :=
  match left with
  | O => lastError
  | S before => Some (attempt_error config (remote (n + before)%nat url))
  end.

(** The URL [searchDrug] asks for. *)
Definition search_url (config : RxNormConfig) (drugName : string) : string :=
  baseUrl config +:+ "/approximateTerm.json?term="
  +:+ Js.encodeURIComponent (Js.trim drugName).

(** The URL [getGenericName] asks for. *)
Definition related_url (config : RxNormConfig) (rxcui : string) : string :=
  baseUrl config +:+ "/rxcui/" +:+ rxcui +:+ "/related.json?tty=IN".

(** What [searchDrug] reads in a parsed body: the identifier of the first
    candidate, if there is one. *)
Definition top_candidate (data : Wire.Data) : option string :=
  match Wire.approximateGroup data with
  | Some {| Wire.candidate := Some (top :: _) |} => Some (Wire.rxcui top)
  | _ => None
  end.

(** What [getGenericName] reads in a parsed body: the first name of the
    first concept group of type IN, if there is one. *)
Definition first_ingredient (data : Wire.Data) : option string :=
  match Wire.relatedGroup data with
  | Some {| Wire.conceptGroup := Some conceptGroup |} =>
      match List.find (λ group, String.eqb (Wire.tty group) "IN") conceptGroup with
      | Some {| Wire.conceptProperties := Some (first :: _) |} => Some (Wire.name first)
      | _ => None
      end
  | _ => None
  end.

(** The five ways [normalizeDrugName] can end. *)
Inductive NormalizeCase (drugName : string) (config : RxNormConfig) (remote : Remote)
    (n : nat) (result : NormalizationResult) (n' : nat) (t : list Event) : Prop :=
| search_threw error :
    run (searchDrug drugName config) remote n = (Throws error, n', t) →
    result = {| originalName := drugName; genericName := None; rxcui := None;
                status := ERROR; errorMessage := Some (message_of error) |} →
    NormalizeCase drugName config remote n result n' t
| search_found_nothing found :
    run (searchDrug drugName config) remote n = (Returns found, n', t) →
    falsy found = true →
    result = {| originalName := drugName; genericName := None; rxcui := None;
                status := NOT_FOUND;
                errorMessage := Some "Drug not found in RxNorm database" |} →
    NormalizeCase drugName config remote n result n' t
| generic_threw id n1 t1 error t2 :
    run (searchDrug drugName config) remote n = (Returns (Some id), n1, t1) →
    id ≠ "" →
    run (getGenericName id config) remote n1 = (Throws error, n', t2) →
    t = t1 ++ t2 →
    result = {| originalName := drugName; genericName := None; rxcui := None;
                status := ERROR; errorMessage := Some (message_of error) |} →
    NormalizeCase drugName config remote n result n' t
| generic_found_nothing id n1 t1 ingredient t2 :
    run (searchDrug drugName config) remote n = (Returns (Some id), n1, t1) →
    id ≠ "" →
    run (getGenericName id config) remote n1 = (Returns ingredient, n', t2) →
    falsy ingredient = true →
    t = t1 ++ t2 →
    result = {| originalName := drugName; genericName := None; rxcui := Some id;
                status := NOT_FOUND;
                errorMessage := Some "Generic name not found for this drug" |} →
    NormalizeCase drugName config remote n result n' t
| both_found id n1 t1 generic t2 :
    run (searchDrug drugName config) remote n = (Returns (Some id), n1, t1) →
    id ≠ "" →
    run (getGenericName id config) remote n1 = (Returns (Some generic), n', t2) →
    generic ≠ "" →
    t = t1 ++ t2 →
    result = {| originalName := drugName; genericName := Some generic; rxcui := Some id;
                status := SUCCESS; errorMessage := None |} →
    NormalizeCase drugName config remote n result n' t.

(** The calls of the progress callback in a trace, in order, each with
    its three arguments. *)
Fixpoint progress_calls (t : list Event) : list (Z * Z * string) :=
  match t with
  | [] => []
  | Progress completed total current :: rest =>
      (completed, total, current) :: progress_calls rest
  | _ :: rest => progress_calls rest
  end.

(** The names of a batch, each with the events of its own
    [normalizeDrugName], run one after the other from fetch count [n]. *)
Fixpoint item_runs (config : RxNormConfig) (remote : Remote) (drugNames : list string)
    (n : nat) : list (string * list Event) :=
  match drugNames with
  | [] => []
  | drugName :: later =>
      let '(_, n1, events) := run (normalizeDrugName drugName config) remote n in
      (drugName, events) :: item_runs config remote later n1
  end.

(** The events of the loop body at index [i]: the progress call if a
    callback was supplied, the events of the item, and the pause of 100 ms
    unless [i] is the last index. *)
Definition item_events (onProgress : bool) (total i : Z) (item : string * list Event) :
    list Event :=
  (if onProgress then [Progress i total item.1] else [])
  ++ item.2
  ++ (if i <? total - 1 then [Sleep 100] else []).

(** The milliseconds of pause asked for in a trace. *)
Fixpoint sleep_total (t : list Event) : Z :=
  match t with
  | [] => 0
  | Sleep ms :: rest => ms + sleep_total rest
  | _ :: rest => sleep_total rest
  end.

(** A result under another name. *)
Definition renamed (name : string) (result : NormalizationResult) : NormalizationResult :=
  {| originalName := name;
     genericName := genericName result;
     rxcui := rxcui result;
     status := status result;
     errorMessage := errorMessage result |}.

(** The request for [url], begun at fetch count [n], meets [k] failures of
    the kind that is retried and is then answered, within the attempts
    allowed, by [response] with an ok status. *)
Definition answered (config : RxNormConfig) (remote : Remote) (n k : nat) (url : string)
    (response : Wire.Response) : Prop :=
  Z.of_nat k < retryAttempts config
  ∧ (∀ j, (j < k)%nat → fails_otherwise (remote (n + j)%nat url) = true)
  ∧ remote (n + k)%nat url = Resolved response
  ∧ Wire.ok response = true.

(** The row adds [value] to the set of [extractColumnValues]: its cell in
    the column is a string that is not empty, or a number, and [value] is
    its trimmed text; or it has no cell there, the column has the name of a
    member of [Object.prototype], and [value] is the trimmed text of that
    member. *)
Definition contributes (columnName : string) (row : gmap string Cell) (value : string) :
    Prop :=
  (∃ s, row !! columnName = Some (CellString s) ∧ s ≠ "" ∧ value = Js.trim s)
  ∨ (∃ n, row !! columnName = Some (CellNumber n)
          ∧ value = Js.trim (Js.String_of_number (Js.to_Z n)))
  ∨ (∃ text, row !! columnName = None
             ∧ Js.Object_prototype columnName = Some text
             ∧ value = Js.trim text).

(** The file passes the type check of [readCSVFile]: its name ends in
    ".csv" up to case, or its type is "text/csv". *)
Definition looks_like_csv (file : Csv.File) : bool :=
  JsString.endsWith ".csv" (JsString.toLowerCase (Csv.name file))
  || String.eqb (Csv.type file) "text/csv".

(** ** Sample remotes and rows *)

Definition ok_response (data : Wire.Data) : Wire.Response :=
  {| Wire.status := 200; Wire.statusText := "OK"; Wire.body := Wire.Json data |}.

Definition error_response (status : Z) (statusText : string) : Wire.Response :=
  {| Wire.status := status; Wire.statusText := statusText;
     Wire.body := Wire.NotJson "SyntaxError" "Unexpected end of JSON input" |}.

Definition candidates (ids : list string) : Wire.Data :=
  {| Wire.approximateGroup :=
       Some {| Wire.candidate := Some ((λ id, {| Wire.rxcui := id |}) <$> ids) |};
     Wire.relatedGroup := None |}.

Definition ingredients (names : list string) : Wire.Data :=
  {| Wire.approximateGroup := None;
     Wire.relatedGroup :=
       Some {| Wire.conceptGroup :=
                 Some [ {| Wire.tty := "IN";
                           Wire.conceptProperties :=
                             Some ((λ name, {| Wire.name := name |}) <$> names) |} ] |} |}.

(** A service that knows Tylenol (202433, acetaminophen), knows an
    identifier without ingredient for "orphan" (999), and has no candidate
    for any other name. *)
Definition sample_remote : Remote :=
  λ _ url,
    if Js.includes "/approximateTerm.json?term=Tylenol" url
    then Resolved (ok_response (candidates ["202433"]))
    else if Js.includes "/rxcui/202433/related.json" url
    then Resolved (ok_response (ingredients ["acetaminophen"]))
    else if Js.includes "/approximateTerm.json?term=orphan" url
    then Resolved (ok_response (candidates ["999"]))
    else if Js.includes "/rxcui/999/related.json" url
    then Resolved (ok_response (ingredients []))
    else Resolved (ok_response (candidates [])).

(** Every request is aborted by the timer. *)
Definition timing_out_remote : Remote :=
  λ _ _, Rejected "AbortError" "The operation was aborted.".

(** The first request gets a 500, the later ones are served by
    [sample_remote]. *)
Definition flaky_remote : Remote :=
  λ n url,
    match n with
    | O => Resolved (error_response 500 "Internal Server Error")
    | S _ => sample_remote n url
    end.

(** Every request gets a 404. *)
Definition missing_remote : Remote :=
  λ _ _, Resolved (error_response 404 "Not Found").

Definition tylenol_result : NormalizationResult :=
  {| originalName := "Tylenol"; genericName := Some "acetaminophen";
     rxcui := Some "202433"; status := SUCCESS; errorMessage := None |}.

Definition sample_rows : list (gmap string Cell) :=
  [ {[ "PATIENT" := CellString "001"; "DESCRIPTION" := CellString " Tylenol " ]};
    {[ "PATIENT" := CellString "002"; "DESCRIPTION" := CellString "Advil" ]};
    {[ "PATIENT" := CellString "003"; "DESCRIPTION" := CellString "Tylenol" ]} ].

Definition sample_names : gmap string string :=
  {[ "Tylenol" := "acetaminophen" ]}.

(** The number 0. *)
Definition zero : Js.SafeInteger := {| Js.to_Z := 0; Js.is_safe := I |}.

(** A row whose designated cell is the number 0, and a map with an entry
    under "0", the text [extractColumnValues] gives for that cell. *)
Definition zero_rows : list (gmap string Cell) :=
  [ {[ "PATIENT" := CellString "004"; "DESCRIPTION" := CellNumber zero ]} ].

Definition zero_names : gmap string string :=
  {[ "0" := "placebo" ]}.

(** The default configuration with no attempt allowed. *)
Definition no_attempt_config : RxNormConfig :=
  {| baseUrl := "https://rxnav.nlm.nih.gov/REST";
     timeout := 10000;
     retryAttempts := 0;
     retryDelay := 1000 |}.

(** Every request gets a 200 whose body is not JSON. *)
Definition garbled_remote : Remote :=
  λ _ _, Resolved {| Wire.status := 200; Wire.statusText := "OK";
                     Wire.body := Wire.NotJson "SyntaxError" "Unexpected token <" |}.

(** A related-concepts body with a brand-name group, an ingredient group
    without names, and an ingredient group with a name. *)
Definition two_IN_groups : Wire.Data :=
  {| Wire.approximateGroup := None;
     Wire.relatedGroup :=
       Some {| Wire.conceptGroup :=
                 Some [ {| Wire.tty := "BN";
                           Wire.conceptProperties := Some [ {| Wire.name := "Tylenol" |} ] |};
                        {| Wire.tty := "IN"; Wire.conceptProperties := Some [] |};
                        {| Wire.tty := "IN";
                           Wire.conceptProperties :=
                             Some [ {| Wire.name := "acetaminophen" |} ] |} ] |} |}.

Definition two_IN_groups_remote : Remote :=
  λ _ _, Resolved (ok_response two_IN_groups).

Definition sample_meta : Papa.ParseMeta :=
  {| Papa.delimiter := ",";
     Papa.linebreak := String (ascii_of_nat 10) EmptyString;
     Papa.aborted := false;
     Papa.truncated := false;
     Papa.cursor := 64;
     Papa.fields := Some ["PATIENT"; "DESCRIPTION"] |}.

Definition sample_parsed : Csv.ParsedCSVData :=
  {| Csv.data := sample_rows;
     Csv.columns := ["PATIENT"; "DESCRIPTION"];
     Csv.meta := sample_meta |}.

(** PapaParse completing with [sample_rows] and no error. *)
Definition sample_Papa_parse : string → Csv.CSVConfig → Papa.Callback :=
  λ _ _, Papa.complete
           {| Papa.data := sample_rows; Papa.errors := []; Papa.meta := sample_meta |}.

(** PapaParse completing with [sample_rows] and two errors. *)
Definition broken_Papa_parse : string → Csv.CSVConfig → Papa.Callback :=
  λ _ _, Papa.complete
           {| Papa.data := sample_rows;
              Papa.errors :=
                [ {| Papa.row := Some 2; Papa.message := "Too few fields" |};
                  {| Papa.row := None; Papa.message := "Quoted field unterminated" |} ];
              Papa.meta := sample_meta |}.

(** A configuration that overrides nothing. *)
Definition no_overrides : Csv.PartialCSVConfig :=
  {| Csv.delimiter_given := None;
     Csv.header_given := None;
     Csv.skipEmptyLines_given := None;
     Csv.dynamicTyping_given := None |}.

(** A file of exactly 10 MB, named in capitals and without a type. *)
Definition sample_file : Csv.File :=
  {| Csv.name := "MEDS.CSV";
     Csv.type := "";
     Csv.size := 10485760;
     Csv.text := Csv.Value "PATIENT,DESCRIPTION" |}.

(** * Properties *)

(** ** Running the monad *)

Section Running.
Context {A B : Type}.
Implicit Types (remote : Remote) (n : nat).

Lemma run_ret (a : A) remote n : run (mret a) remote n = (Returns a, n, []).
Proof. reflexivity. Qed.

Lemma run_throw (e : Thrown) remote n : run (throw (A:=A) e) remote n = (Throws e, n, []).
Proof. reflexivity. Qed.

Lemma run_bind (m : Async A) (f : A → Async B) remote n :
  run (m ≫= f) remote n =
  match run m remote n with
  | (Returns a, n1, t1) =>
      let '(c, n2, t2) := run (f a) remote n1 in (c, n2, t1 ++ t2)
  | (Throws e, n1, t1) => (Throws e, n1, t1)
  end.
Proof. reflexivity. Qed.

Lemma run_try_catch (body : Async A) (handler : Thrown → Async A) remote n :
  run (try_catch body handler) remote n =
  match run body remote n with
  | (Returns a, n1, t1) => (Returns a, n1, t1)
  | (Throws e, n1, t1) =>
      let '(c, n2, t2) := run (handler e) remote n1 in (c, n2, t1 ++ t2)
  end.
Proof. reflexivity. Qed.

End Running.

(** ** One attempt *)

Lemma run_fetchWithTimeout url ms remote n :
  run (fetchWithTimeout url ms) remote n =
  (match remote n url with
   | Resolved response => Returns response
   | Rejected error_name error_message =>
       if String.eqb error_name "AbortError"
       then Throws (RxNormAPIError
                      ("Request timeout after " +:+ Js.String_of_number ms +:+ "ms")
                      (Some "TIMEOUT") None None)
       else Throws (OtherError error_name error_message)
   end, S n, [Fetch url ms]).
Proof.
  unfold fetchWithTimeout. rewrite run_try_catch, run_bind.
  unfold run at 1, fetch. destruct (remote n url) as [response|en em]; simpl.
  - reflexivity.
  - destruct (String.eqb en "AbortError"); reflexivity.
Qed.

Lemma run_attempt_fetch url config remote n :
  run (attempt_fetch url config) remote n =
  (attempt_completion config (remote n url), S n, [Fetch url (timeout config)]).
Proof.
  unfold attempt_fetch. rewrite run_bind, run_fetchWithTimeout.
  unfold attempt_completion, attempt_error.
  destruct (remote n url) as [response|en em].
  - destruct (Wire.ok response); reflexivity.
  - destruct (String.eqb en "AbortError"); reflexivity.
Qed.

Lemma succeeds_completion config outcome :
  succeeds outcome = true →
  ∃ response, outcome = Resolved response ∧ Wire.ok response = true
              ∧ attempt_completion config outcome = Returns response.
Proof.
  destruct outcome as [response|en em]; simpl; [|discriminate].
  intros Hok. exists response. rewrite Hok. auto.
Qed.

Lemma fails_4xx_not_ok response :
  (400 <=? Wire.status response) && (Wire.status response <? 500) = true →
  Wire.ok response = false.
Proof. unfold Wire.ok. intros H. apply andb_true_iff in H as [H1 H2]. lia. Qed.

Lemma fails_4xx_completion config outcome :
  fails_4xx outcome = true →
  attempt_completion config outcome = Throws (attempt_error config outcome)
  ∧ is_client_error (attempt_error config outcome) = true.
Proof.
  destruct outcome as [response|en em]; simpl; [|discriminate].
  intros H. rewrite (fails_4xx_not_ok _ H). split; [reflexivity|].
  apply andb_true_iff in H as [H1 H2]. rewrite H1, H2.
  replace (Wire.status response =? 0) with false by lia. reflexivity.
Qed.

Lemma fails_otherwise_completion config outcome :
  fails_otherwise outcome = true →
  attempt_completion config outcome = Throws (attempt_error config outcome)
  ∧ is_client_error (attempt_error config outcome) = false.
Proof.
  unfold fails_otherwise. intros H. apply andb_true_iff in H as [H1 H2].
  apply negb_true_iff in H1, H2.
  destruct outcome as [response|en em]; simpl in *.
  - rewrite H1. split; [reflexivity|].
    apply andb_false_iff in H2 as [H2|H2]; rewrite H2;
      destruct (Wire.status response =? 0); simpl; rewrite ?andb_false_r; reflexivity.
  - split; [reflexivity|]. destruct (String.eqb en "AbortError"); reflexivity.
Qed.

Lemma times_out_fails_otherwise outcome :
  times_out outcome = true → fails_otherwise outcome = true.
Proof. destruct outcome; simpl; [discriminate|reflexivity]. Qed.

(** A 5xx response, a network error and a timeout are failures of the
    kind that is retried. *)
Lemma retried_failures :
  (∀ response, 500 ≤ Wire.status response ≤ 599 →
               fails_otherwise (Resolved response) = true)
  ∧ (∀ error_name error_message,
       fails_otherwise (Rejected error_name error_message) = true).
Proof.
  split; [|done]. intros response Hstatus.
  unfold fails_otherwise, succeeds, fails_4xx, Wire.ok.
  apply andb_true_iff. split; apply negb_true_iff, andb_false_iff; lia.
Qed.

Lemma attempt_outcome_cases outcome :
  succeeds outcome = true ∨ fails_4xx outcome = true ∨ fails_otherwise outcome = true.
Proof.
  unfold fails_otherwise.
  destruct (succeeds outcome); [by left|].
  destruct (fails_4xx outcome); [by right; left|by right; right].
Qed.

(** ** The retry loop *)

Lemma seqZ_head (a : Z) (k : nat) :
  seqZ a (Z.of_nat (S k)) = a :: seqZ (a + 1) (Z.of_nat k).
Proof.
  rewrite seqZ_cons by lia. f_equal. f_equal; lia.
Qed.

Lemma seqZ_to_nat (a len : Z) : seqZ a len = seqZ a (Z.of_nat (Z.to_nat len)).
Proof. unfold seqZ. rewrite Nat2Z.id. reflexivity. Qed.

Section Retry.
Variables (url : string) (config : RxNormConfig) (remote : Remote).

Lemma run_loop_nil lastError n :
  run (fetchWithRetry_loop url config [] lastError) remote n =
  (Throws (max_retries_error config lastError), n, []).
Proof. reflexivity. Qed.

Lemma run_loop_cons attempt later lastError n :
  run (fetchWithRetry_loop url config (attempt :: later) lastError) remote n =
  match attempt_completion config (remote n url) with
  | Returns response => (Returns response, S n, [Fetch url (timeout config)])
  | Throws error =>
      if is_client_error error
      then (Throws error, S n, [Fetch url (timeout config)])
      else
        let '(c, n2, t2) :=
          run (fetchWithRetry_loop url config later (Some error)) remote (S n) in
        (c, n2,
         Fetch url (timeout config) ::
         (if attempt <? retryAttempts config
          then [Sleep (retryDelay config * attempt)] else []) ++ t2)
  end.
Proof.
  cbn [fetchWithRetry_loop]. rewrite run_try_catch, run_attempt_fetch.
  destruct (attempt_completion config (remote n url)) as [response|error]; [reflexivity|].
  destruct (is_client_error error); [reflexivity|].
  rewrite run_bind. unfold when.
  destruct (attempt <? retryAttempts config).
  - unfold run at 1, sleep.
    destruct (run (fetchWithRetry_loop url config later (Some error)) remote (S n))
      as [[c n2] t2]. reflexivity.
  - rewrite run_ret.
    destruct (run (fetchWithRetry_loop url config later (Some error)) remote (S n))
      as [[c n2] t2]. reflexivity.
Qed.

(** Whatever the remote does, the loop over the attempts [attempt],
    [attempt + 1], ..., [retryAttempts] makes at least one and at most
    all of them, pausing between two of them and not after the last. *)
Lemma loop_shape (left : nat) : ∀ attempt lastError n,
  attempt + Z.of_nat left = retryAttempts config + 1 →
  ∃ c made,
    (made ≤ left)%nat ∧ (left ≠ 0 → made ≠ 0)%nat ∧
    run (fetchWithRetry_loop url config (seqZ attempt (Z.of_nat left)) lastError) remote n
    = (c, (n + made)%nat, retry_trace url config attempt made).
Proof.
  induction left as [|left IH]; intros attempt lastError n Hlast.
  - exists (Throws (max_retries_error config lastError)), 0%nat.
    rewrite Nat.add_0_r. split_and!; [lia|congruence|reflexivity].
  - rewrite seqZ_head, run_loop_cons.
    destruct (attempt_completion config (remote n url)) as [response|error].
    { exists (Returns response), 1%nat. rewrite Nat.add_1_r.
      split_and!; [lia|lia|reflexivity]. }
    destruct (is_client_error error).
    { exists (Throws error), 1%nat. rewrite Nat.add_1_r.
      split_and!; [lia|lia|reflexivity]. }
    destruct (IH (attempt + 1) (Some error) (S n)) as (c & made & Hle & Hpos & Hrun); [lia|].
    rewrite Hrun. exists c, (S made).
    replace (S n + made)%nat with (n + S made)%nat by lia.
    split_and!; [lia|lia|]. f_equal. cbn [retry_trace]. f_equal.
    destruct left as [|left].
    + assert (made = 0%nat) as -> by lia.
      replace (attempt <? retryAttempts config) with false by lia. reflexivity.
    + destruct made as [|made]; [lia|].
      replace (attempt <? retryAttempts config) with true by lia. reflexivity.
Qed.

(** [k] attempts fail in a way that is retried and attempt [k + 1],
    still within the attempts allowed, succeeds or fails with a 4xx
    status: the loop ends there with the completion of that attempt. *)
Lemma loop_decided (k : nat) : ∀ left attempt lastError n,
  attempt + Z.of_nat left = retryAttempts config + 1 →
  (k < left)%nat →
  (∀ j, (j < k)%nat → fails_otherwise (remote (n + j)%nat url) = true) →
  fails_otherwise (remote (n + k)%nat url) = false →
  run (fetchWithRetry_loop url config (seqZ attempt (Z.of_nat left)) lastError) remote n
  = (attempt_completion config (remote (n + k)%nat url), (n + S k)%nat,
     retry_trace url config attempt (S k)).
Proof.
  induction k as [|k IH]; intros left attempt lastError n Hlast Hk Hfail Hend;
    (destruct left as [|left]; [lia|]); rewrite seqZ_head, run_loop_cons.
  - rewrite Nat.add_0_r in Hend. rewrite Nat.add_0_r, Nat.add_1_r.
    destruct (attempt_outcome_cases (remote n url)) as [H|[H|H]].
    + destruct (succeeds_completion config _ H) as (response & _ & _ & ->). reflexivity.
    + destruct (fails_4xx_completion config _ H) as [-> ->]. reflexivity.
    + congruence.
  - pose proof (Hfail 0%nat ltac:(lia)) as H0. rewrite Nat.add_0_r in H0.
    destruct (fails_otherwise_completion config _ H0) as [-> ->].
    rewrite (IH left (attempt + 1) (Some (attempt_error config (remote n url))) (S n)).
    + replace (S n + k)%nat with (n + S k)%nat by lia.
      replace (S n + S k)%nat with (n + S (S k))%nat by lia.
      replace (attempt <? retryAttempts config) with true by lia. reflexivity.
    + lia.
    + lia.
    + intros j Hj. replace (S n + j)%nat with (n + S j)%nat by lia. apply Hfail. lia.
    + replace (S n + k)%nat with (n + S k)%nat by lia. exact Hend.
Qed.

(** Every attempt left fails in a way that is retried: all of them are
    made and the loop ends in [MAX_RETRIES_EXCEEDED] around the last
    error. *)
Lemma loop_exhausted (left : nat) : ∀ attempt lastError n,
  attempt + Z.of_nat left = retryAttempts config + 1 →
  (∀ j, (j < left)%nat → fails_otherwise (remote (n + j)%nat url) = true) →
  run (fetchWithRetry_loop url config (seqZ attempt (Z.of_nat left)) lastError) remote n
  = (Throws (max_retries_error config (last_error url config remote lastError n left)), (n + left)%nat,
     retry_trace url config attempt left).
Proof.
  induction left as [|left IH]; intros attempt lastError n Hlast Hfail.
  - rewrite Nat.add_0_r. reflexivity.
  - rewrite seqZ_head, run_loop_cons.
    pose proof (Hfail 0%nat ltac:(lia)) as H0. rewrite Nat.add_0_r in H0.
    destruct (fails_otherwise_completion config _ H0) as [-> ->].
    rewrite IH; [|lia|].
    + replace (S n + left)%nat with (n + S left)%nat by lia.
      f_equal; [f_equal; f_equal|].
      * destruct left as [|left]; simpl; [by rewrite Nat.add_0_r|].
        replace (S (n + left)) with (n + S left)%nat by lia. reflexivity.
      * cbn [retry_trace]. f_equal. destruct left as [|left].
        -- replace (attempt <? retryAttempts config) with false by lia. reflexivity.
        -- replace (attempt <? retryAttempts config) with true by lia. reflexivity.
    + intros j Hj. replace (S n + j)%nat with (n + S j)%nat by lia. apply Hfail. lia.
Qed.

End Retry.

Lemma fetch_count_retry_trace url config (made : nat) : ∀ attempt,
  fetch_count (retry_trace url config attempt made) = made.
Proof.
  induction made as [|made IH]; intros attempt; [done|].
  cbn. f_equal. destruct made; [done|]. cbn [fetch_count]. apply IH.
Qed.

Example retry_trace_of_three_attempts url config :
  retry_trace url config 1 3 =
  [Fetch url (timeout config); Sleep (retryDelay config * 1);
   Fetch url (timeout config); Sleep (retryDelay config * 2);
   Fetch url (timeout config)].
Proof. reflexivity. Qed.

Lemma fetchWithRetry_unfold url config :
  0 < retryAttempts config →
  fetchWithRetry url config =
  fetchWithRetry_loop url config
    (seqZ 1 (Z.of_nat (Z.to_nat (retryAttempts config)))) None.
Proof. intros _. unfold fetchWithRetry. by rewrite <- seqZ_to_nat. Qed.

Lemma fetchWithRetry_no_attempt url config remote n :
  retryAttempts config ≤ 0 →
  run (fetchWithRetry url config) remote n =
  (Throws (max_retries_error config None), n, []).
Proof. intros H. unfold fetchWithRetry. rewrite seqZ_nil by lia. reflexivity. Qed.

Lemma fetchWithRetry_shape url config remote n :
  ∃ c made,
    (made ≤ Z.to_nat (retryAttempts config))%nat ∧
    run (fetchWithRetry url config) remote n
    = (c, (n + made)%nat, retry_trace url config 1 made).
Proof.
  destruct (decide (0 < retryAttempts config)) as [Hpos|Hneg].
  - rewrite fetchWithRetry_unfold by done.
    destruct (loop_shape url config remote (Z.to_nat (retryAttempts config)) 1 None n)
      as (c & made & Hle & _ & Hrun); [lia|].
    exists c, made. split; [exact Hle|exact Hrun].
  - exists (Throws (max_retries_error config None)), 0%nat.
    rewrite Nat.add_0_r. split; [lia|]. apply fetchWithRetry_no_attempt. lia.
Qed.

Lemma fetchWithRetry_decided url config remote n k :
  Z.of_nat k < retryAttempts config →
  (∀ j, (j < k)%nat → fails_otherwise (remote (n + j)%nat url) = true) →
  fails_otherwise (remote (n + k)%nat url) = false →
  run (fetchWithRetry url config) remote n
  = (attempt_completion config (remote (n + k)%nat url), (n + S k)%nat,
     retry_trace url config 1 (S k)).
Proof.
  intros Hk Hfail Hend. rewrite fetchWithRetry_unfold by lia.
  apply loop_decided; [lia|lia|exact Hfail|exact Hend].
Qed.

Lemma fetchWithRetry_exhausted url config remote n :
  1 ≤ retryAttempts config →
  (∀ j, (j < Z.to_nat (retryAttempts config))%nat →
        fails_otherwise (remote (n + j)%nat url) = true) →
  run (fetchWithRetry url config) remote n
  = (Throws (max_retries_error config
               (Some (attempt_error config
                        (remote (n + (Z.to_nat (retryAttempts config) - 1))%nat url)))),
     (n + Z.to_nat (retryAttempts config))%nat,
     retry_trace url config 1 (Z.to_nat (retryAttempts config))).
Proof.
  intros Hpos Hfail. rewrite fetchWithRetry_unfold by lia.
  rewrite loop_exhausted; [|lia|exact Hfail].
  destruct (Z.to_nat (retryAttempts config)) as [|before] eqn:E; [lia|].
  simpl. by rewrite Nat.sub_0_r.
Qed.

(** C5. In [fetchWithRetry], let the first [k] attempts fail in a way
    other than a 4xx status (another status that is not ok, a network
    error, a timeout) and let attempt [k + 1] be within [retryAttempts].
    If that attempt fails with a status in 400..499, the call throws its
    [HTTP_ERROR] at once: the trace ends with the fetch of that attempt, no
    pause and no further attempt follow (for [k = 0] exactly one fetch is
    made). If that attempt succeeds, the call returns its response: the
    earlier failures were retried. *)
Theorem fetchWithRetry_4xx_final_other_failures_retried
    (url : string) (config : RxNormConfig) (remote : Remote) (n k : nat) :
  Z.of_nat k < retryAttempts config →
  (∀ j, (j < k)%nat → fails_otherwise (remote (n + j)%nat url) = true) →
  (fails_4xx (remote (n + k)%nat url) = true →
   ∃ response,
     remote (n + k)%nat url = Resolved response ∧
     run (fetchWithRetry url config) remote n
     = (Throws (RxNormAPIError
                  ("HTTP " +:+ Js.String_of_number (Wire.status response) +:+ ": "
                   +:+ Wire.statusText response)
                  (Some "HTTP_ERROR") (Some (Wire.status response)) None),
        (n + S k)%nat, retry_trace url config 1 (S k)))
  ∧ (succeeds (remote (n + k)%nat url) = true →
     ∃ response,
       remote (n + k)%nat url = Resolved response ∧
       run (fetchWithRetry url config) remote n
       = (Returns response, (n + S k)%nat, retry_trace url config 1 (S k))).
Proof.
  intros Hk Hfail. split; intros Hend.
  - rewrite (fetchWithRetry_decided url config remote n k Hk Hfail).
    + destruct (fails_4xx_completion config _ Hend) as [-> _].
      destruct (remote (n + k)%nat url) as [response|en em]; [|discriminate].
      exists response. split; reflexivity.
    + unfold fails_otherwise. rewrite Hend. apply andb_false_r.
  - rewrite (fetchWithRetry_decided url config remote n k Hk Hfail).
    + destruct (succeeds_completion config _ Hend) as (response & Heq & _ & ->).
      exists response. split; [exact Heq|reflexivity].
    + unfold fails_otherwise. rewrite Hend. reflexivity.
Qed.

(** ** The two lookups *)

Lemma trim_empty : Js.trim "" = "".
Proof. reflexivity. Qed.

Lemma blank_test_false (s : string) :
  Js.trim s ≠ "" → String.eqb s "" || String.eqb (Js.trim s) "" = false.
Proof.
  intros Hs. apply orb_false_iff. split; apply String.eqb_neq; [|exact Hs].
  intros ->. apply Hs, trim_empty.
Qed.

Lemma blank_test_true (s : string) :
  Js.trim s = "" → String.eqb s "" || String.eqb (Js.trim s) "" = true.
Proof.
  intros Hs. apply orb_true_iff. right. by apply String.eqb_eq.
Qed.

Lemma searchDrug_blank drugName config remote n :
  Js.trim drugName = "" →
  run (searchDrug drugName config) remote n
  = (Throws (RxNormAPIError "Drug name cannot be empty" (Some "INVALID_INPUT") None None),
     n, []).
Proof. intros H. unfold searchDrug. rewrite (blank_test_true _ H). reflexivity. Qed.

Lemma getGenericName_blank rxcui config remote n :
  Js.trim rxcui = "" →
  run (getGenericName rxcui config) remote n
  = (Throws (RxNormAPIError "RxCUI cannot be empty" (Some "INVALID_INPUT") None None),
     n, []).
Proof. intros H. unfold getGenericName. rewrite (blank_test_true _ H). reflexivity. Qed.

(** What [searchDrug] makes of the completion of its [fetchWithRetry]. *)
Lemma run_searchDrug drugName config remote n :
  Js.trim drugName ≠ "" →
  run (searchDrug drugName config) remote n =
  match run (fetchWithRetry (search_url config drugName) config) remote n with
  | (Returns response, n1, t1) =>
      (match Wire.body response with
       | Wire.Json data => Returns (top_candidate data)
       | Wire.NotJson error_name error_message =>
           Throws (RxNormAPIError
                     ("Unexpected error searching for drug: "
                      +:+ toString (OtherError error_name error_message))
                     (Some "UNKNOWN_ERROR") None (Some drugName))
       end, n1, t1)
  | (Throws error, n1, t1) =>
      (Throws
         match error with
         | RxNormAPIError message code statusCode _ =>
             RxNormAPIError message code statusCode (Some drugName)
         | OtherError _ _ =>
             RxNormAPIError ("Unexpected error searching for drug: " +:+ toString error)
                            (Some "UNKNOWN_ERROR") None (Some drugName)
         end, n1, t1)
  end.
Proof.
  intros Hname. unfold searchDrug. rewrite (blank_test_false _ Hname).
  cbv zeta. fold (search_url config drugName).
  rewrite run_try_catch, run_bind.
  destruct (run (fetchWithRetry (search_url config drugName) config) remote n)
    as [[[response|error] n1] t1].
  - rewrite run_bind. unfold json, top_candidate.
    destruct (Wire.body response) as [data|en em].
    + rewrite run_ret.
      destruct (Wire.approximateGroup data) as [[[[|top rest]|]]|];
        cbn; by rewrite ?app_nil_r.
    + rewrite run_throw. cbn. by rewrite ?app_nil_r.
  - destruct error; cbn; by rewrite ?app_nil_r.
Qed.

Lemma run_getGenericName rxcui config remote n :
  Js.trim rxcui ≠ "" →
  run (getGenericName rxcui config) remote n =
  match run (fetchWithRetry (related_url config rxcui) config) remote n with
  | (Returns response, n1, t1) =>
      (match Wire.body response with
       | Wire.Json data => Returns (first_ingredient data)
       | Wire.NotJson error_name error_message =>
           Throws (RxNormAPIError
                     ("Unexpected error getting generic name: "
                      +:+ toString (OtherError error_name error_message))
                     (Some "UNKNOWN_ERROR") None None)
       end, n1, t1)
  | (Throws error, n1, t1) =>
      (Throws
         match error with
         | RxNormAPIError _ _ _ _ => error
         | OtherError _ _ =>
             RxNormAPIError ("Unexpected error getting generic name: " +:+ toString error)
                            (Some "UNKNOWN_ERROR") None None
         end, n1, t1)
  end.
Proof.
  intros Hname. unfold getGenericName. rewrite (blank_test_false _ Hname).
  cbv zeta. fold (related_url config rxcui).
  rewrite run_try_catch, run_bind.
  destruct (run (fetchWithRetry (related_url config rxcui) config) remote n)
    as [[[response|error] n1] t1].
  - rewrite run_bind. unfold json, first_ingredient.
    destruct (Wire.body response) as [data|en em].
    + rewrite run_ret.
      destruct (Wire.relatedGroup data) as [[[groups|]]|];
        [|cbn; by rewrite ?app_nil_r..].
      destruct groups as [|g groups]; [cbn; by rewrite ?app_nil_r|].
      cbn [Wire.conceptGroup].
      destruct (List.find _ (g :: groups)) as [[ttyg [[|first rest]|]]|];
        cbn; by rewrite ?app_nil_r.
    + rewrite run_throw. cbn. by rewrite ?app_nil_r.
  - destruct error; cbn; by rewrite ?app_nil_r.
Qed.

(** Both lookups throw nothing but an [RxNormAPIError]. *)
Lemma searchDrug_throws_api drugName config remote n error n1 t1 :
  run (searchDrug drugName config) remote n = (Throws error, n1, t1) →
  ∃ message code statusCode name, error = RxNormAPIError message code statusCode name.
Proof.
  destruct (decide (Js.trim drugName = "")) as [Hblank|Hname].
  - rewrite searchDrug_blank by done. intros [= <- _ _]. eauto.
  - rewrite run_searchDrug by done.
    destruct (run (fetchWithRetry _ config) remote n) as [[[response|e] n2] t2].
    + destruct (Wire.body response); intros [= <- _ _]; eauto.
    + destruct e; intros [= <- _ _]; eauto.
Qed.

Lemma getGenericName_throws_api rxcui config remote n error n1 t1 :
  run (getGenericName rxcui config) remote n = (Throws error, n1, t1) →
  ∃ message code statusCode name, error = RxNormAPIError message code statusCode name.
Proof.
  destruct (decide (Js.trim rxcui = "")) as [Hblank|Hname].
  - rewrite getGenericName_blank by done. intros [= <- _ _]. eauto.
  - rewrite run_getGenericName by done.
    destruct (run (fetchWithRetry _ config) remote n) as [[[response|e] n2] t2].
    + destruct (Wire.body response); intros [= <- _ _]; eauto.
    + destruct e; intros [= <- _ _]; eauto.
Qed.

(** ** [normalizeDrugName], case by case *)

Section Normalize.
Variables (drugName : string) (config : RxNormConfig) (remote : Remote) (n : nat).

Lemma normalize_search_throws error n1 t1 :
  run (searchDrug drugName config) remote n = (Throws error, n1, t1) →
  run (normalizeDrugName drugName config) remote n
  = (Returns {| originalName := drugName; genericName := None; rxcui := None;
                status := ERROR; errorMessage := Some (message_of error) |},
     n1, t1).
Proof.
  intros Hsearch.
  destruct (searchDrug_throws_api _ _ _ _ _ _ _ Hsearch) as (m & c & s & d & ->).
  unfold normalizeDrugName. rewrite run_try_catch, run_bind, Hsearch.
  cbn. by rewrite app_nil_r.
Qed.

Lemma normalize_search_falsy found n1 t1 :
  run (searchDrug drugName config) remote n = (Returns found, n1, t1) →
  falsy found = true →
  run (normalizeDrugName drugName config) remote n
  = (Returns {| originalName := drugName; genericName := None; rxcui := None;
                status := NOT_FOUND;
                errorMessage := Some "Drug not found in RxNorm database" |},
     n1, t1).
Proof.
  intros Hsearch Hfalsy.
  unfold normalizeDrugName. rewrite run_try_catch, run_bind, Hsearch.
  destruct found as [[|c id]|]; [| discriminate |]; cbn; by rewrite app_nil_r.
Qed.

Lemma normalize_generic_throws id n1 t1 error n2 t2 :
  run (searchDrug drugName config) remote n = (Returns (Some id), n1, t1) →
  id ≠ "" →
  run (getGenericName id config) remote n1 = (Throws error, n2, t2) →
  run (normalizeDrugName drugName config) remote n
  = (Returns {| originalName := drugName; genericName := None; rxcui := None;
                status := ERROR; errorMessage := Some (message_of error) |},
     n2, t1 ++ t2).
Proof.
  intros Hsearch Hid Hgeneric.
  destruct (getGenericName_throws_api _ _ _ _ _ _ _ Hgeneric) as (m & c & s & d & ->).
  unfold normalizeDrugName. rewrite run_try_catch, run_bind, Hsearch.
  destruct id as [|c0 id]; [done|].
  rewrite run_bind, Hgeneric. cbn. by rewrite app_nil_r.
Qed.

Lemma normalize_generic_falsy id n1 t1 ingredient n2 t2 :
  run (searchDrug drugName config) remote n = (Returns (Some id), n1, t1) →
  id ≠ "" →
  run (getGenericName id config) remote n1 = (Returns ingredient, n2, t2) →
  falsy ingredient = true →
  run (normalizeDrugName drugName config) remote n
  = (Returns {| originalName := drugName; genericName := None; rxcui := Some id;
                status := NOT_FOUND;
                errorMessage := Some "Generic name not found for this drug" |},
     n2, t1 ++ t2).
Proof.
  intros Hsearch Hid Hgeneric Hfalsy.
  unfold normalizeDrugName. rewrite run_try_catch, run_bind, Hsearch.
  destruct id as [|c0 id]; [done|].
  rewrite run_bind, Hgeneric.
  destruct ingredient as [[|c g]|]; [| discriminate |]; cbn; by rewrite app_nil_r.
Qed.

Lemma normalize_success id n1 t1 generic n2 t2 :
  run (searchDrug drugName config) remote n = (Returns (Some id), n1, t1) →
  id ≠ "" →
  run (getGenericName id config) remote n1 = (Returns (Some generic), n2, t2) →
  generic ≠ "" →
  run (normalizeDrugName drugName config) remote n
  = (Returns {| originalName := drugName; genericName := Some generic; rxcui := Some id;
                status := SUCCESS; errorMessage := None |},
     n2, t1 ++ t2).
Proof.
  intros Hsearch Hid Hgeneric Hg.
  unfold normalizeDrugName. rewrite run_try_catch, run_bind, Hsearch.
  destruct id as [|c0 id]; [done|].
  rewrite run_bind, Hgeneric.
  destruct generic as [|c g]; [done|]. cbn. by rewrite app_nil_r.
Qed.

Lemma falsy_cases (value : option string) :
  falsy value = true ∨ ∃ s, value = Some s ∧ s ≠ "".
Proof.
  destruct value as [s|]; [|by left]. simpl.
  destruct (String.eqb_spec s ""); [by left|right; eauto].
Qed.

(** [normalizeDrugName] always returns, in one of the five ways. *)
Lemma normalize_total :
  ∃ result n' t,
    run (normalizeDrugName drugName config) remote n = (Returns result, n', t)
    ∧ NormalizeCase drugName config remote n result n' t.
Proof.
  destruct (run (searchDrug drugName config) remote n) as [[[found|error] n1] t1] eqn:Hsearch.
  - destruct (falsy_cases found) as [Hfalsy|(id & -> & Hid)].
    { eexists _, _, _. split; [by apply normalize_search_falsy with found|].
      by eapply search_found_nothing. }
    destruct (run (getGenericName id config) remote n1)
      as [[[ingredient|error] n2] t2] eqn:Hgeneric.
    + destruct (falsy_cases ingredient) as [Hfalsy|(generic & -> & Hg)].
      { eexists _, _, _. split; [by eapply normalize_generic_falsy|].
        by eapply generic_found_nothing. }
      eexists _, _, _. split; [by eapply normalize_success|].
      by eapply both_found.
    + eexists _, _, _. split; [by eapply normalize_generic_throws|].
      by eapply generic_threw.
  - eexists _, _, _. split; [by apply normalize_search_throws|].
    by eapply search_threw.
Qed.

Lemma normalize_inv result n' t :
  run (normalizeDrugName drugName config) remote n = (Returns result, n', t) →
  NormalizeCase drugName config remote n result n' t.
Proof.
  destruct normalize_total as (r & n1 & t1 & -> & Hcase).
  by intros [= <- <- <-].
Qed.

End Normalize.

(** ** What [normalizeDrugName] guarantees *)

(** C2, as the code has it. [normalizeDrugName] runs [searchDrug] and then
    [getGenericName] on the identifier found. If [searchDrug] returns null
    or an empty identifier, the result is [NOT_FOUND] with the message
    "Drug not found in RxNorm database". If an identifier is found and
    [getGenericName] returns null or an empty name, the result is
    [NOT_FOUND] with the message "Generic name not found for this drug". If
    both return a non-empty string, the result is [SUCCESS] and carries both
    of them. The events are those of the first lookup followed by those of
    the second. *)
Theorem normalizeDrugName_composes_the_lookups
    (drugName : string) (config : RxNormConfig) (remote : Remote) (n : nat) :
  (∀ found n1 t1,
     run (searchDrug drugName config) remote n = (Returns found, n1, t1) →
     falsy found = true →
     run (normalizeDrugName drugName config) remote n
     = (Returns {| originalName := drugName; genericName := None; rxcui := None;
                   status := NOT_FOUND;
                   errorMessage := Some "Drug not found in RxNorm database" |},
        n1, t1))
  ∧ (∀ id n1 t1 ingredient n2 t2,
       run (searchDrug drugName config) remote n = (Returns (Some id), n1, t1) →
       id ≠ "" →
       run (getGenericName id config) remote n1 = (Returns ingredient, n2, t2) →
       falsy ingredient = true →
       run (normalizeDrugName drugName config) remote n
       = (Returns {| originalName := drugName; genericName := None; rxcui := Some id;
                     status := NOT_FOUND;
                     errorMessage := Some "Generic name not found for this drug" |},
          n2, t1 ++ t2))
  ∧ (∀ id n1 t1 generic n2 t2,
       run (searchDrug drugName config) remote n = (Returns (Some id), n1, t1) →
       id ≠ "" →
       run (getGenericName id config) remote n1 = (Returns (Some generic), n2, t2) →
       generic ≠ "" →
       run (normalizeDrugName drugName config) remote n
       = (Returns {| originalName := drugName; genericName := Some generic;
                     rxcui := Some id; status := SUCCESS; errorMessage := None |},
          n2, t1 ++ t2)).
Proof.
  split_and!; intros.
  - by eapply normalize_search_falsy.
  - by eapply normalize_generic_falsy.
  - by eapply normalize_success.
Qed.

(** C3. In every result [normalizeDrugName] returns, the status is
    [SUCCESS] exactly when both [genericName] and [rxcui] are strings (not
    null), and a status [NOT_FOUND] or [ERROR] comes with a null
    [genericName]. *)
Theorem normalizeDrugName_status_invariant
    (drugName : string) (config : RxNormConfig) (remote : Remote) (n : nat)
    (result : NormalizationResult) (n' : nat) (t : list Event) :
  run (normalizeDrugName drugName config) remote n = (Returns result, n', t) →
  (status result = SUCCESS ↔ is_Some (genericName result) ∧ is_Some (rxcui result))
  ∧ (status result = NOT_FOUND ∨ status result = ERROR → genericName result = None).
Proof.
  intros Hrun. apply normalize_inv in Hrun.
  destruct Hrun; subst result; cbn; (split; [split|]);
    try done; try (intros [[? [=]] _]); try (intros [[=]|[=]]); eauto.
Qed.

(** C7. [searchDrug] on a name that is empty after trimming, and
    [getGenericName] on an identifier that is empty (or empty after
    trimming), throw an [INVALID_INPUT] error at once: no fetch is made and
    no pause is taken. *)
Theorem lookups_reject_empty_input_at_once
    (drugName rxcui : string) (config : RxNormConfig) (remote : Remote) (n : nat) :
  (Js.trim drugName = "" →
   run (searchDrug drugName config) remote n
   = (Throws (RxNormAPIError "Drug name cannot be empty" (Some "INVALID_INPUT") None None),
      n, []))
  ∧ (Js.trim rxcui = "" →
     run (getGenericName rxcui config) remote n
     = (Throws (RxNormAPIError "RxCUI cannot be empty" (Some "INVALID_INPUT") None None),
        n, [])).
Proof.
  split; intros H; [by apply searchDrug_blank|by apply getGenericName_blank].
Qed.

(** C10. The two [NOT_FOUND] results differ in their [rxcui]: it is null
    when [searchDrug] found no identifier, and it is the identifier found,
    a non-empty string, when [getGenericName] found no name for it. Every
    [NOT_FOUND] result is of one of these two kinds. *)
Theorem NOT_FOUND_keeps_rxcui_only_after_search_succeeded
    (drugName : string) (config : RxNormConfig) (remote : Remote) (n : nat) :
  (∀ found n1 t1,
     run (searchDrug drugName config) remote n = (Returns found, n1, t1) →
     falsy found = true →
     ∃ result,
       run (normalizeDrugName drugName config) remote n = (Returns result, n1, t1)
       ∧ status result = NOT_FOUND ∧ rxcui result = None)
  ∧ (∀ id n1 t1 ingredient n2 t2,
       run (searchDrug drugName config) remote n = (Returns (Some id), n1, t1) →
       id ≠ "" →
       run (getGenericName id config) remote n1 = (Returns ingredient, n2, t2) →
       falsy ingredient = true →
       ∃ result,
         run (normalizeDrugName drugName config) remote n = (Returns result, n2, t1 ++ t2)
         ∧ status result = NOT_FOUND ∧ rxcui result = Some id)
  ∧ (∀ result n' t,
       run (normalizeDrugName drugName config) remote n = (Returns result, n', t) →
       status result = NOT_FOUND →
       (rxcui result = None
        ∧ ∃ found, run (searchDrug drugName config) remote n = (Returns found, n', t)
                   ∧ falsy found = true)
       ∨ (∃ id n1 t1 ingredient t2,
            rxcui result = Some id ∧ id ≠ "" ∧ t = t1 ++ t2
            ∧ run (searchDrug drugName config) remote n = (Returns (Some id), n1, t1)
            ∧ run (getGenericName id config) remote n1 = (Returns ingredient, n', t2)
            ∧ falsy ingredient = true)).
Proof.
  split_and!.
  - intros found n1 t1 Hsearch Hfalsy. eexists. split; [by eapply normalize_search_falsy|done].
  - intros id n1 t1 ingredient n2 t2 Hsearch Hid Hgeneric Hfalsy.
    eexists. split; [by eapply normalize_generic_falsy|done].
  - intros result n' t Hrun Hstatus. apply normalize_inv in Hrun.
    destruct Hrun; subst result; cbn in Hstatus; try discriminate.
    + left. split; [done|]. eauto.
    + right. eexists _, _, _, _, _. split_and!; eauto.
Qed.

(** ** The batch *)

Lemma progress_calls_app (t1 t2 : list Event) :
  progress_calls (t1 ++ t2) = progress_calls t1 ++ progress_calls t2.
Proof.
  induction t1 as [|[| |] t1 IH]; cbn; [done|done|done|]. by rewrite IH.
Qed.

Lemma retry_trace_quiet url config (made : nat) : ∀ attempt,
  progress_calls (retry_trace url config attempt made) = [].
Proof.
  induction made as [|made IH]; intros attempt; [done|].
  cbn. destruct made; [done|]. cbn [progress_calls]. apply IH.
Qed.

Lemma fetchWithRetry_quiet url config remote n c n1 t1 :
  run (fetchWithRetry url config) remote n = (c, n1, t1) → progress_calls t1 = [].
Proof.
  destruct (fetchWithRetry_shape url config remote n) as (c' & made & _ & ->).
  intros [= _ _ <-]. apply retry_trace_quiet.
Qed.

Lemma searchDrug_quiet drugName config remote n c n1 t1 :
  run (searchDrug drugName config) remote n = (c, n1, t1) → progress_calls t1 = [].
Proof.
  destruct (decide (Js.trim drugName = "")) as [Hblank|Hname].
  - rewrite searchDrug_blank by done. by intros [= _ _ <-].
  - rewrite run_searchDrug by done.
    destruct (run (fetchWithRetry _ config) remote n) as [[[response|e] n2] t2] eqn:Hrun;
      intros [= _ _ <-]; by eapply fetchWithRetry_quiet.
Qed.

Lemma getGenericName_quiet rxcui config remote n c n1 t1 :
  run (getGenericName rxcui config) remote n = (c, n1, t1) → progress_calls t1 = [].
Proof.
  destruct (decide (Js.trim rxcui = "")) as [Hblank|Hname].
  - rewrite getGenericName_blank by done. by intros [= _ _ <-].
  - rewrite run_getGenericName by done.
    destruct (run (fetchWithRetry _ config) remote n) as [[[response|e] n2] t2] eqn:Hrun;
      intros [= _ _ <-]; by eapply fetchWithRetry_quiet.
Qed.

Lemma normalize_case_quiet drugName config remote n result n' t :
  NormalizeCase drugName config remote n result n' t → progress_calls t = [].
Proof.
  intros [ | | | | ]; subst; rewrite ?progress_calls_app;
    repeat match goal with
    | H : run (searchDrug _ _) _ _ = _ |- _ => apply searchDrug_quiet in H; rewrite H
    | H : run (getGenericName _ _) _ _ = _ |- _ => apply getGenericName_quiet in H; rewrite H
    end; done.
Qed.

Lemma normalize_case_originalName drugName config remote n result n' t :
  NormalizeCase drugName config remote n result n' t → originalName result = drugName.
Proof. intros [ | | | | ]; by subst. Qed.

Lemma run_when_progress (onProgress : bool) completed total current remote n :
  run (when onProgress (call_onProgress completed total current)) remote n
  = (Returns tt, n, if onProgress then [Progress completed total current] else []).
Proof. by destruct onProgress. Qed.

Lemma run_when_sleep (cond : bool) ms remote n :
  run (when cond (sleep ms)) remote n = (Returns tt, n, if cond then [Sleep ms] else []).
Proof. by destruct cond. Qed.

Section Batch.
Variables (onProgress : bool) (config : RxNormConfig) (remote : Remote) (total : Z).

(** The loop from index [i] on: it returns, appends one result per name,
    in order and under that name, and its events are those of the loop
    bodies in a row. *)
Lemma batch_loop_run (remaining : list string) : ∀ i results n,
  ∃ added n',
    run (normalizeDrugNameBatch_loop onProgress config total i remaining results) remote n
    = (Returns (results ++ added), n',
       concat (imap (λ j, item_events onProgress total (i + Z.of_nat j))
                    (item_runs config remote remaining n)))
    ∧ originalName <$> added = remaining.
Proof.
  induction remaining as [|drugName later IH]; intros i results n.
  - exists [], n. by rewrite app_nil_r.
  - destruct (normalize_total drugName config remote n) as (result & n1 & t1 & Hrun & Hcase).
    destruct (IH (i + 1) (results ++ [result]) n1) as (added & n' & Hloop & Hnames).
    exists (result :: added), n'. split.
    + cbn [normalizeDrugNameBatch_loop item_runs].
      rewrite run_bind, run_when_progress. cbv beta iota.
      rewrite run_bind, Hrun. cbv beta iota zeta.
      rewrite run_bind, run_when_sleep. cbv beta iota.
      rewrite Hloop, imap_cons. cbn [concat]. unfold item_events at 2. cbn [fst snd].
      rewrite Z.add_0_r, <- !app_assoc. cbn [app]. do 2 f_equal.
      do 3 f_equal. apply imap_ext. intros j item _. cbn. f_equal. lia.
    + cbn. f_equal; [by eapply normalize_case_originalName|exact Hnames].
Qed.

Lemma progress_calls_items (drugNames : list string) : ∀ i n,
  progress_calls
    (concat (imap (λ j, item_events onProgress total (i + Z.of_nat j))
                  (item_runs config remote drugNames n)))
  = if onProgress
    then imap (λ j drugName, (i + Z.of_nat j, total, drugName)) drugNames
    else [].
Proof.
  induction drugNames as [|drugName later IH]; intros i n.
  - by destruct onProgress.
  - cbn [item_runs].
    destruct (normalize_total drugName config remote n) as (result & n1 & t1 & -> & Hcase).
    rewrite !imap_cons. cbn [concat]. rewrite progress_calls_app.
    unfold item_events at 1. cbn [fst snd]. rewrite !progress_calls_app.
    rewrite (normalize_case_quiet _ _ _ _ _ _ _ Hcase).
    rewrite (imap_ext _ (λ j, item_events onProgress total ((i + 1) + Z.of_nat j)));
      [|intros j item _; cbn; f_equal; lia].
    rewrite IH. rewrite Z.add_0_r.
    destruct onProgress, (i <? total - 1); cbn; try done.
    all: f_equal; apply imap_ext; intros j item _; cbn; do 2 f_equal; lia.
Qed.

End Batch.

Lemma batch_run drugNames (onProgress : bool) config remote n :
  ∃ results n',
    run (normalizeDrugNameBatch drugNames onProgress config) remote n
    = (Returns results, n',
       concat (imap (λ i, item_events onProgress (Z.of_nat (length drugNames)) (Z.of_nat i))
                    (item_runs config remote drugNames n))
       ++ (if onProgress
           then [Progress (Z.of_nat (length drugNames)) (Z.of_nat (length drugNames)) ""]
           else []))
    ∧ originalName <$> results = drugNames.
Proof.
  destruct (batch_loop_run onProgress config remote (Z.of_nat (length drugNames))
              drugNames 0 [] n) as (added & n' & Hloop & Hnames).
  exists added, n'. split; [|exact Hnames].
  unfold normalizeDrugNameBatch. cbv zeta.
  rewrite run_bind, Hloop. cbv beta iota.
  rewrite run_bind, run_when_progress. cbv beta iota.
  rewrite run_ret. cbn [app]. by rewrite app_nil_r.
Qed.

Lemma completed_of_calls (total : Z) (drugNames : list string) : ∀ first,
  (λ call : Z * Z * string, call.1.1)
    <$> imap (λ j drugName, (first + Z.of_nat j, total, drugName)) drugNames
  = seqZ first (Z.of_nat (length drugNames)).
Proof.
  induction drugNames as [|drugName later IH]; intros first; [done|].
  rewrite imap_cons. cbn [length]. rewrite seqZ_head. cbn. rewrite Z.add_0_r. f_equal.
  rewrite <- IH. f_equal. apply imap_ext. intros j d _. cbn. do 2 f_equal. lia.
Qed.

Lemma item_runs_names config remote (drugNames : list string) : ∀ n,
  fst <$> item_runs config remote drugNames n = drugNames.
Proof.
  induction drugNames as [|drugName later IH]; intros n; [done|].
  cbn [item_runs]. destruct (run (normalizeDrugName drugName config) remote n) as [[c n1] t1].
  cbn. by rewrite IH.
Qed.

Lemma item_runs_lookup config remote (drugNames : list string) : ∀ n i item,
  item_runs config remote drugNames n !! i = Some item →
  drugNames !! i = Some item.1
  ∧ ∃ start result after,
      run (normalizeDrugName item.1 config) remote start = (Returns result, after, item.2).
Proof.
  induction drugNames as [|drugName later IH]; intros n i item; [done|].
  cbn [item_runs].
  destruct (normalize_total drugName config remote n) as (result & n1 & t1 & Hrun & _).
  rewrite Hrun. destruct i as [|i]; cbn.
  - intros [= <-]. split; [done|]. by exists n, result, n1.
  - apply IH.
Qed.

(** C1. For every list of names (with or without duplicates, empty or
    not), [normalizeDrugNameBatch] returns one result per name, in the order
    of the names, each under the name it was computed for. With a progress
    callback the calls made are [(0, N, names[0])], ...,
    [(N-1, N, names[N-1])] and then [(N, N, "")]: N + 1 calls whose
    [completed] values are 0, 1, ..., N. Without one, no call is made. *)
Theorem normalizeDrugNameBatch_results_and_progress
    (drugNames : list string) (onProgress : bool) (config : RxNormConfig)
    (remote : Remote) (n : nat) :
  ∃ results n' t,
    run (normalizeDrugNameBatch drugNames onProgress config) remote n
    = (Returns results, n', t)
    ∧ length results = length drugNames
    ∧ originalName <$> results = drugNames
    ∧ (if onProgress
       then progress_calls t
            = imap (λ i drugName, (Z.of_nat i, Z.of_nat (length drugNames), drugName))
                   drugNames
              ++ [(Z.of_nat (length drugNames), Z.of_nat (length drugNames), "")]
            ∧ length (progress_calls t) = S (length drugNames)
            ∧ (λ call : Z * Z * string, call.1.1) <$> progress_calls t
              = seqZ 0 (Z.of_nat (length drugNames) + 1)
       else progress_calls t = []).
Proof.
  destruct (batch_run drugNames onProgress config remote n) as (results & n' & Hrun & Hnames).
  eexists results, n', _. split; [exact Hrun|].
  split; [by rewrite <- Hnames, length_fmap|].
  split; [exact Hnames|].
  rewrite progress_calls_app.
  rewrite (progress_calls_items onProgress config remote _ drugNames 0 n).
  destruct onProgress; [|done].
  assert (progress_calls
            [Progress (Z.of_nat (length drugNames)) (Z.of_nat (length drugNames)) ""]
          = [(Z.of_nat (length drugNames), Z.of_nat (length drugNames), "")]) as -> by done.
  split; [|split].
  - f_equal.
  - rewrite length_app, length_imap. cbn. lia.
  - rewrite fmap_app, completed_of_calls, seqZ_app by lia. done.
Qed.

(** C8. The events of [normalizeDrugNameBatch] are, for each index [i] in
    turn, the progress call (when a callback was supplied), the events of
    [normalizeDrugName] on [drugNames[i]], and then one [Sleep 100] when
    [i < N - 1] and nothing when [i = N - 1]; the final progress call
    closes the trace. So exactly one pause of 100 ms separates the work on
    two consecutive names, and none follows the last name. *)
Theorem normalizeDrugNameBatch_pauses_between_items
    (drugNames : list string) (onProgress : bool) (config : RxNormConfig)
    (remote : Remote) (n : nat) :
  ∃ (items : list (string * list Event)) results n',
    fst <$> items = drugNames
    ∧ (∀ i item, items !! i = Some item →
         ∃ start result after,
           run (normalizeDrugName item.1 config) remote start
           = (Returns result, after, item.2))
    ∧ run (normalizeDrugNameBatch drugNames onProgress config) remote n
      = (Returns results, n',
         concat
           (imap (λ i item,
                    (if onProgress
                     then [Progress (Z.of_nat i) (Z.of_nat (length drugNames)) item.1]
                     else [])
                    ++ item.2
                    ++ (if Z.of_nat i <? Z.of_nat (length drugNames) - 1
                        then [Sleep 100] else []))
                 items)
         ++ (if onProgress
             then [Progress (Z.of_nat (length drugNames)) (Z.of_nat (length drugNames)) ""]
             else [])).
Proof.
  destruct (batch_run drugNames onProgress config remote n) as (results & n' & Hrun & _).
  exists (item_runs config remote drugNames n), results, n'. split_and!.
  - apply item_runs_names.
  - intros i item Hitem. by apply item_runs_lookup in Hitem as [_ ?].
  - exact Hrun.
Qed.

(** C4. [normalizeDrugName] returns a result whatever the name and
    whatever the remote does. An error thrown by [searchDrug], or by
    [getGenericName] on the identifier found, whatever its code, ends up as
    a result of status [ERROR] whose [errorMessage] is the message of that
    error. [normalizeDrugNameBatch] therefore returns too: no item makes it
    throw. *)
Theorem normalizeDrugName_never_throws
    (drugName : string) (drugNames : list string) (onProgress : bool)
    (config : RxNormConfig) (remote : Remote) (n : nat) :
  (∃ result n' t,
     run (normalizeDrugName drugName config) remote n = (Returns result, n', t))
  ∧ (∀ error n1 t1,
       run (searchDrug drugName config) remote n = (Throws error, n1, t1) →
       run (normalizeDrugName drugName config) remote n
       = (Returns {| originalName := drugName; genericName := None; rxcui := None;
                     status := ERROR; errorMessage := Some (message_of error) |},
          n1, t1))
  ∧ (∀ id n1 t1 error n2 t2,
       run (searchDrug drugName config) remote n = (Returns (Some id), n1, t1) →
       id ≠ "" →
       run (getGenericName id config) remote n1 = (Throws error, n2, t2) →
       run (normalizeDrugName drugName config) remote n
       = (Returns {| originalName := drugName; genericName := None; rxcui := None;
                     status := ERROR; errorMessage := Some (message_of error) |},
          n2, t1 ++ t2))
  ∧ (∃ results n' t,
       run (normalizeDrugNameBatch drugNames onProgress config) remote n
       = (Returns results, n', t)).
Proof.
  split_and!.
  - destruct (normalize_total drugName config remote n) as (result & n' & t & Hrun & _).
    eauto.
  - intros. by apply normalize_search_throws.
  - intros. by eapply normalize_generic_throws.
  - destruct (batch_run drugNames onProgress config remote n) as (results & n' & Hrun & _).
    eauto.
Qed.

(** ** Exhausted retries *)

Lemma attempt_error_times_out config outcome :
  times_out outcome = true →
  attempt_error config outcome
  = RxNormAPIError
      ("Request timeout after " +:+ Js.String_of_number (timeout config) +:+ "ms")
      (Some "TIMEOUT") None None.
Proof.
  destruct outcome as [response|en em]; [discriminate|]. cbn. by intros ->.
Qed.

Lemma searchDrug_all_time_out drugName config remote n :
  Js.trim drugName ≠ "" →
  1 ≤ retryAttempts config →
  (∀ j url, times_out (remote j url) = true) →
  run (searchDrug drugName config) remote n
  = (Throws (RxNormAPIError
               ("Failed after " +:+ Js.String_of_number (retryAttempts config)
                +:+ " attempts: "
                +:+ ("Request timeout after " +:+ Js.String_of_number (timeout config)
                     +:+ "ms"))
               (Some "MAX_RETRIES_EXCEEDED") None (Some drugName)),
     (n + Z.to_nat (retryAttempts config))%nat,
     retry_trace (search_url config drugName) config 1 (Z.to_nat (retryAttempts config))).
Proof.
  intros Hname Hpos Hout. rewrite run_searchDrug by done.
  rewrite fetchWithRetry_exhausted;
    [|done|intros; apply times_out_fails_otherwise, Hout].
  unfold max_retries_error, lastError_message.
  by rewrite attempt_error_times_out by apply Hout.
Qed.

(** C6, as the code has it. [fetchWithRetry] makes no more fetches than
    [retryAttempts] (none when that number is not positive); after attempt
    [k], when another attempt follows, it pauses [retryDelay * k] ms, and
    nothing follows the last fetch. When [retryAttempts] is at least 1 and
    every attempt fails in a way that is retried, all the attempts are made
    and the call throws an error of code [MAX_RETRIES_EXCEEDED] whose message
    is "Failed after <retryAttempts> attempts: " followed by the message of
    the last error. When every request times out, [normalizeDrugName] on a
    name that is not blank returns status [ERROR] with that message around
    "Request timeout after <timeout>ms"; the code [MAX_RETRIES_EXCEEDED]
    itself is not part of the result. *)
Theorem fetchWithRetry_linear_backoff_then_max_retries
    (url drugName : string) (config : RxNormConfig) (remote : Remote) (n : nat) :
  (∃ c made,
     (made ≤ Z.to_nat (retryAttempts config))%nat
     ∧ fetch_count (retry_trace url config 1 made) = made
     ∧ run (fetchWithRetry url config) remote n
       = (c, (n + made)%nat, retry_trace url config 1 made))
  ∧ (1 ≤ retryAttempts config →
     (∀ j, (j < Z.to_nat (retryAttempts config))%nat →
           fails_otherwise (remote (n + j)%nat url) = true) →
     run (fetchWithRetry url config) remote n
     = (Throws (RxNormAPIError
                  ("Failed after " +:+ Js.String_of_number (retryAttempts config)
                   +:+ " attempts: "
                   +:+ message_of
                         (attempt_error config
                            (remote (n + (Z.to_nat (retryAttempts config) - 1))%nat url)))
                  (Some "MAX_RETRIES_EXCEEDED") None None),
        (n + Z.to_nat (retryAttempts config))%nat,
        retry_trace url config 1 (Z.to_nat (retryAttempts config))))
  ∧ (1 ≤ retryAttempts config →
     Js.trim drugName ≠ "" →
     (∀ j u, times_out (remote j u) = true) →
     ∃ n' t,
       run (normalizeDrugName drugName config) remote n
       = (Returns {| originalName := drugName; genericName := None; rxcui := None;
                     status := ERROR;
                     errorMessage :=
                       Some ("Failed after " +:+ Js.String_of_number (retryAttempts config)
                             +:+ " attempts: "
                             +:+ ("Request timeout after "
                                  +:+ Js.String_of_number (timeout config) +:+ "ms")) |},
          n', t)).
Proof.
  split_and!.
  - destruct (fetchWithRetry_shape url config remote n) as (c & made & Hle & Hrun).
    exists c, made. split_and!; [exact Hle|apply fetch_count_retry_trace|exact Hrun].
  - intros Hpos Hfail. by rewrite fetchWithRetry_exhausted.
  - intros Hpos Hname Hout. eexists _, _.
    erewrite normalize_search_throws; [|by apply searchDrug_all_time_out]. done.
Qed.

(** * Further properties of the lookup client *)

(** ** The fetches and pauses a lookup can cost *)

Lemma fetch_count_app (t1 t2 : list Event) :
  fetch_count (t1 ++ t2) = (fetch_count t1 + fetch_count t2)%nat.
Proof.
  induction t1 as [|[| |] t1 IH]; cbn; [done| |done|done]. by rewrite IH.
Qed.

Lemma sleep_total_app (t1 t2 : list Event) :
  sleep_total (t1 ++ t2) = sleep_total t1 + sleep_total t2.
Proof.
  induction t1 as [|[| |] t1 IH]; cbn; [done|done| |done]. rewrite IH. lia.
Qed.

Lemma fetchWithRetry_budget url config remote n c n1 t1 :
  run (fetchWithRetry url config) remote n = (c, n1, t1) →
  n1 = (n + fetch_count t1)%nat ∧ (fetch_count t1 ≤ Z.to_nat (retryAttempts config))%nat.
Proof.
  destruct (fetchWithRetry_shape url config remote n) as (c' & made & Hle & ->).
  intros [= _ <- <-]. by rewrite fetch_count_retry_trace.
Qed.

Lemma searchDrug_budget drugName config remote n c n1 t1 :
  run (searchDrug drugName config) remote n = (c, n1, t1) →
  n1 = (n + fetch_count t1)%nat ∧ (fetch_count t1 ≤ Z.to_nat (retryAttempts config))%nat.
Proof.
  destruct (decide (Js.trim drugName = "")) as [Hblank|Hname].
  - rewrite searchDrug_blank by done. intros [= _ <- <-]. cbn. lia.
  - rewrite run_searchDrug by done.
    destruct (run (fetchWithRetry _ config) remote n) as [[[response|e] n2] t2] eqn:Hrun;
      intros [= _ <- <-]; by eapply fetchWithRetry_budget.
Qed.

Lemma getGenericName_budget rxcui config remote n c n1 t1 :
  run (getGenericName rxcui config) remote n = (c, n1, t1) →
  n1 = (n + fetch_count t1)%nat ∧ (fetch_count t1 ≤ Z.to_nat (retryAttempts config))%nat.
Proof.
  destruct (decide (Js.trim rxcui = "")) as [Hblank|Hname].
  - rewrite getGenericName_blank by done. intros [= _ <- <-]. cbn. lia.
  - rewrite run_getGenericName by done.
    destruct (run (fetchWithRetry _ config) remote n) as [[[response|e] n2] t2] eqn:Hrun;
      intros [= _ <- <-]; by eapply fetchWithRetry_budget.
Qed.

Lemma normalize_case_budget drugName config remote n result n' t :
  NormalizeCase drugName config remote n result n' t →
  n' = (n + fetch_count t)%nat
  ∧ (fetch_count t ≤ 2 * Z.to_nat (retryAttempts config))%nat.
Proof.
  intros [ | | | | ]; subst; rewrite ?fetch_count_app;
    repeat match goal with
    | H : run (searchDrug _ _) _ _ = _ |- _ => apply searchDrug_budget in H as [? ?]
    | H : run (getGenericName _ _) _ _ = _ |- _ => apply getGenericName_budget in H as [? ?]
    end; lia.
Qed.

(** X1. [normalizeDrugName] makes at most twice [retryAttempts] fetches
    (none when that number is not positive), whatever the name and the
    remote; the fetch count it ends with is the one it started from plus
    the fetches of its trace. *)
Theorem normalizeDrugName_fetch_budget
    (drugName : string) (config : RxNormConfig) (remote : Remote) (n : nat) :
  ∃ result n' t,
    run (normalizeDrugName drugName config) remote n = (Returns result, n', t)
    ∧ n' = (n + fetch_count t)%nat
    ∧ (fetch_count t ≤ 2 * Z.to_nat (retryAttempts config))%nat.
Proof.
  destruct (normalize_total drugName config remote n) as (result & n' & t & Hrun & Hcase).
  exists result, n', t. split; [exact Hrun|]. by eapply normalize_case_budget.
Qed.

Lemma batch_loop_budget onProgress config remote total (remaining : list string) :
  ∀ i results n c n' t,
    run (normalizeDrugNameBatch_loop onProgress config total i remaining results) remote n
    = (c, n', t) →
    n' = (n + fetch_count t)%nat
    ∧ (fetch_count t ≤ length remaining * (2 * Z.to_nat (retryAttempts config)))%nat.
Proof.
  induction remaining as [|drugName later IH]; intros i results n c n' t.
  - intros [= _ <- <-]. cbn. lia.
  - cbn [normalizeDrugNameBatch_loop].
    destruct (normalize_total drugName config remote n) as (result & n1 & t1 & Hrun & Hcase).
    apply normalize_case_budget in Hcase as [Hn1 Ht1].
    rewrite run_bind, run_when_progress. cbv beta iota.
    rewrite run_bind, Hrun. cbv beta iota zeta.
    rewrite run_bind, run_when_sleep. cbv beta iota.
    destruct (run (normalizeDrugNameBatch_loop onProgress config total (i + 1) later
                     (results ++ [result])) remote n1) as [[c2 n2] t2] eqn:Hloop.
    apply IH in Hloop as [Hn2 Ht2].
    intros [= _ <- <-]. rewrite !fetch_count_app.
    assert (fetch_count (if onProgress then [Progress i total drugName] else []) = 0%nat)
      as -> by by destruct onProgress.
    assert (fetch_count (if i <? total - 1 then [Sleep 100] else []) = 0%nat)
      as -> by by destruct (i <? total - 1).
    cbn [length]. lia.
Qed.

(** X2. A batch of N names makes at most 2 N [retryAttempts] fetches, and
    its fetch count grows by the fetches of its trace: the progress calls
    and the pauses cost none. *)
Theorem normalizeDrugNameBatch_fetch_budget
    (drugNames : list string) (onProgress : bool) (config : RxNormConfig)
    (remote : Remote) (n : nat) :
  ∃ results n' t,
    run (normalizeDrugNameBatch drugNames onProgress config) remote n
    = (Returns results, n', t)
    ∧ n' = (n + fetch_count t)%nat
    ∧ (fetch_count t ≤ length drugNames * (2 * Z.to_nat (retryAttempts config)))%nat.
Proof.
  destruct (batch_run drugNames onProgress config remote n) as (results & n' & Hrun & _).
  eexists results, n', _. split; [exact Hrun|].
  revert Hrun. unfold normalizeDrugNameBatch. cbv zeta.
  rewrite run_bind.
  destruct (run (normalizeDrugNameBatch_loop onProgress config
                   (Z.of_nat (length drugNames)) 0 drugNames []) remote n)
    as [[[rs|e] n1] t1] eqn:Hloop; [|discriminate].
  apply batch_loop_budget in Hloop as [Hn1 Ht1].
  rewrite run_bind, run_when_progress. cbv beta iota. rewrite run_ret.
  intros [= _ <- <-]. rewrite !fetch_count_app.
  assert (fetch_count
            (if onProgress
             then [Progress (Z.of_nat (length drugNames)) (Z.of_nat (length drugNames)) ""]
             else []) = 0%nat) as -> by by destruct onProgress.
  cbn. lia.
Qed.

Lemma sleep_total_retry_trace url config (made : nat) : ∀ attempt,
  2 * sleep_total (retry_trace url config attempt (S made))
  = retryDelay config * (Z.of_nat made * (2 * attempt + Z.of_nat made - 1)).
Proof.
  induction made as [|made IH]; intros attempt.
  - cbn. lia.
  - change (retry_trace url config attempt (S (S made)))
      with (Fetch url (timeout config) :: Sleep (retryDelay config * attempt)
            :: retry_trace url config (attempt + 1) (S made)).
    cbn [sleep_total]. rewrite Z.mul_add_distr_l, IH. nia.
Qed.

(** X3. With a [retryDelay] that is not negative, the pauses of one
    [fetchWithRetry] add up to at most
    [retryDelay * retryAttempts * (retryAttempts - 1) / 2] ms, whatever the
    remote does (3000 ms with the default configuration). *)
Theorem fetchWithRetry_pause_budget
    (url : string) (config : RxNormConfig) (remote : Remote) (n : nat)
    (c : Completion Wire.Response) (n' : nat) (t : list Event) :
  0 ≤ retryDelay config →
  run (fetchWithRetry url config) remote n = (c, n', t) →
  0 ≤ sleep_total t
  ∧ 2 * sleep_total t ≤ retryDelay config * (retryAttempts config * (retryAttempts config - 1)).
Proof.
  intros Hdelay.
  destruct (fetchWithRetry_shape url config remote n) as (c' & made & Hle & ->).
  intros [= _ _ <-]. destruct made as [|made].
  - cbn. split; [lia|]. nia.
  - pose proof (sleep_total_retry_trace url config made 1) as Hsum.
    split; nia.
Qed.

(** ** Names that differ in the white space around them *)

Lemma trimStart_fixed (s : string) :
  match s with
  | EmptyString => True
  | String c _ => Js.is_whitespace c = false
  end →
  Js.trimStart s = s.
Proof. destruct s as [|c rest]; [done|]. cbn. by intros ->. Qed.

Lemma trimStart_starts_clean (s : string) :
  match Js.trimStart s with
  | EmptyString => True
  | String c _ => Js.is_whitespace c = false
  end.
Proof.
  induction s as [|c rest IH]; [done|]. cbn.
  destruct (Js.is_whitespace c) eqn:Hc; [exact IH|exact Hc].
Qed.

Lemma trimEnd_starts_clean (s : string) :
  match s with
  | EmptyString => True
  | String c _ => Js.is_whitespace c = false
  end →
  match Js.trimEnd s with
  | EmptyString => True
  | String c _ => Js.is_whitespace c = false
  end.
Proof.
  destruct s as [|c rest]; [done|]. cbn. intros Hc.
  destruct (Js.trimEnd rest); [by rewrite Hc|done].
Qed.

Lemma trimEnd_cons (c : ascii) (rest : string) :
  Js.trimEnd (String c rest)
  = match Js.trimEnd rest with
    | EmptyString => if Js.is_whitespace c then EmptyString else String c EmptyString
    | kept => String c kept
    end.
Proof. reflexivity. Qed.

Lemma trimEnd_idempotent (s : string) : Js.trimEnd (Js.trimEnd s) = Js.trimEnd s.
Proof.
  induction s as [|c rest IH]; [done|]. rewrite trimEnd_cons.
  destruct (Js.trimEnd rest) as [|k kept] eqn:Hrest.
  - destruct (Js.is_whitespace c) eqn:Hc; [done|]. cbn. by rewrite Hc.
  - rewrite trimEnd_cons. by rewrite IH.
Qed.

Lemma trim_idempotent (s : string) : Js.trim (Js.trim s) = Js.trim s.
Proof.
  unfold Js.trim.
  rewrite (trimStart_fixed (Js.trimEnd (Js.trimStart s))).
  - apply trimEnd_idempotent.
  - apply trimEnd_starts_clean, trimStart_starts_clean.
Qed.

Lemma search_url_trim config (s : string) :
  search_url config (Js.trim s) = search_url config s.
Proof. unfold search_url. by rewrite trim_idempotent. Qed.

Lemma searchDrug_trim (s : string) config remote n :
  (∀ found n1 t1,
     run (searchDrug s config) remote n = (Returns found, n1, t1) →
     run (searchDrug (Js.trim s) config) remote n = (Returns found, n1, t1))
  ∧ (∀ error n1 t1,
       run (searchDrug s config) remote n = (Throws error, n1, t1) →
       ∃ error',
         run (searchDrug (Js.trim s) config) remote n = (Throws error', n1, t1)
         ∧ message_of error' = message_of error).
Proof.
  destruct (decide (Js.trim s = "")) as [Hblank|Hname].
  - rewrite !searchDrug_blank by (by rewrite ?trim_idempotent). split.
    + intros found n1 t1 [=].
    + intros error n1 t1 [= <- <- <-]. eauto.
  - rewrite !run_searchDrug by (by rewrite ?trim_idempotent).
    rewrite search_url_trim.
    destruct (run (fetchWithRetry _ config) remote n) as [[[response|e] n2] t2]; split.
    + intros found n1 t1. by destruct (Wire.body response).
    + intros error n1 t1. destruct (Wire.body response); intros [= <- <- <-]; eauto.
    + intros found n1 t1 [=].
    + intros error n1 t1 [= <- <- <-]. destruct e; eauto.
Qed.

(** X4. White space around a name changes nothing but [originalName]:
    [normalizeDrugName] on a name and on the trimmed name make the same
    fetches and pauses and return the same status, generic name, identifier
    and error message. *)
Theorem normalizeDrugName_ignores_surrounding_whitespace
    (drugName : string) (config : RxNormConfig) (remote : Remote) (n : nat) :
  ∃ result n' t,
    run (normalizeDrugName drugName config) remote n = (Returns result, n', t)
    ∧ originalName result = drugName
    ∧ run (normalizeDrugName (Js.trim drugName) config) remote n
      = (Returns (renamed (Js.trim drugName) result), n', t).
Proof.
  destruct (normalize_total drugName config remote n) as (result & n' & t & Hrun & Hcase).
  exists result, n', t. split; [exact Hrun|].
  split; [by eapply normalize_case_originalName|].
  destruct (searchDrug_trim drugName config remote n) as [Hfound Hthrown].
  destruct Hcase as [error Hs ->|found Hs Hf ->|id n1 t1 error t2 Hs Hid Hg -> ->
                    |id n1 t1 ingredient t2 Hs Hid Hg Hf -> ->
                    |id n1 t1 generic t2 Hs Hid Hg Hne -> ->].
  - destruct (Hthrown _ _ _ Hs) as (error' & Hs' & Hmsg).
    rewrite (normalize_search_throws _ _ _ _ _ _ _ Hs'). by rewrite Hmsg.
  - by rewrite (normalize_search_falsy _ _ _ _ _ _ _ (Hfound _ _ _ Hs) Hf).
  - by rewrite (normalize_generic_throws _ _ _ _ _ _ _ _ _ _ (Hfound _ _ _ Hs) Hid Hg).
  - by rewrite (normalize_generic_falsy _ _ _ _ _ _ _ _ _ _ (Hfound _ _ _ Hs) Hid Hg Hf).
  - by rewrite (normalize_success _ _ _ _ _ _ _ _ _ _ (Hfound _ _ _ Hs) Hid Hg Hne).
Qed.

(** ** What the lookups read in a response *)

Lemma fetchWithRetry_answered config remote n k url response :
  answered config remote n k url response →
  run (fetchWithRetry url config) remote n
  = (Returns response, (n + S k)%nat, retry_trace url config 1 (S k)).
Proof.
  intros (Hk & Hfail & Hresponse & Hok).
  rewrite (fetchWithRetry_decided url config remote n k Hk Hfail).
  - rewrite Hresponse. cbn. by rewrite Hok.
  - rewrite Hresponse. unfold fails_otherwise. cbn. by rewrite Hok.
Qed.

(** X5. When the request of [searchDrug] is answered, after any retried
    failures, by an ok response whose body lists candidates, the result is
    the identifier of the first candidate as the service ordered them, and
    null when the list is empty. *)
Theorem searchDrug_returns_first_candidate
    (drugName : string) (config : RxNormConfig) (remote : Remote) (n k : nat)
    (response : Wire.Response) (data : Wire.Data) (candidates : list Wire.Candidate) :
  Js.trim drugName ≠ "" →
  answered config remote n k (search_url config drugName) response →
  Wire.body response = Wire.Json data →
  Wire.approximateGroup data = Some {| Wire.candidate := Some candidates |} →
  run (searchDrug drugName config) remote n
  = (Returns (Wire.rxcui <$> head candidates), (n + S k)%nat,
     retry_trace (search_url config drugName) config 1 (S k)).
Proof.
  intros Hname Hanswered Hbody Hgroup.
  rewrite run_searchDrug by done.
  rewrite (fetchWithRetry_answered _ _ _ _ _ _ Hanswered), Hbody.
  unfold top_candidate. rewrite Hgroup. by destruct candidates.
Qed.

(** X6. An ok response whose body cannot be read ends the lookup: both
    [searchDrug] and [getGenericName] throw an [UNKNOWN_ERROR] around the
    text of the error, and no further attempt is made even when attempts
    are left. *)
Theorem unreadable_body_is_not_retried
    (drugName rxcui : string) (config : RxNormConfig) (remote : Remote) (n k : nat)
    (response : Wire.Response) (error_name error_message : string) :
  Wire.body response = Wire.NotJson error_name error_message →
  (Js.trim drugName ≠ "" →
   answered config remote n k (search_url config drugName) response →
   run (searchDrug drugName config) remote n
   = (Throws (RxNormAPIError
                ("Unexpected error searching for drug: "
                 +:+ toString (OtherError error_name error_message))
                (Some "UNKNOWN_ERROR") None (Some drugName)),
      (n + S k)%nat, retry_trace (search_url config drugName) config 1 (S k)))
  ∧ (Js.trim rxcui ≠ "" →
     answered config remote n k (related_url config rxcui) response →
     run (getGenericName rxcui config) remote n
     = (Throws (RxNormAPIError
                  ("Unexpected error getting generic name: "
                   +:+ toString (OtherError error_name error_message))
                  (Some "UNKNOWN_ERROR") None None),
        (n + S k)%nat, retry_trace (related_url config rxcui) config 1 (S k))).
Proof.
  intros Hbody. split; intros Hname Hanswered.
  - rewrite run_searchDrug by done.
    by rewrite (fetchWithRetry_answered _ _ _ _ _ _ Hanswered), Hbody.
  - rewrite run_getGenericName by done.
    by rewrite (fetchWithRetry_answered _ _ _ _ _ _ Hanswered), Hbody.
Qed.

Lemma find_first_IN (before after : list Wire.ConceptGroup) (group : Wire.ConceptGroup) :
  Forall (λ g, Wire.tty g ≠ "IN") before →
  Wire.tty group = "IN" →
  List.find (λ g, String.eqb (Wire.tty g) "IN") (before ++ group :: after) = Some group.
Proof.
  intros Hbefore Hgroup. induction Hbefore as [|g before Hg _ IH]; cbn.
  - by rewrite Hgroup.
  - by apply String.eqb_neq in Hg as ->.
Qed.

(** X7. [getGenericName] reads the first concept group of type IN and no
    other: the result is the first name of that group, and null when that
    group has no names, whatever the groups after it hold. *)
Theorem getGenericName_reads_first_IN_group
    (rxcui : string) (config : RxNormConfig) (remote : Remote) (n k : nat)
    (response : Wire.Response) (data : Wire.Data)
    (before after : list Wire.ConceptGroup) (group : Wire.ConceptGroup) :
  Js.trim rxcui ≠ "" →
  answered config remote n k (related_url config rxcui) response →
  Wire.body response = Wire.Json data →
  Wire.relatedGroup data = Some {| Wire.conceptGroup := Some (before ++ group :: after) |} →
  Forall (λ g, Wire.tty g ≠ "IN") before →
  Wire.tty group = "IN" →
  run (getGenericName rxcui config) remote n
  = (Returns (Wire.name <$> (Wire.conceptProperties group ≫= head)), (n + S k)%nat,
     retry_trace (related_url config rxcui) config 1 (S k)).
Proof.
  intros Hname Hanswered Hbody Hgroups Hbefore Hgroup.
  rewrite run_getGenericName by done.
  rewrite (fetchWithRetry_answered _ _ _ _ _ _ Hanswered), Hbody.
  unfold first_ingredient. rewrite Hgroups.
  rewrite (find_first_IN _ _ _ Hbefore Hgroup).
  by destruct group as [tty [[|first others]|]].
Qed.

(** X8. [validateRxNormAPI] never throws. It returns true exactly when
    [searchDrug] on "aspirin" returns an identifier, be it the empty
    string, and false when that lookup returns null or throws; its events
    are those of the lookup. *)
Theorem validateRxNormAPI_reports_the_aspirin_lookup
    (config : RxNormConfig) (remote : Remote) (n : nat) :
  ∃ online n' t,
    run (validateRxNormAPI config) remote n = (Returns online, n', t)
    ∧ (∃ c, run (searchDrug "aspirin" config) remote n = (c, n', t))
    ∧ (online = true
       ↔ ∃ id, run (searchDrug "aspirin" config) remote n = (Returns (Some id), n', t)).
Proof.
  unfold validateRxNormAPI. rewrite run_try_catch, run_bind.
  destruct (run (searchDrug "aspirin" config) remote n) as [[[found|error] n1] t1].
  - rewrite run_ret. cbv beta iota. rewrite app_nil_r.
    destruct found as [id|]; eexists _, _, _; (split; [reflexivity|]); (split; [eauto|]).
    + split; eauto.
    + split; [done|]. by intros [id [=]].
  - rewrite run_ret. rewrite app_nil_r.
    eexists _, _, _. split; [reflexivity|]. split; [eauto|].
    split; [done|]. by intros [id [=]].
Qed.

(** * Properties of the CSV utilities *)

(** ** Detecting the medication column *)

Lemma indexOf_Some (value : string) (array : list string) : ∀ index,
  JsString.indexOf value array = Some index ↔
  array !! index = Some value ∧ ∀ j, (j < index)%nat → array !! j ≠ Some value.
Proof.
  induction array as [|first later IH]; intros index; cbn.
  - split; [done|]. by intros [? _].
  - destruct (String.eqb_spec first value) as [->|Hne].
    + split.
      * intros [= <-]. split; [done|]. lia.
      * intros [Hat Hfirst]. destruct index as [|index]; [done|].
        by destruct (Hfirst 0%nat ltac:(lia)).
    + destruct (JsString.indexOf value later) as [found|].
      * split.
        -- intros [= <-]. destruct (IH found) as [[Hat Hfirst] _]; [done|].
           split; [done|].
           intros [|j] Hj; cbn; [congruence|]. apply Hfirst. lia.
        -- intros [Hat Hfirst]. destruct index as [|index]; [cbn in Hat; congruence|].
           destruct (IH index) as [_ Hback]. f_equal.
           enough (Some found = Some index) by congruence.
           apply Hback. split; [exact Hat|]. intros j Hj. apply (Hfirst (S j)). lia.
      * split; [done|]. intros [Hat Hfirst].
        destruct index as [|index]; [cbn in Hat; congruence|].
        destruct (IH index) as [_ Hback]. discriminate Hback.
        split; [exact Hat|]. intros j Hj. apply (Hfirst (S j)). lia.
Qed.

Lemma indexOf_None (value : string) (array : list string) :
  JsString.indexOf value array = None ↔ value ∉ array.
Proof.
  induction array as [|first later IH]; cbn.
  - split; [intros _; apply not_elem_of_nil|done].
  - rewrite not_elem_of_cons.
    destruct (String.eqb_spec first value) as [->|Hne].
    + split; [done|]. by intros [? _].
    + destruct (JsString.indexOf value later).
      * split; [done|]. intros [_ Hnot]. destruct IH as [_ IH]. by discriminate IH.
      * split; [|done]. intros _. split; [congruence|]. by apply IH.
Qed.

Lemma findIndex_Some (test : string → bool) (array : list string) : ∀ index,
  JsString.findIndex test array = Some index ↔
  (∃ element, array !! index = Some element ∧ test element = true)
  ∧ ∀ j element, (j < index)%nat → array !! j = Some element → test element = false.
Proof.
  induction array as [|first later IH]; intros index; cbn.
  - split; [done|]. by intros [[? [? _]] _].
  - destruct (test first) eqn:Hfirst.
    + split.
      * intros [= <-]. split; [eauto|]. lia.
      * intros [_ Hbefore]. destruct index as [|index]; [done|].
        specialize (Hbefore 0%nat first ltac:(lia) eq_refl). congruence.
    + destruct (JsString.findIndex test later) as [found|].
      * split.
        -- intros [= <-]. destruct (IH found) as [[Hat Hbefore] _]; [done|].
           split; [done|].
           intros [|j] element Hj; cbn; [congruence|]. apply Hbefore. lia.
        -- intros [[element [Hat Htest]] Hbefore].
           destruct index as [|index]; [cbn in Hat; congruence|].
           destruct (IH index) as [_ Hback].
           enough (Some found = Some index) by congruence.
           apply Hback. split; [eauto|]. intros j e Hj. apply (Hbefore (S j)). lia.
      * split; [done|]. intros [[element [Hat Htest]] Hbefore].
        destruct index as [|index]; [cbn in Hat; congruence|].
        destruct (IH index) as [_ Hback]. discriminate Hback.
        split; [eauto|]. intros j e Hj. apply (Hbefore (S j)). lia.
Qed.

Lemma findIndex_None (test : string → bool) (array : list string) :
  JsString.findIndex test array = None ↔ ∀ element, element ∈ array → test element = false.
Proof.
  induction array as [|first later IH]; cbn.
  - split; [|done]. intros _ element Hin. by apply elem_of_nil in Hin.
  - destruct (test first) eqn:Hfirst.
    + split; [done|]. intros Hall. specialize (Hall first ltac:(left)). congruence.
    + destruct (JsString.findIndex test later).
      * split; [done|]. intros Hall.
        destruct IH as [_ IH]. discriminate IH. intros element Hin. apply Hall. by right.
      * split; [|done]. intros _ element Hin.
        apply elem_of_cons in Hin as [->|Hin]; [done|]. by apply IH.
Qed.

Lemma detect_loop_None (find : string → option nat) columns (keywords : list string) :
  detect_loop find columns keywords = None ↔ ∀ keyword, keyword ∈ keywords → find keyword = None.
Proof.
  induction keywords as [|keyword later IH]; cbn.
  - split; [|done]. intros _ k Hin. by apply elem_of_nil in Hin.
  - destruct (find keyword) eqn:Hfind.
    + split; [done|]. intros Hall. specialize (Hall keyword ltac:(left)). congruence.
    + rewrite IH. split.
      * intros Hall k Hin. apply elem_of_cons in Hin as [->|Hin]; [done|]. by apply Hall.
      * intros Hall k Hin. apply Hall. by right.
Qed.

Lemma detect_loop_Some (find : string → option nat) columns (keywords : list string) result :
  detect_loop find columns keywords = Some result ↔
  ∃ before keyword after index,
    keywords = before ++ keyword :: after
    ∧ (∀ earlier, earlier ∈ before → find earlier = None)
    ∧ find keyword = Some index
    ∧ result = columns !! index.
Proof.
  induction keywords as [|keyword later IH]; cbn.
  - split; [done|]. intros (before & k & after & index & Heq & _). by destruct before.
  - destruct (find keyword) as [index|] eqn:Hfind.
    + split.
      * intros [= <-]. exists [], keyword, later, index. split_and!; try done.
        intros earlier Hin. by apply elem_of_nil in Hin.
      * intros (before & k & after & i & Heq & Hbefore & Hk & ->).
        destruct before as [|b before]; cbn in Heq; injection Heq as <- Heq.
        -- congruence.
        -- specialize (Hbefore keyword ltac:(left)). congruence.
    + rewrite IH. split.
      * intros (before & k & after & i & -> & Hbefore & Hk & ->).
        exists (keyword :: before), k, after, i. split_and!; try done.
        intros earlier Hin. apply elem_of_cons in Hin as [->|Hin]; [done|]. by apply Hbefore.
      * intros (before & k & after & i & Heq & Hbefore & Hk & ->).
        destruct before as [|b before]; cbn in Heq; injection Heq as <- Heq.
        -- congruence.
        -- exists before, k, after, i. split_and!; try done.
           intros earlier Hin. apply Hbefore. by right.
Qed.

Lemma prefix_refl (s : string) : String.prefix s s = true.
Proof.
  induction s as [|c rest IH]; [done|]. cbn.
  destruct (Ascii.ascii_dec c c); [exact IH|done].
Qed.

Lemma includes_refl (s : string) : Js.includes s s = true.
Proof. destruct s; cbn; [done|]. change (String.prefix (String a s) (String a s) || Js.includes (String a s) s = true). by rewrite prefix_refl. Qed.

Lemma lookup_lowered (columns : list string) (index : nat) (value : string) :
  (JsString.toLowerCase <$> columns) !! index = Some value ↔
  ∃ column, columns !! index = Some column ∧ JsString.toLowerCase column = value.
Proof.
  rewrite list_lookup_fmap, fmap_Some.
  split; intros (column & Hcolumn & Hvalue); by exists column.
Qed.

Lemma exact_loop_inv (columns : list string) (result : option string) :
  detect_loop (λ keyword, JsString.indexOf keyword (JsString.toLowerCase <$> columns))
    columns MEDICATION_COLUMN_KEYWORDS = Some result →
  ∃ column keyword,
    result = Some column ∧ column ∈ columns
    ∧ keyword ∈ MEDICATION_COLUMN_KEYWORDS ∧ JsString.toLowerCase column = keyword.
Proof.
  intros (before & keyword & after & index & Hkeywords & _ & Hfind & ->)%detect_loop_Some.
  apply indexOf_Some in Hfind as [(column & Hcolumn & Hlower)%lookup_lowered _].
  exists column, keyword. split_and!; [done| |rewrite Hkeywords; set_solver|done].
  by eapply list_elem_of_lookup_2.
Qed.

Lemma partial_loop_inv (columns : list string) (result : option string) :
  detect_loop
    (λ keyword, JsString.findIndex (λ col, Js.includes keyword col)
                  (JsString.toLowerCase <$> columns))
    columns MEDICATION_COLUMN_KEYWORDS = Some result →
  ∃ column keyword,
    result = Some column ∧ column ∈ columns
    ∧ keyword ∈ MEDICATION_COLUMN_KEYWORDS
    ∧ Js.includes keyword (JsString.toLowerCase column) = true.
Proof.
  intros (before & keyword & after & index & Hkeywords & _ & Hfind & ->)%detect_loop_Some.
  apply findIndex_Some in Hfind as [(lowered & (column & Hcolumn & <-)%lookup_lowered & Htest) _].
  exists column, keyword. split_and!; [done| |rewrite Hkeywords; set_solver|done].
  by eapply list_elem_of_lookup_2.
Qed.

Lemma detectMedicationColumn_None_or_named (columns : list string) (column : string) :
  detectMedicationColumn columns = Some column → column ≠ "".
Proof.
  unfold detectMedicationColumn. cbv zeta. intros Hdetect.
  assert (∃ keyword, keyword ∈ MEDICATION_COLUMN_KEYWORDS
                     ∧ Js.includes keyword (JsString.toLowerCase column) = true)
    as (keyword & Hkeyword & Hincl).
  { destruct (detect_loop (λ keyword, JsString.indexOf keyword _) columns _)
      as [result|] eqn:Hexact.
    - apply exact_loop_inv in Hexact as (c & keyword & -> & Hin & Hk & Hlower).
      injection Hdetect as ->. exists keyword. split; [done|].
      rewrite Hlower. apply includes_refl.
    - destruct (detect_loop (λ keyword, JsString.findIndex _ _) columns _)
        as [result|] eqn:Hpartial; [|done].
      apply partial_loop_inv in Hpartial as (c & keyword & -> & Hin & Hk & Hincl).
      injection Hdetect as ->. eauto. }
  intros ->. cbn in Hincl. rewrite orb_false_r in Hincl.
  unfold MEDICATION_COLUMN_KEYWORDS in Hkeyword.
  repeat (apply elem_of_cons in Hkeyword as [->|Hkeyword]; [done|]).
  by apply elem_of_nil in Hkeyword.
Qed.

(** X9. A column [detectMedicationColumn] suggests is one of the columns
    given, so [validateColumn] accepts it, and its name in lower case
    contains one of the keywords. *)
Theorem detectMedicationColumn_suggests_a_given_column
    (columns : list string) (column : string) :
  detectMedicationColumn columns = Some column →
  column ∈ columns
  ∧ validateColumn columns column = Csv.Value true
  ∧ ∃ keyword, keyword ∈ MEDICATION_COLUMN_KEYWORDS
               ∧ Js.includes keyword (JsString.toLowerCase column) = true.
Proof.
  unfold detectMedicationColumn. cbv zeta. intros Hdetect.
  assert (column ∈ columns
          ∧ ∃ keyword, keyword ∈ MEDICATION_COLUMN_KEYWORDS
                       ∧ Js.includes keyword (JsString.toLowerCase column) = true)
    as [Hin Hkeyword].
  { destruct (detect_loop (λ keyword, JsString.indexOf keyword _) columns _)
      as [result|] eqn:Hexact.
    - apply exact_loop_inv in Hexact as (c & keyword & -> & Hin & Hk & Hlower).
      injection Hdetect as ->. split; [done|]. exists keyword. split; [done|].
      rewrite Hlower. apply includes_refl.
    - destruct (detect_loop (λ keyword, JsString.findIndex _ _) columns _)
        as [result|] eqn:Hpartial; [|done].
      apply partial_loop_inv in Hpartial as (c & keyword & -> & Hin & Hk & Hincl).
      injection Hdetect as ->. eauto. }
  split_and!; [done| |done].
  unfold validateColumn. by rewrite bool_decide_eq_true_2.
Qed.

(** X10. [detectMedicationColumn] returns null exactly when no column name
    contains, in lower case, any of the keywords. *)
Theorem detectMedicationColumn_null_iff_no_keyword (columns : list string) :
  detectMedicationColumn columns = None ↔
  ∀ column keyword,
    column ∈ columns → keyword ∈ MEDICATION_COLUMN_KEYWORDS →
    Js.includes keyword (JsString.toLowerCase column) = false.
Proof.
  unfold detectMedicationColumn. cbv zeta. split.
  - intros Hdetect column keyword Hcolumn Hkeyword.
    destruct (detect_loop (λ keyword, JsString.indexOf keyword _) columns _)
      as [result|] eqn:Hexact.
    { apply exact_loop_inv in Hexact as (c & k & -> & _). done. }
    destruct (detect_loop (λ keyword, JsString.findIndex _ _) columns _)
      as [result|] eqn:Hpartial.
    { apply partial_loop_inv in Hpartial as (c & k & -> & _). done. }
    pose proof (proj1 (detect_loop_None _ _ _) Hpartial keyword Hkeyword) as Hnone.
    cbv beta in Hnone. rewrite findIndex_None in Hnone.
    apply Hnone. by apply list_elem_of_fmap_2.
  - intros Hnone.
    assert (detect_loop
              (λ keyword, JsString.indexOf keyword (JsString.toLowerCase <$> columns))
              columns MEDICATION_COLUMN_KEYWORDS = None) as ->.
    { apply detect_loop_None. intros keyword Hkeyword. apply indexOf_None.
      intros (column & -> & Hcolumn)%list_elem_of_fmap.
      specialize (Hnone column _ Hcolumn Hkeyword). by rewrite includes_refl in Hnone. }
    assert (detect_loop
              (λ keyword, JsString.findIndex (λ col, Js.includes keyword col)
                            (JsString.toLowerCase <$> columns))
              columns MEDICATION_COLUMN_KEYWORDS = None) as ->; [|done].
    apply detect_loop_None. intros keyword Hkeyword. apply findIndex_None.
    intros lowered (column & -> & Hcolumn)%list_elem_of_fmap. by apply Hnone.
Qed.

(** X11. A name that is a keyword up to case beats every name that only
    contains one. Among such names the one chosen is under the keyword
    that comes first in the list of keywords, and under that keyword the
    column that comes first. *)
Theorem detectMedicationColumn_prefers_exact_names
    (columns before after : list string) (keyword column : string) (index : nat) :
  MEDICATION_COLUMN_KEYWORDS = before ++ keyword :: after →
  (∀ earlier, earlier ∈ before → earlier ∉ JsString.toLowerCase <$> columns) →
  columns !! index = Some column →
  JsString.toLowerCase column = keyword →
  keyword ∉ JsString.toLowerCase <$> take index columns →
  detectMedicationColumn columns = Some column.
Proof.
  intros Hkeywords Hbefore Hcolumn Hlower Hfirst.
  unfold detectMedicationColumn. cbv zeta.
  assert (detect_loop
            (λ keyword, JsString.indexOf keyword (JsString.toLowerCase <$> columns))
            columns MEDICATION_COLUMN_KEYWORDS = Some (Some column)) as ->; [|done].
  apply detect_loop_Some. exists before, keyword, after, index. split_and!.
  - exact Hkeywords.
  - intros earlier Hin. by apply indexOf_None, Hbefore.
  - apply indexOf_Some. split; [apply lookup_lowered; eauto|].
    intros j Hj Hat. apply Hfirst. rewrite fmap_take.
    apply list_elem_of_lookup. exists j. by rewrite lookup_take_lt.
  - by rewrite Hcolumn.
Qed.

(** X12. When no name is a keyword up to case, the column chosen is the
    first one that contains the first keyword, in the order of the list of
    keywords, that some name contains. *)
Theorem detectMedicationColumn_falls_back_to_partial_names
    (columns before after : list string) (keyword column : string) (index : nat) :
  (∀ exact, exact ∈ MEDICATION_COLUMN_KEYWORDS →
            exact ∉ JsString.toLowerCase <$> columns) →
  MEDICATION_COLUMN_KEYWORDS = before ++ keyword :: after →
  (∀ earlier other, earlier ∈ before → other ∈ columns →
                    Js.includes earlier (JsString.toLowerCase other) = false) →
  columns !! index = Some column →
  Js.includes keyword (JsString.toLowerCase column) = true →
  (∀ other, other ∈ take index columns →
            Js.includes keyword (JsString.toLowerCase other) = false) →
  detectMedicationColumn columns = Some column.
Proof.
  intros Hexact Hkeywords Hbefore Hcolumn Hincl Hfirst.
  unfold detectMedicationColumn. cbv zeta.
  assert (detect_loop
            (λ keyword, JsString.indexOf keyword (JsString.toLowerCase <$> columns))
            columns MEDICATION_COLUMN_KEYWORDS = None) as ->.
  { apply detect_loop_None. intros k Hk. by apply indexOf_None, Hexact. }
  assert (detect_loop
            (λ keyword, JsString.findIndex (λ col, Js.includes keyword col)
                          (JsString.toLowerCase <$> columns))
            columns MEDICATION_COLUMN_KEYWORDS = Some (Some column)) as ->; [|done].
  apply detect_loop_Some. exists before, keyword, after, index. split_and!.
  - exact Hkeywords.
  - intros earlier Hin. apply findIndex_None.
    intros lowered (other & -> & Hother)%list_elem_of_fmap. by apply Hbefore.
  - apply findIndex_Some. split.
    + exists (JsString.toLowerCase column). split; [apply lookup_lowered; eauto|done].
    + intros j lowered Hj (other & Hother & <-)%lookup_lowered.
      apply Hfirst. apply list_elem_of_lookup. exists j. by rewrite lookup_take_lt.
  - by rewrite Hcolumn.
Qed.

(** ** The values of a column *)

Lemma Set_add_spec (elements : list string) (value : string) :
  NoDup elements →
  NoDup (JsString.Set_add elements value)
  ∧ ∀ x, x ∈ JsString.Set_add elements value ↔ x ∈ elements ∨ x = value.
Proof.
  intros Hnodup. unfold JsString.Set_add. case_bool_decide as Hin.
  - split; [done|]. intros x. split; [by left|]. by intros [?| ->].
  - split.
    + apply NoDup_app. split_and!; [done| |apply NoDup_singleton].
      intros x Hx ->%list_elem_of_singleton. done.
    + intros x. by rewrite elem_of_app, list_elem_of_singleton.
Qed.

Lemma Array_from_Set_fold (values : list string) : ∀ elements,
  NoDup elements →
  NoDup (fold_left JsString.Set_add values elements)
  ∧ ∀ x, x ∈ fold_left JsString.Set_add values elements ↔ x ∈ elements ∨ x ∈ values.
Proof.
  induction values as [|value later IH]; intros elements Hnodup; cbn.
  - split; [done|]. intros x. rewrite elem_of_nil. tauto.
  - destruct (Set_add_spec elements value Hnodup) as [Hnodup' Hin'].
    destruct (IH _ Hnodup') as [Hfold Hin]. split; [done|].
    intros x. rewrite Hin, Hin', elem_of_cons. tauto.
Qed.

Lemma Array_from_Set_spec (values : list string) :
  NoDup (JsString.Array_from_Set values)
  ∧ ∀ x, x ∈ JsString.Array_from_Set values ↔ x ∈ values.
Proof.
  destruct (Array_from_Set_fold values [] (NoDup_nil_2)) as [Hnodup Hin].
  split; [done|]. intros x. rewrite Hin, elem_of_nil. tauto.
Qed.

Lemma extractColumnValues_step_spec columnName (values : list string) row :
  NoDup values →
  NoDup (extractColumnValues_step columnName values row)
  ∧ ∀ x, x ∈ extractColumnValues_step columnName values row
         ↔ x ∈ values ∨ contributes columnName row x.
Proof.
  intros Hnodup. unfold extractColumnValues_step, contributes, get_property.
  destruct (row !! columnName) as [[[|c s]|n|]|] eqn:Hcell; cbn.
  - split; [done|]. intros x. split; [by left|].
    intros [?|[(s & [= <-] & Hs & _)|[(n & [=] & _)|(text & [=] & _)]]]; done.
  - destruct (Set_add_spec values (Js.trim (String c s)) Hnodup) as [Hnodup' Hin].
    split; [done|]. intros x. rewrite Hin. split.
    + intros [?| ->]; [by left|]. right. left. by exists (String c s).
    + intros [?|[(s' & [= <-] & _ & ->)|[(n & [=] & _)|(text & [=] & _)]]];
        [by left|by right].
  - destruct (Set_add_spec values (Js.trim (Js.String_of_number (Js.to_Z n))) Hnodup)
      as [Hnodup' Hin].
    split; [done|]. intros x. rewrite Hin. split.
    + intros [?| ->]; [by left|]. right. right. left. by exists n.
    + intros [?|[(s' & [=] & _)|[(n' & [= <-] & ->)|(text & [=] & _)]]];
        [by left|by right].
  - split; [done|]. intros x. split; [by left|].
    intros [?|[(s & [=] & _)|[(n & [=] & _)|(text & [=] & _)]]]; done.
  - destruct (Js.Object_prototype columnName) as [text|] eqn:Hmember; cbn.
    + destruct (Set_add_spec values (Js.trim text) Hnodup) as [Hnodup' Hin].
      split; [done|]. intros x. rewrite Hin. split.
      * intros [?| ->]; [by left|]. right. right. right. by exists text.
      * intros [?|[(s' & [=] & _)|[(n' & [=] & _)|(text' & _ & [= <-] & ->)]]];
          [by left|by right].
    + split; [done|]. intros x. split; [by left|].
      intros [?|[(s & [=] & _)|[(n & [=] & _)|(text & _ & [=] & _)]]]; done.
Qed.

Lemma extractColumnValues_fold columnName (data : list (gmap string Cell)) : ∀ values,
  NoDup values →
  NoDup (fold_left (extractColumnValues_step columnName) data values)
  ∧ ∀ x, x ∈ fold_left (extractColumnValues_step columnName) data values
         ↔ x ∈ values ∨ ∃ row, row ∈ data ∧ contributes columnName row x.
Proof.
  induction data as [|row later IH]; intros values Hnodup; cbn.
  - split; [done|]. intros x. split; [by left|].
    intros [?|(row & Hrow & _)]; [done|]. by apply elem_of_nil in Hrow.
  - destruct (extractColumnValues_step_spec columnName values row Hnodup) as [Hnodup' Hin'].
    destruct (IH _ Hnodup') as [Hfold Hin]. split; [done|].
    intros x. rewrite Hin, Hin'. split.
    + intros [[?|?]|(r & Hr & Hx)]; [by left|right; exists row|right; exists r].
      * split; [by left|done].
      * split; [by right|done].
    + intros [?|(r & Hr & Hx)]; [by left; left|].
      apply elem_of_cons in Hr as [->|Hr]; [by left; right|right; eauto].
Qed.

(** X13. [extractColumnValues] returns each value once. A string is in
    the result exactly when it is the trimmed text of what some row gives
    for the column: a cell that is a string and not empty, or a cell that is
    a number, or, the row having no cell there, the member of
    [Object.prototype] the column is named after. Rows with null or the
    empty string there, and rows with no cell under a name that
    [Object.prototype] does not have, add nothing. *)
Theorem extractColumnValues_distinct_trimmed_values
    (data : list (gmap string Cell)) (columnName : string) :
  NoDup (extractColumnValues data columnName)
  ∧ ∀ value,
      value ∈ extractColumnValues data columnName ↔
      ∃ row, row ∈ data
             ∧ ((∃ s, row !! columnName = Some (CellString s) ∧ s ≠ ""
                      ∧ value = Js.trim s)
                ∨ (∃ n, row !! columnName = Some (CellNumber n)
                        ∧ value = Js.trim (Js.String_of_number (Js.to_Z n)))
                ∨ (∃ text, row !! columnName = None
                           ∧ Js.Object_prototype columnName = Some text
                           ∧ value = Js.trim text)).
Proof.
  destruct (extractColumnValues_fold columnName data [] (NoDup_nil_2)) as [Hnodup Hin].
  split; [done|]. intros value. unfold extractColumnValues. rewrite Hin, elem_of_nil.
  unfold contributes. tauto.
Qed.

(** ** More on the join *)

Lemma get_or_NOT_FOUND_spec (genericNames : gmap string string) (key : string) :
  get_or_NOT_FOUND genericNames key ≠ ""
  ∧ (get_or_NOT_FOUND genericNames key = "NOT_FOUND"
     ∨ genericNames !! key = Some (get_or_NOT_FOUND genericNames key)).
Proof.
  unfold get_or_NOT_FOUND. destruct (genericNames !! key) as [found|]; [|by split; [|left]].
  destruct (String.eqb_spec found ""); [by split; [|left]|]. split; [done|by right].
Qed.

Lemma addGenericNameColumn_lookup originalData columnName genericNames (i : nat) out :
  addGenericNameColumn originalData columnName genericNames !! i = Some out ↔
  ∃ row, originalData !! i = Some row
         ∧ out = <[GENERIC_NAME_COLUMN :=
                     CellString (get_or_NOT_FOUND genericNames
                                   (Js.trim (String_or_empty (get_property row columnName))))]> row.
Proof.
  unfold addGenericNameColumn. change (@List.map) with (@fmap list _).
  rewrite list_lookup_fmap, fmap_Some. split; intros (row & Hrow & Hout); by exists row.
Qed.

(** X14. [addGenericNameColumn] gives one row per input row, in order; a
    field other than GENERIC_NAME is what it was in the input row, absent
    or present, and GENERIC_NAME is a string that is not empty: "NOT_FOUND"
    or an entry of the map. Two rows whose values in the designated column
    are truthy and have the same text up to surrounding white space get the
    same GENERIC_NAME, and so do two rows whose values there are falsy. *)
Theorem addGenericNameColumn_fills_every_row_alike
    (originalData : list (gmap string Cell)) (columnName : string)
    (genericNames : gmap string string) :
  length (addGenericNameColumn originalData columnName genericNames) = length originalData
  ∧ (∀ i row,
       originalData !! i = Some row →
       ∃ out generic,
         addGenericNameColumn originalData columnName genericNames !! i = Some out
         ∧ (∀ field, field ≠ GENERIC_NAME_COLUMN → out !! field = row !! field)
         ∧ out !! GENERIC_NAME_COLUMN = Some (CellString generic)
         ∧ generic ≠ ""
         ∧ (generic = "NOT_FOUND" ∨ ∃ key, genericNames !! key = Some generic))
  ∧ (∀ i j row1 row2 out1 out2,
       originalData !! i = Some row1 →
       originalData !! j = Some row2 →
       addGenericNameColumn originalData columnName genericNames !! i = Some out1 →
       addGenericNameColumn originalData columnName genericNames !! j = Some out2 →
       (Js.ToBoolean (get_property row1 columnName) = true
        ∧ Js.ToBoolean (get_property row2 columnName) = true
        ∧ Js.trim (Js.ToString (get_property row1 columnName))
          = Js.trim (Js.ToString (get_property row2 columnName)))
       ∨ (Js.ToBoolean (get_property row1 columnName) = false
          ∧ Js.ToBoolean (get_property row2 columnName) = false) →
       out1 !! GENERIC_NAME_COLUMN = out2 !! GENERIC_NAME_COLUMN).
Proof.
  split_and!.
  - unfold addGenericNameColumn. apply length_map.
  - intros i row Hrow. eexists _, _. split.
    { apply addGenericNameColumn_lookup. by exists row. }
    split; [intros field Hfield; by rewrite lookup_insert_ne|].
    rewrite lookup_insert_eq. split; [done|].
    destruct (get_or_NOT_FOUND_spec genericNames
                (Js.trim (String_or_empty (get_property row columnName))))
      as [Hne [Hnot|Hentry]]; split; eauto.
  - intros i j row1 row2 out1 out2 Hrow1 Hrow2
      (r1 & Hr1 & ->)%addGenericNameColumn_lookup
      (r2 & Hr2 & ->)%addGenericNameColumn_lookup Hsame.
    rewrite !lookup_insert_eq.
    assert (r1 = row1) as -> by congruence. assert (r2 = row2) as -> by congruence.
    unfold String_or_empty.
    destruct Hsame as [(-> & -> & ->)|[-> ->]]; reflexivity.
Qed.

(** ** The number 0 in the designated column *)

(** C9, where the code departs from it. A row whose cell in the designated
    column is the number 0 has "0" as the trimmed text of that value, and
    [extractColumnValues] lists "0" among the values of the column; yet
    [addGenericNameColumn] joins the row under the empty string, so that on
    a map with no entry under the empty string its GENERIC_NAME is
    "NOT_FOUND", whatever the map holds under "0". *)
Theorem addGenericNameColumn_joins_zero_under_the_empty_string
    (originalData : list (gmap string Cell)) (columnName : string)
    (genericNames : gmap string string) (i : nat) (row : gmap string Cell)
    (n : Js.SafeInteger) :
  originalData !! i = Some row →
  row !! columnName = Some (CellNumber n) →
  Js.to_Z n = 0 →
  genericNames !! "" = None →
  Js.trim (Js.ToString (get_property row columnName)) = "0"
  ∧ "0" ∈ extractColumnValues originalData columnName
  ∧ ∃ out,
      addGenericNameColumn originalData columnName genericNames !! i = Some out
      ∧ out !! GENERIC_NAME_COLUMN = Some (CellString "NOT_FOUND").
Proof.
  intros Hrow Hcell Hzero Hnone.
  assert (Js.trim (Js.ToString (get_property row columnName)) = "0") as Htext.
  { unfold get_property. rewrite Hcell. cbn. by rewrite Hzero. }
  split_and!; [done| |].
  - destruct (extractColumnValues_fold columnName originalData [] (NoDup_nil_2))
      as [_ Hin].
    apply Hin. right. exists row. split; [by eapply list_elem_of_lookup_2|].
    right. left. exists n. split; [done|].
    unfold get_property in Htext. rewrite Hcell in Htext. by cbn in Htext.
  - eexists. split; [apply addGenericNameColumn_lookup; by exists row|].
    rewrite lookup_insert_eq. unfold String_or_empty, get_property.
    rewrite Hcell. cbn. rewrite Hzero. cbn.
    unfold get_or_NOT_FOUND. change (Js.trim "") with "". by rewrite Hnone.
Qed.

(** ** Parsing and reading a file *)

Lemma parseCSV_resolved
    (Papa_parse : string → Csv.CSVConfig → Papa.Callback)
    (csvContent : string) (config : Csv.PartialCSVConfig) (parsed : Csv.ParsedCSVData) :
  parseCSV Papa_parse csvContent config = Csv.Value (Csv.Value parsed) →
  ∃ results,
    Papa_parse csvContent (fullConfig config) = Papa.complete results
    ∧ Papa.errors results = []
    ∧ Csv.data parsed = Papa.data results
    ∧ Csv.data parsed ≠ []
    ∧ Csv.columns parsed = default [] (Papa.fields (Papa.meta results))
    ∧ Csv.meta parsed = Papa.meta results
    ∧ (Csv.header (fullConfig config) = true → Csv.columns parsed ≠ []).
Proof.
  unfold parseCSV.
  destruct (String.eqb csvContent "" || String.eqb (Js.trim csvContent) ""); [done|].
  intros [= Hsettle]. revert Hsettle. unfold parseCSV_settle.
  destruct (Papa_parse csvContent (fullConfig config)) as [results|en em]; [|done].
  destruct (Papa.errors results) as [|err errs] eqn:Herrors; [|done].
  destruct (Papa.data results) as [|row rows] eqn:Hdata; [done|].
  destruct (Csv.header (fullConfig config)) eqn:Hheader; cbn [andb].
  - case_bool_decide as Hcolumns; [done|]. intros [= <-].
    exists results. cbn. by rewrite Herrors, Hdata.
  - intros [= <-]. exists results. cbn. by rewrite Herrors, Hdata.
Qed.

(** X15. [parseCSV] throws, before any promise exists, exactly on content
    that is empty after trimming. On other content it returns a promise,
    and the promise resolves only when PapaParse completed without errors
    and with at least one row: the data are those rows, the columns are the
    fields PapaParse found, and with headers on there is at least one
    column. *)
Theorem parseCSV_throws_on_blank_and_resolves_with_rows
    (Papa_parse : string → Csv.CSVConfig → Papa.Callback)
    (csvContent : string) (config : Csv.PartialCSVConfig) :
  (Js.trim csvContent = "" →
   parseCSV Papa_parse csvContent config
   = Csv.Raised (Csv.CSVProcessingError "CSV content is empty"
                   (Some "EMPTY_CONTENT") Csv.NoDetails))
  ∧ (Js.trim csvContent ≠ "" →
     ∃ promise,
       parseCSV Papa_parse csvContent config = Csv.Value promise
       ∧ ∀ parsed,
           promise = Csv.Value parsed →
           ∃ results,
             Papa_parse csvContent (fullConfig config) = Papa.complete results
             ∧ Papa.errors results = []
             ∧ Csv.data parsed = Papa.data results
             ∧ Csv.data parsed ≠ []
             ∧ Csv.columns parsed = default [] (Papa.fields (Papa.meta results))
             ∧ Csv.meta parsed = Papa.meta results
             ∧ (Csv.header (fullConfig config) = true → Csv.columns parsed ≠ [])).
Proof.
  unfold parseCSV. split; intros Hcontent.
  - by rewrite (blank_test_true _ Hcontent).
  - pose proof (parseCSV_resolved Papa_parse csvContent config) as Hresolved.
    unfold parseCSV in Hresolved. rewrite (blank_test_false _ Hcontent) in Hresolved.
    rewrite (blank_test_false _ Hcontent). eexists. split; [reflexivity|].
    intros parsed Hparsed. apply Hresolved. by rewrite Hparsed.
Qed.

(** X16. One error reported by PapaParse rejects the whole file: the
    promise of [parseCSV] rejects with [PARSE_ERROR], its message listing
    every error as "Row <row>: <message>" joined by "; ", whatever rows
    were parsed. *)
Theorem parseCSV_rejects_on_any_parse_error
    (Papa_parse : string → Csv.CSVConfig → Papa.Callback)
    (csvContent : string) (config : Csv.PartialCSVConfig) (results : Papa.ParseResult) :
  Js.trim csvContent ≠ "" →
  Papa_parse csvContent (fullConfig config) = Papa.complete results →
  Papa.errors results ≠ [] →
  parseCSV Papa_parse csvContent config
  = Csv.Value
      (Csv.Raised
         (Csv.CSVProcessingError
            ("CSV parsing errors: "
             +:+ JsString.join "; " (describe_parse_error <$> Papa.errors results))
            (Some "PARSE_ERROR") (Csv.ParseErrors (Papa.errors results)))).
Proof.
  intros Hcontent Hpapa Herrors. unfold parseCSV.
  rewrite (blank_test_false _ Hcontent), Hpapa. unfold parseCSV_settle.
  by destruct (Papa.errors results).
Qed.

Lemma validateCSVStructure_valid (parsedData : Csv.ParsedCSVData) :
  Csv.isValid (validateCSVStructure parsedData) = true ↔
  Csv.data parsedData ≠ [] ∧ Csv.columns parsedData ≠ [].
Proof.
  unfold validateCSVStructure. cbn [Csv.isValid].
  rewrite bool_decide_eq_true.
  destruct (Csv.data parsedData) as [|row rows]; cbn [length].
  - cbn. split; [done|]. by intros [? _].
  - destruct (Z.eqb_spec (Z.of_nat (S (length rows))) 0) as [Hzero|_]; [lia|].
    case_bool_decide as Hcolumns; cbn; [split; [done|by intros [_ ?]]|done].
Qed.

(** X17. What [parseCSV] resolves with under a configuration with headers
    on, the default one included, passes [validateCSVStructure]: it is
    valid and has no errors. *)
Theorem parsed_data_is_valid
    (Papa_parse : string → Csv.CSVConfig → Papa.Callback)
    (csvContent : string) (config : Csv.PartialCSVConfig) (parsed : Csv.ParsedCSVData) :
  Csv.header (fullConfig config) = true →
  parseCSV Papa_parse csvContent config = Csv.Value (Csv.Value parsed) →
  Csv.isValid (validateCSVStructure parsed) = true
  ∧ Csv.errors (validateCSVStructure parsed) = [].
Proof.
  intros Hheader Hparse.
  assert (Csv.data parsed ≠ [] ∧ Csv.columns parsed ≠ []) as Hvalid.
  { destruct (parseCSV_resolved _ _ _ _ Hparse)
      as (results & _ & _ & _ & Hdata & _ & _ & Hcolumns).
    split; [done|by apply Hcolumns]. }
  pose proof (proj2 (validateCSVStructure_valid parsed) Hvalid) as Hok.
  split; [exact Hok|].
  unfold validateCSVStructure in Hok. cbn [Csv.isValid] in Hok.
  by apply bool_decide_eq_true in Hok.
Qed.

Lemma parseCSV_raises_own_errors
    (Papa_parse : string → Csv.CSVConfig → Papa.Callback)
    (csvContent : string) (config : Csv.PartialCSVConfig) (error : Csv.Thrown) :
  await_call (parseCSV Papa_parse csvContent config) = Csv.Raised error →
  ∃ message code details, error = Csv.CSVProcessingError message code details.
Proof.
  unfold parseCSV.
  destruct (String.eqb csvContent "" || String.eqb (Js.trim csvContent) "").
  { intros [= <-]. eauto. }
  cbn [await_call]. unfold parseCSV_settle.
  destruct (Papa_parse csvContent (fullConfig config)) as [results|en em];
    [|intros [= <-]; eauto].
  destruct (Papa.errors results); [|intros [= <-]; eauto].
  destruct (Papa.data results); [intros [= <-]; eauto|].
  destruct (Csv.header (fullConfig config) && _); [intros [= <-]; eauto|done].
Qed.

(** X18. [readCSVFile] checks the type of the file, then its size, and
    only then reads it. A file that neither is named "*.csv" (in any
    case) nor has the type "text/csv" is rejected with [INVALID_FILE_TYPE],
    whatever its size; one of more than 10 MB (10485760 bytes) with
    [FILE_TOO_LARGE]. Any other file whose text can be read settles as
    [parseCSV] on that text does. Whatever the file, the promise rejects
    with nothing but a [CSVProcessingError]. *)
Theorem readCSVFile_checks_type_then_size
    (Papa_parse : string → Csv.CSVConfig → Papa.Callback)
    (file : Csv.File) (config : Csv.PartialCSVConfig) :
  (looks_like_csv file = false →
   readCSVFile Papa_parse (Some file) config
   = Csv.Raised (Csv.CSVProcessingError "File must be a CSV file (.csv)"
                   (Some "INVALID_FILE_TYPE")
                   (Csv.FileType (Csv.name file) (Csv.type file))))
  ∧ (looks_like_csv file = true → 10485760 < Csv.size file →
     readCSVFile Papa_parse (Some file) config
     = Csv.Raised (Csv.CSVProcessingError "File size exceeds 10MB limit"
                     (Some "FILE_TOO_LARGE") (Csv.FileSize (Csv.size file) 10485760)))
  ∧ (∀ csvContent,
       looks_like_csv file = true → Csv.size file ≤ 10485760 →
       Csv.text file = Csv.Value csvContent →
       readCSVFile Papa_parse (Some file) config
       = await_call (parseCSV Papa_parse csvContent config))
  ∧ (∀ given error,
       readCSVFile Papa_parse given config = Csv.Raised error →
       ∃ message code details, error = Csv.CSVProcessingError message code details).
Proof.
  assert (∀ f, negb (JsString.endsWith ".csv" (JsString.toLowerCase (Csv.name f)))
               && negb (String.eqb (Csv.type f) "text/csv")
               = negb (looks_like_csv f)) as Htype.
  { intros f. unfold looks_like_csv. by rewrite negb_orb. }
  split_and!.
  - intros Hlooks. unfold readCSVFile. by rewrite Htype, Hlooks.
  - intros Hlooks Hsize. unfold readCSVFile. rewrite Htype, Hlooks. cbn [negb].
    cbv zeta. change (10 * 1024 * 1024) with 10485760.
    by replace (10485760 <? Csv.size file) with true by lia.
  - intros csvContent Hlooks Hsize Htext. unfold readCSVFile.
    rewrite Htype, Hlooks. cbn [negb]. cbv zeta. change (10 * 1024 * 1024) with 10485760.
    replace (10485760 <? Csv.size file) with false by lia. rewrite Htext.
    destruct (await_call (parseCSV Papa_parse csvContent config)) as [parsed|error] eqn:Hparse;
      [done|].
    by apply parseCSV_raises_own_errors in Hparse as (m & c & d & ->).
  - intros [f|] error; unfold readCSVFile; [|intros [= <-]; eauto].
    destruct (negb _ && negb _); [intros [= <-]; eauto|].
    cbv zeta. destruct (_ <? Csv.size f); [intros [= <-]; eauto|].
    destruct (Csv.text f) as [csvContent|[m c d|en em]].
    + destruct (await_call (parseCSV Papa_parse csvContent config)) as [parsed|e] eqn:Hparse;
        [done|].
      apply parseCSV_raises_own_errors in Hparse as (m & c & d & ->).
      intros [= <-]. eauto.
    + intros [= <-]. eauto.
    + intros [= <-]. eauto.
Qed.

(** ** Validating the structure *)

(** X19. [validateCSVStructure] finds the data valid exactly when there is
    at least one row and at least one column, which is when its list of
    errors is empty, and which is what [getCSVStats] reports as not empty
    and with headers. *)
Theorem validateCSVStructure_valid_iff_rows_and_columns (parsedData : Csv.ParsedCSVData) :
  (Csv.isValid (validateCSVStructure parsedData) = true
   ↔ Csv.data parsedData ≠ [] ∧ Csv.columns parsedData ≠ [])
  ∧ (Csv.isValid (validateCSVStructure parsedData) = true
     ↔ Csv.errors (validateCSVStructure parsedData) = [])
  ∧ (Csv.isValid (validateCSVStructure parsedData) = true
     ↔ Csv.isEmpty (getCSVStats parsedData) = false
       ∧ Csv.hasHeaders (getCSVStats parsedData) = true).
Proof.
  split_and!.
  - apply validateCSVStructure_valid.
  - unfold validateCSVStructure. cbn [Csv.isValid Csv.errors]. apply bool_decide_eq_true.
  - rewrite validateCSVStructure_valid. unfold getCSVStats. cbn [Csv.isEmpty Csv.hasHeaders].
    destruct (Csv.data parsedData), (Csv.columns parsedData); cbn [length];
      split; intros [H1 H2]; split; try done; lia.
Qed.

Lemma forallb_false {A} (test : A → bool) (l : list A) :
  forallb test l = false ↔ ∃ x, x ∈ l ∧ test x = false.
Proof.
  induction l as [|a l IH]; cbn.
  - split; [done|]. intros (x & Hx & _). by apply elem_of_nil in Hx.
  - rewrite andb_false_iff, IH. split.
    + intros [Ha|(x & Hx & Htest)]; [exists a|exists x]; split; try done; [by left|by right].
    + intros (x & [->|Hx]%elem_of_cons & Htest); [by left|right; eauto].
Qed.

Lemma hasConsistentKeys_false (data : list (gmap string Cell)) :
  hasConsistentKeys data = false ↔
  ∃ first row, data !! 0%nat = Some first ∧ row ∈ take 10 data ∧ size row ≠ size first.
Proof.
  unfold hasConsistentKeys. cbv zeta.
  destruct data as [|first rest].
  - cbn. split; [done|]. by intros (first & row & [=] & _).
  - change (take 10 (first :: rest)) with (first :: take 9 rest).
    rewrite forallb_false. split.
    + intros (row & Hrow & Hsize%Nat.eqb_neq). by exists first, row.
    + intros (f & row & [= <-] & Hrow & Hsize). exists row. split; [done|].
      by apply Nat.eqb_neq.
Qed.

(** X20. Each warning of [validateCSVStructure] has its own condition. The
    one about detection is given when there are columns and
    [detectMedicationColumn] finds none. The one about a large file is
    given when there are more than 1000 rows. The one about inconsistent
    columns is given when there are more than 10 rows and one of the first
    ten has another number of fields than the first row: rows after the
    tenth are never looked at. *)
Theorem validateCSVStructure_warnings (parsedData : Csv.ParsedCSVData) :
  ("Could not auto-detect medication column - manual selection required"
     ∈ Csv.warnings (validateCSVStructure parsedData)
   ↔ Csv.columns parsedData ≠ []
     ∧ detectMedicationColumn (Csv.columns parsedData) = None)
  ∧ ("Large file detected ("
       +:+ Js.String_of_number (Z.of_nat (length (Csv.data parsedData)))
       +:+ " rows) - processing may take several minutes"
       ∈ Csv.warnings (validateCSVStructure parsedData)
     ↔ (1000 < length (Csv.data parsedData))%nat)
  ∧ ("Inconsistent number of columns detected across rows"
       ∈ Csv.warnings (validateCSVStructure parsedData)
     ↔ (10 < length (Csv.data parsedData))%nat
       ∧ ∃ first row,
           Csv.data parsedData !! 0%nat = Some first
           ∧ row ∈ take 10 (Csv.data parsedData)
           ∧ size row ≠ size first).
Proof.
  unfold validateCSVStructure. cbv zeta. cbn [Csv.warnings].
  set (rows := Z.of_nat (length (Csv.data parsedData))).
  assert (falsy (detectMedicationColumn (Csv.columns parsedData)) = true
          ↔ detectMedicationColumn (Csv.columns parsedData) = None) as Hfalsy.
  { destruct (detectMedicationColumn (Csv.columns parsedData)) as [column|] eqn:Hdetect;
      [|done].
    apply detectMedicationColumn_None_or_named in Hdetect. cbn.
    split; [|done]. intros ->%String.eqb_eq. done. }
  rewrite <- hasConsistentKeys_false.
  split_and!; rewrite !elem_of_app.
  - split.
    + intros [Hin|[Hin|Hin]].
      * destruct (negb _ && falsy _) eqn:Hcond; [|by apply elem_of_nil in Hin].
        apply andb_true_iff in Hcond as [Hcolumns%negb_true_iff Hdetect].
        apply bool_decide_eq_false in Hcolumns. by rewrite <- Hfalsy.
      * destruct (1000 <? rows); [|by apply elem_of_nil in Hin].
        by apply list_elem_of_singleton in Hin.
      * destruct (_ && negb _); [|by apply elem_of_nil in Hin].
        by apply list_elem_of_singleton in Hin.
    + intros [Hcolumns Hdetect]. left.
      rewrite (bool_decide_eq_false_2 _ Hcolumns), (proj2 Hfalsy Hdetect). cbn. by left.
  - split.
    + intros [Hin|[Hin|Hin]].
      * destruct (negb _ && falsy _); [|by apply elem_of_nil in Hin].
        by apply list_elem_of_singleton in Hin.
      * destruct (1000 <? rows) eqn:Hrows; [lia|by apply elem_of_nil in Hin].
      * destruct (_ && negb _); [|by apply elem_of_nil in Hin].
        by apply list_elem_of_singleton in Hin.
    + intros Hrows. right. left. replace (1000 <? rows) with true by lia. by left.
  - split.
    + intros [Hin|[Hin|Hin]].
      * destruct (negb _ && falsy _); [|by apply elem_of_nil in Hin].
        by apply list_elem_of_singleton in Hin.
      * destruct (1000 <? rows); [|by apply elem_of_nil in Hin].
        by apply list_elem_of_singleton in Hin.
      * destruct (10 <? rows) eqn:Hrows; cbn [andb] in Hin; [|by apply elem_of_nil in Hin].
        destruct (hasConsistentKeys (Csv.data parsedData)); [by apply elem_of_nil in Hin|].
        split; [lia|done].
    + intros [Hrows Hkeys]. right. right.
      replace (10 <? rows) with true by lia. rewrite Hkeys. by left.
Qed.

(** * Properties of [handleNormalize] *)

Lemma page_drugNames_spec (data : list (gmap string Cell)) (selectedColumn name : string) :
  name ∈ page_drugNames data selectedColumn ↔
  name ≠ "" ∧ ∃ row, row ∈ data ∧ Js.trim (String_or_empty (get_property row selectedColumn)) = name.
Proof.
  unfold page_drugNames. rewrite list_elem_of_In, filter_In, in_map_iff.
  rewrite negb_true_iff, String.eqb_neq. split.
  - intros [(row & Hname & Hrow) Hne]. split; [done|]. exists row.
    by rewrite list_elem_of_In.
  - intros [Hne (row & Hrow & Hname)]. split; [|done]. exists row.
    by rewrite <- list_elem_of_In.
Qed.

Lemma genericName_or_NOT_FOUND_not_empty (result : NormalizationResult) :
  genericName_or_NOT_FOUND result ≠ "".
Proof.
  unfold genericName_or_NOT_FOUND. by destruct (genericName result) as [[|c generic]|].
Qed.

Lemma page_genericMap_fold (results : list NormalizationResult) : ∀ genericMap : gmap string string,
  NoDup (originalName <$> results) →
  (∀ result, result ∈ results →
     fold_left (λ (genericMap : gmap string string) result,
                  <[originalName result := genericName_or_NOT_FOUND result]> genericMap)
       results genericMap !! originalName result
     = Some (genericName_or_NOT_FOUND result))
  ∧ (∀ name, name ∉ originalName <$> results →
       fold_left (λ (genericMap : gmap string string) result,
                    <[originalName result := genericName_or_NOT_FOUND result]> genericMap)
         results genericMap !! name
       = genericMap !! name).
Proof.
  induction results as [|first later IH]; intros genericMap Hnodup.
  - split; [|done]. intros result Hin. by apply elem_of_nil in Hin.
  - rewrite fmap_cons in Hnodup. apply NoDup_cons in Hnodup as [Hfirst Hnodup].
    destruct (IH (<[originalName first := genericName_or_NOT_FOUND first]> genericMap)
                Hnodup) as [Hin Hout].
    cbn [fold_left]. split.
    + intros result [->|Hlater]%elem_of_cons; [|by apply Hin].
      rewrite (Hout _ Hfirst). apply lookup_insert_eq.
    + intros name Hname. rewrite fmap_cons in Hname.
      apply not_elem_of_cons in Hname as [Hne Hname].
      rewrite (Hout _ Hname). by apply lookup_insert_ne.
Qed.

Lemma handleNormalize_run (csvData : Csv.ParsedCSVData) (selectedColumn : string)
    (remote : Remote) (n : nat) :
  selectedColumn ≠ "" →
  ∃ results n' t,
    run (normalizeDrugNameBatch
           (JsString.Array_from_Set (page_drugNames (Csv.data csvData) selectedColumn))
           true DEFAULT_RXNORM_CONFIG) remote n
    = (Returns results, n', t)
    ∧ originalName <$> results
      = JsString.Array_from_Set (page_drugNames (Csv.data csvData) selectedColumn)
    ∧ run (handleNormalize (Some csvData) selectedColumn) remote n
      = (Returns (NormalizedData
                    (addGenericNameColumn (Csv.data csvData) selectedColumn
                       (page_genericMap results))),
         n', t).
Proof.
  intros Hcolumn.
  destruct (batch_run
              (JsString.Array_from_Set (page_drugNames (Csv.data csvData) selectedColumn))
              true DEFAULT_RXNORM_CONFIG remote n) as (results & n' & Hrun & Hnames).
  eexists results, n', _. split; [exact Hrun|]. split; [exact Hnames|].
  unfold handleNormalize. apply String.eqb_neq in Hcolumn as ->.
  rewrite run_try_catch. cbv zeta. rewrite run_bind, Hrun. cbv beta iota.
  rewrite run_ret. by rewrite app_nil_r.
Qed.

(** X21. With data loaded and a column chosen, [handleNormalize] never
    ends in an error: it runs one batch, over the distinct non-empty
    trimmed values of the column, and sets one row per row of the file, in
    order, the fields of the file unchanged. A row whose value is empty
    after trimming gets "NOT_FOUND"; any other row gets the generic name of
    the result looked up under its trimmed value, or "NOT_FOUND" when that
    result has none. *)
Theorem handleNormalize_joins_every_row
    (csvData : Csv.ParsedCSVData) (selectedColumn : string) (remote : Remote) (n : nat) :
  selectedColumn ≠ "" →
  ∃ results normalized n' t,
    run (handleNormalize (Some csvData) selectedColumn) remote n
    = (Returns (NormalizedData normalized), n', t)
    ∧ run (normalizeDrugNameBatch
             (JsString.Array_from_Set (page_drugNames (Csv.data csvData) selectedColumn))
             true DEFAULT_RXNORM_CONFIG) remote n
      = (Returns results, n', t)
    ∧ length normalized = length (Csv.data csvData)
    ∧ ∀ i row,
        Csv.data csvData !! i = Some row →
        ∃ out,
          normalized !! i = Some out
          ∧ (∀ field, field ≠ GENERIC_NAME_COLUMN → out !! field = row !! field)
          ∧ (Js.trim (String_or_empty (get_property row selectedColumn)) = "" →
             out !! GENERIC_NAME_COLUMN = Some (CellString "NOT_FOUND"))
          ∧ (Js.trim (String_or_empty (get_property row selectedColumn)) ≠ "" →
             ∃ result,
               result ∈ results
               ∧ originalName result = Js.trim (String_or_empty (get_property row selectedColumn))
               ∧ out !! GENERIC_NAME_COLUMN
                 = Some (CellString (genericName_or_NOT_FOUND result))).
Proof.
  intros Hcolumn.
  destruct (handleNormalize_run csvData selectedColumn remote n Hcolumn)
    as (results & n' & t & Hbatch & Hnames & Hrun).
  destruct (Array_from_Set_spec (page_drugNames (Csv.data csvData) selectedColumn))
    as [Hnodup Hunique].
  rewrite <- Hnames in Hnodup.
  destruct (page_genericMap_fold results ∅ Hnodup) as [Hin Hout].
  eexists results, _, n', t. split; [exact Hrun|]. split; [exact Hbatch|].
  split; [unfold addGenericNameColumn; apply length_map|].
  intros i row Hrow. eexists. split.
  { apply addGenericNameColumn_lookup. eauto. }
  split_and!.
  - intros field Hfield. by rewrite lookup_insert_ne.
  - intros Hkey. rewrite lookup_insert_eq, Hkey. unfold get_or_NOT_FOUND.
    fold (page_genericMap results) in Hout. rewrite Hout; [done|].
    rewrite Hnames, Hunique, page_drugNames_spec. by intros [? _].
  - intros Hkey.
    assert (Js.trim (String_or_empty (get_property row selectedColumn)) ∈ originalName <$> results)
      as (result & Hname & Hresult)%list_elem_of_fmap.
    { rewrite Hnames, Hunique, page_drugNames_spec. split; [done|].
      exists row. split; [|done]. by eapply list_elem_of_lookup_2. }
    exists result. split_and!; [done|done|].
    rewrite lookup_insert_eq, Hname. unfold get_or_NOT_FOUND.
    fold (page_genericMap results) in Hin. rewrite (Hin _ Hresult).
    by rewrite (proj2 (String.eqb_neq _ _) (genericName_or_NOT_FOUND_not_empty result)).
Qed.

(** X22. The results [handleNormalize] asks the batch for are one per
    distinct value: no name is looked up twice, none is empty, and a name
    is looked up exactly when it is the trimmed value some row has in the
    chosen column. *)
Theorem handleNormalize_looks_up_each_name_once
    (csvData : Csv.ParsedCSVData) (selectedColumn : string) (remote : Remote) (n : nat) :
  selectedColumn ≠ "" →
  ∃ results n' t,
    run (handleNormalize (Some csvData) selectedColumn) remote n
    = (Returns (NormalizedData
                  (addGenericNameColumn (Csv.data csvData) selectedColumn
                     (page_genericMap results))),
       n', t)
    ∧ run (normalizeDrugNameBatch (originalName <$> results) true DEFAULT_RXNORM_CONFIG)
          remote n
      = (Returns results, n', t)
    ∧ NoDup (originalName <$> results)
    ∧ ∀ name,
        name ∈ originalName <$> results ↔
        name ≠ ""
        ∧ ∃ row, row ∈ Csv.data csvData
                 ∧ Js.trim (String_or_empty (get_property row selectedColumn)) = name.
Proof.
  intros Hcolumn.
  destruct (handleNormalize_run csvData selectedColumn remote n Hcolumn)
    as (results & n' & t & Hbatch & Hnames & Hrun).
  destruct (Array_from_Set_spec (page_drugNames (Csv.data csvData) selectedColumn))
    as [Hnodup Hunique].
  exists results, n', t. rewrite Hnames. split_and!; [done|done|done|].
  intros name. by rewrite Hunique, page_drugNames_spec.
Qed.


(** X24. From a parsed file to the file to download: when [parseCSV]
    resolved with [parsed] and a column is chosen, the rows
    [handleNormalize] sets are not empty, so [generateCSV] on them does not
    throw [NO_DATA] and returns what PapaParse unparses from them. *)
Theorem parsed_and_normalized_data_is_generated
    (Papa_parse : string → Csv.CSVConfig → Papa.Callback)
    (Papa_unparse : list (gmap string Cell) → string → bool → string)
    (csvContent : string) (config exportConfig : Csv.PartialCSVConfig)
    (parsed : Csv.ParsedCSVData) (selectedColumn : string) (remote : Remote) (n : nat) :
  parseCSV Papa_parse csvContent config = Csv.Value (Csv.Value parsed) →
  selectedColumn ≠ "" →
  ∃ normalized n' t,
    run (handleNormalize (Some parsed) selectedColumn) remote n
    = (Returns (NormalizedData normalized), n', t)
    ∧ length normalized = length (Csv.data parsed)
    ∧ generateCSV Papa_unparse normalized exportConfig
      = Csv.Value (Papa_unparse normalized (Csv.delimiter (fullConfig exportConfig))
                     (Csv.header (fullConfig exportConfig))).
Proof.
  intros Hparse Hcolumn.
  destruct (parseCSV_resolved _ _ _ _ Hparse) as (_ & _ & _ & _ & Hdata & _).
  destruct (handleNormalize_run parsed selectedColumn remote n Hcolumn)
    as (results & n' & t & _ & _ & Hrun).
  eexists _, n', t. split; [exact Hrun|].
  split; [unfold addGenericNameColumn; apply length_map|].
  unfold generateCSV, addGenericNameColumn.
  by destruct (Csv.data parsed).
Qed.

(** * The properties at work on sample runs *)

(** A 404 ends [fetchWithRetry] after one fetch; a 500 followed by a 200
    ends it with the second response, one pause of 1000 ms in between. *)
Lemma retry_404_once_and_500_then_200 :
  (∃ response,
     missing_remote 0%nat "u" = Resolved response
     ∧ run (fetchWithRetry "u" DEFAULT_RXNORM_CONFIG) missing_remote 0
       = (Throws (RxNormAPIError
                    ("HTTP " +:+ Js.String_of_number (Wire.status response) +:+ ": "
                     +:+ Wire.statusText response)
                    (Some "HTTP_ERROR") (Some (Wire.status response)) None),
          1%nat, [Fetch "u" 10000]))
  ∧ (∃ response,
       flaky_remote 1%nat (search_url DEFAULT_RXNORM_CONFIG "Tylenol") = Resolved response
       ∧ run (fetchWithRetry (search_url DEFAULT_RXNORM_CONFIG "Tylenol") DEFAULT_RXNORM_CONFIG)
             flaky_remote 0
         = (Returns response, 2%nat,
            [Fetch (search_url DEFAULT_RXNORM_CONFIG "Tylenol") 10000; Sleep (1000 * 1);
             Fetch (search_url DEFAULT_RXNORM_CONFIG "Tylenol") 10000])).
Proof.
  split.
  - apply (fetchWithRetry_4xx_final_other_failures_retried
             "u" DEFAULT_RXNORM_CONFIG missing_remote 0 0); [reflexivity|lia|reflexivity].
  - apply (fetchWithRetry_4xx_final_other_failures_retried
             (search_url DEFAULT_RXNORM_CONFIG "Tylenol") DEFAULT_RXNORM_CONFIG flaky_remote 0 1).
    + reflexivity.
    + intros j Hj. assert (j = 0%nat) as -> by lia. reflexivity.
    + reflexivity.
Defined.

(** The three outcomes of [normalizeDrugName] on [sample_remote]. *)
Lemma normalize_sample_names :
  (∃ n' t,
     run (normalizeDrugName "xyz-not-a-drug" DEFAULT_RXNORM_CONFIG) sample_remote 0
     = (Returns {| originalName := "xyz-not-a-drug"; genericName := None; rxcui := None;
                   status := NOT_FOUND;
                   errorMessage := Some "Drug not found in RxNorm database" |},
        n', t))
  ∧ (∃ n' t,
       run (normalizeDrugName "orphan" DEFAULT_RXNORM_CONFIG) sample_remote 0
       = (Returns {| originalName := "orphan"; genericName := None; rxcui := Some "999";
                     status := NOT_FOUND;
                     errorMessage := Some "Generic name not found for this drug" |},
          n', t))
  ∧ (∃ n' t,
       run (normalizeDrugName "Tylenol" DEFAULT_RXNORM_CONFIG) sample_remote 0
       = (Returns tylenol_result, n', t)).
Proof.
  split_and!; eexists _, _.
  - eapply (normalizeDrugName_composes_the_lookups
              "xyz-not-a-drug" DEFAULT_RXNORM_CONFIG sample_remote 0);
      [cbv; reflexivity|reflexivity].
  - eapply (normalizeDrugName_composes_the_lookups
              "orphan" DEFAULT_RXNORM_CONFIG sample_remote 0);
      [cbv; reflexivity|discriminate|cbv; reflexivity|reflexivity].
  - eapply (normalizeDrugName_composes_the_lookups
              "Tylenol" DEFAULT_RXNORM_CONFIG sample_remote 0);
      [cbv; reflexivity|discriminate|cbv; reflexivity|discriminate].
Defined.

(** The status invariant on the result for "Tylenol". *)
Lemma status_invariant_of_tylenol_result :
  (status tylenol_result = SUCCESS
   ↔ is_Some (genericName tylenol_result) ∧ is_Some (rxcui tylenol_result))
  ∧ (status tylenol_result = NOT_FOUND ∨ status tylenol_result = ERROR →
     genericName tylenol_result = None).
Proof.
  eapply (normalizeDrugName_status_invariant "Tylenol" DEFAULT_RXNORM_CONFIG sample_remote 0).
  cbv. reflexivity.
Defined.

(** Three timeouts in [searchDrug] end up in an [ERROR] result. *)
Lemma normalize_survives_timeouts :
  ∃ n' t,
    run (normalizeDrugName "Tylenol" DEFAULT_RXNORM_CONFIG) timing_out_remote 0
    = (Returns {| originalName := "Tylenol"; genericName := None; rxcui := None;
                  status := ERROR;
                  errorMessage :=
                    Some "Failed after 3 attempts: Request timeout after 10000ms" |},
       n', t).
Proof.
  destruct (normalizeDrugName_never_throws
              "Tylenol" [] false DEFAULT_RXNORM_CONFIG timing_out_remote 0)
    as (_ & Hsearch & _).
  eexists _, _.
  apply (Hsearch (RxNormAPIError "Failed after 3 attempts: Request timeout after 10000ms"
                    (Some "MAX_RETRIES_EXCEEDED") None (Some "Tylenol"))).
  cbv. reflexivity.
Defined.

(** With the default configuration and every request timing out, the
    message counts 3 attempts and quotes the 10000 ms timeout. *)
Lemma three_timeouts_then_max_retries :
  ∃ n' t,
    run (normalizeDrugName "Tylenol" DEFAULT_RXNORM_CONFIG) timing_out_remote 0
    = (Returns {| originalName := "Tylenol"; genericName := None; rxcui := None;
                  status := ERROR;
                  errorMessage :=
                    Some ("Failed after " +:+ Js.String_of_number 3 +:+ " attempts: "
                          +:+ ("Request timeout after " +:+ Js.String_of_number 10000
                               +:+ "ms")) |},
       n', t).
Proof.
  apply (fetchWithRetry_linear_backoff_then_max_retries
           "u" "Tylenol" DEFAULT_RXNORM_CONFIG timing_out_remote 0).
  - cbn. lia.
  - discriminate.
  - intros j u. reflexivity.
Defined.

(** A blank name and an empty identifier are rejected before any fetch. *)
Lemma blank_name_and_empty_identifier_rejected :
  run (searchDrug "   " DEFAULT_RXNORM_CONFIG) sample_remote 0
  = (Throws (RxNormAPIError "Drug name cannot be empty" (Some "INVALID_INPUT") None None),
     0%nat, [])
  ∧ run (getGenericName "" DEFAULT_RXNORM_CONFIG) sample_remote 0
    = (Throws (RxNormAPIError "RxCUI cannot be empty" (Some "INVALID_INPUT") None None),
       0%nat, []).
Proof.
  split;
    apply (lookups_reject_empty_input_at_once
             "   " "" DEFAULT_RXNORM_CONFIG sample_remote 0); reflexivity.
Defined.

(** An unknown name gives a null [rxcui]; a name whose identifier has no
    ingredient keeps the identifier. *)
Lemma orphan_keeps_rxcui_unknown_has_none :
  (∃ result n' t,
     run (normalizeDrugName "xyz-not-a-drug" DEFAULT_RXNORM_CONFIG) sample_remote 0
     = (Returns result, n', t)
     ∧ status result = NOT_FOUND ∧ rxcui result = None)
  ∧ (∃ result n' t,
       run (normalizeDrugName "orphan" DEFAULT_RXNORM_CONFIG) sample_remote 0
       = (Returns result, n', t)
       ∧ status result = NOT_FOUND ∧ rxcui result = Some "999").
Proof.
  split.
  - destruct (proj1 (NOT_FOUND_keeps_rxcui_only_after_search_succeeded
                       "xyz-not-a-drug" DEFAULT_RXNORM_CONFIG sample_remote 0)
                _ _ _ eq_refl eq_refl) as (result & Hrun).
    eexists result, _, _. exact Hrun.
  - destruct (proj1 (proj2 (NOT_FOUND_keeps_rxcui_only_after_search_succeeded
                              "orphan" DEFAULT_RXNORM_CONFIG sample_remote 0))
                "999" _ _ _ _ _ eq_refl ltac:(discriminate) eq_refl eq_refl)
      as (result & Hrun).
    eexists result, _, _. exact Hrun.
Defined.

(** The row of [zero_rows] holds the number 0 and [zero_names] has an
    entry under "0": the column lists "0", the row gets "NOT_FOUND". *)
Lemma zero_is_listed_but_not_joined :
  zero_names !! "0" = Some "placebo"
  ∧ "0" ∈ extractColumnValues zero_rows "DESCRIPTION"
  ∧ ∃ out,
      addGenericNameColumn zero_rows "DESCRIPTION" zero_names !! 0%nat = Some out
      ∧ out !! GENERIC_NAME_COLUMN = Some (CellString "NOT_FOUND").
Proof.
  split; [reflexivity|].
  refine (proj2 (addGenericNameColumn_joins_zero_under_the_empty_string
                   zero_rows "DESCRIPTION" zero_names 0%nat _ zero
                   eq_refl eq_refl eq_refl eq_refl)).
Defined.

(** A decidable proposition that holds by computation. *)
Ltac decide_by_computing := refine (bool_decide_unpack _ _); vm_compute; exact I.

(** Three timeouts under the default configuration: pauses of 1000 and
    2000 ms, within the budget. *)
Lemma pause_budget_of_three_timeouts :
  0 ≤ sleep_total (retry_trace "u" DEFAULT_RXNORM_CONFIG 1 3)
  ∧ 2 * sleep_total (retry_trace "u" DEFAULT_RXNORM_CONFIG 1 3)
    ≤ retryDelay DEFAULT_RXNORM_CONFIG
      * (retryAttempts DEFAULT_RXNORM_CONFIG * (retryAttempts DEFAULT_RXNORM_CONFIG - 1)).
Proof.
  eapply (fetchWithRetry_pause_budget "u" DEFAULT_RXNORM_CONFIG timing_out_remote 0).
  - cbn. lia.
  - cbv. reflexivity.
Defined.

(** A 500 and then the candidates for "Tylenol": the first candidate is
    returned after two fetches. *)
Lemma first_candidate_after_one_retry :
  run (searchDrug "Tylenol" DEFAULT_RXNORM_CONFIG) flaky_remote 0
  = (Returns (Wire.rxcui <$> head [ {| Wire.rxcui := "202433" |} ]), (0 + 2)%nat,
     retry_trace (search_url DEFAULT_RXNORM_CONFIG "Tylenol") DEFAULT_RXNORM_CONFIG 1 2).
Proof.
  apply (searchDrug_returns_first_candidate "Tylenol" DEFAULT_RXNORM_CONFIG flaky_remote
           0 1 (ok_response (candidates ["202433"])) (candidates ["202433"])).
  - discriminate.
  - split_and!; [cbn; lia| |vm_compute; reflexivity|reflexivity].
    intros j Hj. assert (j = 0%nat) as -> by lia. reflexivity.
  - reflexivity.
  - reflexivity.
Defined.

(** A body that is not JSON ends both lookups after one fetch. *)
Lemma garbled_body_ends_both_lookups :
  run (searchDrug "Tylenol" DEFAULT_RXNORM_CONFIG) garbled_remote 0
  = (Throws (RxNormAPIError
               ("Unexpected error searching for drug: "
                +:+ toString (OtherError "SyntaxError" "Unexpected token <"))
               (Some "UNKNOWN_ERROR") None (Some "Tylenol")),
     (0 + 1)%nat,
     retry_trace (search_url DEFAULT_RXNORM_CONFIG "Tylenol") DEFAULT_RXNORM_CONFIG 1 1)
  ∧ run (getGenericName "202433" DEFAULT_RXNORM_CONFIG) garbled_remote 0
    = (Throws (RxNormAPIError
                 ("Unexpected error getting generic name: "
                  +:+ toString (OtherError "SyntaxError" "Unexpected token <"))
                 (Some "UNKNOWN_ERROR") None None),
       (0 + 1)%nat,
       retry_trace (related_url DEFAULT_RXNORM_CONFIG "202433") DEFAULT_RXNORM_CONFIG 1 1).
Proof.
  pose proof (unreadable_body_is_not_retried "Tylenol" "202433" DEFAULT_RXNORM_CONFIG
                garbled_remote 0 0
                {| Wire.status := 200; Wire.statusText := "OK";
                   Wire.body := Wire.NotJson "SyntaxError" "Unexpected token <" |}
                "SyntaxError" "Unexpected token <" eq_refl) as [Hsearch Hgeneric].
  split.
  - apply Hsearch; [discriminate|].
    split_and!; [cbn; lia|intros j Hj; lia|reflexivity|reflexivity].
  - apply Hgeneric; [discriminate|].
    split_and!; [cbn; lia|intros j Hj; lia|reflexivity|reflexivity].
Defined.

(** The first IN group has no names: the result is null although a later
    IN group has one. *)
Lemma empty_first_IN_group_gives_null :
  run (getGenericName "202433" DEFAULT_RXNORM_CONFIG) two_IN_groups_remote 0
  = (Returns (Wire.name <$> (Some [] ≫= head)), (0 + 1)%nat,
     retry_trace (related_url DEFAULT_RXNORM_CONFIG "202433") DEFAULT_RXNORM_CONFIG 1 1).
Proof.
  apply (getGenericName_reads_first_IN_group "202433" DEFAULT_RXNORM_CONFIG
           two_IN_groups_remote 0 0 (ok_response two_IN_groups) two_IN_groups
           [ {| Wire.tty := "BN";
                Wire.conceptProperties := Some [ {| Wire.name := "Tylenol" |} ] |} ]
           [ {| Wire.tty := "IN";
                Wire.conceptProperties := Some [ {| Wire.name := "acetaminophen" |} ] |} ]
           {| Wire.tty := "IN"; Wire.conceptProperties := Some [] |}).
  - discriminate.
  - split_and!; [cbn; lia|intros j Hj; lia|reflexivity|reflexivity].
  - reflexivity.
  - reflexivity.
  - repeat constructor. discriminate.
  - reflexivity.
Defined.

(** The column suggested for PATIENT, DESCRIPTION, DATE. *)
Lemma DESCRIPTION_is_suggested_and_valid :
  "DESCRIPTION" ∈ ["PATIENT"; "DESCRIPTION"; "DATE"]
  ∧ validateColumn ["PATIENT"; "DESCRIPTION"; "DATE"] "DESCRIPTION" = Csv.Value true
  ∧ ∃ keyword, keyword ∈ MEDICATION_COLUMN_KEYWORDS
               ∧ Js.includes keyword (JsString.toLowerCase "DESCRIPTION") = true.
Proof.
  apply (detectMedicationColumn_suggests_a_given_column ["PATIENT"; "DESCRIPTION"; "DATE"]).
  vm_compute. reflexivity.
Defined.

(** "NAME" is the keyword "name" up to case and wins over "Drug Name",
    which only contains the earlier keyword "drug". *)
Lemma NAME_beats_Drug_Name :
  detectMedicationColumn ["Drug Name"; "NAME"] = Some "NAME".
Proof.
  apply (detectMedicationColumn_prefers_exact_names ["Drug Name"; "NAME"]
           ["medication"; "drug"; "medicine"; "description"] ["med"; "rx"; "prescription"]
           "name" "NAME" 1).
  - reflexivity.
  - apply Forall_forall. decide_by_computing.
  - reflexivity.
  - reflexivity.
  - decide_by_computing.
Defined.

(** No name is a keyword; "Med List" is the first to contain "med", the
    first keyword any name contains. *)
Lemma Med_List_is_the_fallback :
  detectMedicationColumn ["PATIENT"; "Med List"; "rx_code"] = Some "Med List".
Proof.
  apply (detectMedicationColumn_falls_back_to_partial_names
           ["PATIENT"; "Med List"; "rx_code"]
           ["medication"; "drug"; "medicine"; "description"; "name"] ["rx"; "prescription"]
           "med" "Med List" 1).
  - apply Forall_forall. decide_by_computing.
  - reflexivity.
  - intros earlier other Hearlier Hother. revert other Hother. apply Forall_forall.
    revert earlier Hearlier. apply Forall_forall.
    decide_by_computing.
  - reflexivity.
  - vm_compute. reflexivity.
  - apply Forall_forall. decide_by_computing.
Defined.

(** Two rows of [sample_rows] hold "Tylenol" up to white space and get the
    same GENERIC_NAME. *)
Lemma both_Tylenol_rows_alike :
  ∃ out1 out2,
    addGenericNameColumn sample_rows "DESCRIPTION" sample_names !! 0%nat = Some out1
    ∧ addGenericNameColumn sample_rows "DESCRIPTION" sample_names !! 2%nat = Some out2
    ∧ out1 !! GENERIC_NAME_COLUMN = out2 !! GENERIC_NAME_COLUMN.
Proof.
  eexists _, _. split; [reflexivity|]. split; [reflexivity|].
  eapply (proj2 (proj2 (addGenericNameColumn_fills_every_row_alike
                          sample_rows "DESCRIPTION" sample_names)) 0%nat 2%nat);
    [reflexivity|reflexivity|reflexivity|reflexivity|].
  left. split_and!; vm_compute; reflexivity.
Defined.

(** Blank content, and content PapaParse completes on. *)
Lemma parseCSV_on_blank_content :
  parseCSV sample_Papa_parse "   " no_overrides
  = Csv.Raised (Csv.CSVProcessingError "CSV content is empty"
                  (Some "EMPTY_CONTENT") Csv.NoDetails).
Proof.
  apply (parseCSV_throws_on_blank_and_resolves_with_rows sample_Papa_parse "   " no_overrides).
  reflexivity.
Defined.

(** Two errors of PapaParse in one message. *)
Lemma parseCSV_on_two_errors :
  parseCSV broken_Papa_parse "PATIENT,DESCRIPTION" no_overrides
  = Csv.Value
      (Csv.Raised
         (Csv.CSVProcessingError
            ("CSV parsing errors: "
             +:+ JsString.join "; "
                   (describe_parse_error
                      <$> [ {| Papa.row := Some 2; Papa.message := "Too few fields" |};
                            {| Papa.row := None;
                               Papa.message := "Quoted field unterminated" |} ]))
            (Some "PARSE_ERROR")
            (Csv.ParseErrors
               [ {| Papa.row := Some 2; Papa.message := "Too few fields" |};
                 {| Papa.row := None; Papa.message := "Quoted field unterminated" |} ]))).
Proof.
  apply (parseCSV_rejects_on_any_parse_error broken_Papa_parse "PATIENT,DESCRIPTION"
           no_overrides
           {| Papa.data := sample_rows;
              Papa.errors :=
                [ {| Papa.row := Some 2; Papa.message := "Too few fields" |};
                  {| Papa.row := None; Papa.message := "Quoted field unterminated" |} ];
              Papa.meta := sample_meta |}).
  - discriminate.
  - reflexivity.
  - discriminate.
Defined.

(** The parsed sample is valid. *)
Lemma sample_parsed_is_valid :
  Csv.isValid (validateCSVStructure sample_parsed) = true
  ∧ Csv.errors (validateCSVStructure sample_parsed) = [].
Proof.
  apply (parsed_data_is_valid sample_Papa_parse "PATIENT,DESCRIPTION" no_overrides).
  - reflexivity.
  - reflexivity.
Defined.

(** A file of exactly 10 MB named "MEDS.CSV" is read and parsed. *)
Lemma sample_file_is_parsed :
  readCSVFile sample_Papa_parse (Some sample_file) no_overrides
  = await_call (parseCSV sample_Papa_parse "PATIENT,DESCRIPTION" no_overrides).
Proof.
  apply (readCSVFile_checks_type_then_size sample_Papa_parse sample_file no_overrides).
  - reflexivity.
  - cbn. lia.
  - reflexivity.
Defined.

(** [handleNormalize] on the parsed sample, column DESCRIPTION. *)
Lemma handleNormalize_on_sample_joins :
  ∃ results normalized n' t,
    run (handleNormalize (Some sample_parsed) "DESCRIPTION") sample_remote 0
    = (Returns (NormalizedData normalized), n', t)
    ∧ run (normalizeDrugNameBatch
             (JsString.Array_from_Set (page_drugNames (Csv.data sample_parsed) "DESCRIPTION"))
             true DEFAULT_RXNORM_CONFIG) sample_remote 0
      = (Returns results, n', t)
    ∧ length normalized = length (Csv.data sample_parsed)
    ∧ ∀ i row,
        Csv.data sample_parsed !! i = Some row →
        ∃ out,
          normalized !! i = Some out
          ∧ (∀ field, field ≠ GENERIC_NAME_COLUMN → out !! field = row !! field)
          ∧ (Js.trim (String_or_empty (get_property row "DESCRIPTION")) = "" →
             out !! GENERIC_NAME_COLUMN = Some (CellString "NOT_FOUND"))
          ∧ (Js.trim (String_or_empty (get_property row "DESCRIPTION")) ≠ "" →
             ∃ result,
               result ∈ results
               ∧ originalName result = Js.trim (String_or_empty (get_property row "DESCRIPTION"))
               ∧ out !! GENERIC_NAME_COLUMN
                 = Some (CellString (genericName_or_NOT_FOUND result))).
Proof.
  apply (handleNormalize_joins_every_row sample_parsed "DESCRIPTION" sample_remote 0).
  discriminate.
Defined.

Lemma handleNormalize_on_sample_names :
  ∃ results n' t,
    run (handleNormalize (Some sample_parsed) "DESCRIPTION") sample_remote 0
    = (Returns (NormalizedData
                  (addGenericNameColumn (Csv.data sample_parsed) "DESCRIPTION"
                     (page_genericMap results))),
       n', t)
    ∧ run (normalizeDrugNameBatch (originalName <$> results) true DEFAULT_RXNORM_CONFIG)
          sample_remote 0
      = (Returns results, n', t)
    ∧ NoDup (originalName <$> results)
    ∧ ∀ name,
        name ∈ originalName <$> results ↔
        name ≠ ""
        ∧ ∃ row, row ∈ Csv.data sample_parsed
                 ∧ Js.trim (String_or_empty (get_property row "DESCRIPTION")) = name.
Proof.
  apply (handleNormalize_looks_up_each_name_once sample_parsed "DESCRIPTION" sample_remote 0).
  discriminate.
Defined.


Lemma sample_is_parsed_normalized_and_generated :
  ∃ normalized n' t,
    run (handleNormalize (Some sample_parsed) "DESCRIPTION") sample_remote 0
    = (Returns (NormalizedData normalized), n', t)
    ∧ length normalized = length (Csv.data sample_parsed)
    ∧ generateCSV (λ _ _ _, "PATIENT,DESCRIPTION,GENERIC_NAME") normalized no_overrides
      = Csv.Value "PATIENT,DESCRIPTION,GENERIC_NAME".
Proof.
  apply (parsed_and_normalized_data_is_generated sample_Papa_parse
           (λ _ _ _, "PATIENT,DESCRIPTION,GENERIC_NAME") "PATIENT,DESCRIPTION"
           no_overrides no_overrides sample_parsed "DESCRIPTION" sample_remote 0).
  - reflexivity.
  - discriminate.
Defined.

(** * Where the code departs from the wording of the specification *)

(** C2 as stated fails: the two [NOT_FOUND] messages of the code are not
    "not found in vocabulary" and "ingredient not found", and do not even
    contain them. *)
Lemma NOT_FOUND_messages_differ_from_the_quoted_ones :
  run (normalizeDrugName "xyz-not-a-drug" DEFAULT_RXNORM_CONFIG) sample_remote 0
  = (Returns {| originalName := "xyz-not-a-drug"; genericName := None; rxcui := None;
                status := NOT_FOUND;
                errorMessage := Some "Drug not found in RxNorm database" |},
     1%nat,
     [Fetch "https://rxnav.nlm.nih.gov/REST/approximateTerm.json?term=xyz-not-a-drug" 10000])
  ∧ Js.includes "not found in vocabulary" "Drug not found in RxNorm database" = false
  ∧ run (normalizeDrugName "orphan" DEFAULT_RXNORM_CONFIG) sample_remote 0
    = (Returns {| originalName := "orphan"; genericName := None; rxcui := Some "999";
                  status := NOT_FOUND;
                  errorMessage := Some "Generic name not found for this drug" |},
       2%nat,
       [Fetch "https://rxnav.nlm.nih.gov/REST/approximateTerm.json?term=orphan" 10000;
        Fetch "https://rxnav.nlm.nih.gov/REST/rxcui/999/related.json?tty=IN" 10000])
  ∧ Js.includes "ingredient not found" "Generic name not found for this drug" = false.
Proof. split_and!; vm_compute; reflexivity. Qed.

(** C6 as stated fails in its last part: when every request times out,
    the [errorMessage] of the result is the message of the
    [MAX_RETRIES_EXCEEDED] error, and that text names the classification
    under neither spelling. And with no attempt allowed there is no last
    error for the message to embed. *)
Lemma timeout_message_lacks_the_classification :
  run (normalizeDrugName "Tylenol" DEFAULT_RXNORM_CONFIG) timing_out_remote 0
  = (Returns {| originalName := "Tylenol"; genericName := None; rxcui := None;
                status := ERROR;
                errorMessage :=
                  Some "Failed after 3 attempts: Request timeout after 10000ms" |},
     3%nat,
     [Fetch "https://rxnav.nlm.nih.gov/REST/approximateTerm.json?term=Tylenol" 10000;
      Sleep 1000;
      Fetch "https://rxnav.nlm.nih.gov/REST/approximateTerm.json?term=Tylenol" 10000;
      Sleep 2000;
      Fetch "https://rxnav.nlm.nih.gov/REST/approximateTerm.json?term=Tylenol" 10000])
  ∧ Js.includes "MaxRetriesExceeded"
      "Failed after 3 attempts: Request timeout after 10000ms" = false
  ∧ Js.includes "MAX_RETRIES_EXCEEDED"
      "Failed after 3 attempts: Request timeout after 10000ms" = false
  ∧ run (fetchWithRetry "u" no_attempt_config) timing_out_remote 0
    = (Throws (RxNormAPIError "Failed after 0 attempts: undefined"
                 (Some "MAX_RETRIES_EXCEEDED") None None),
       0%nat, []).
Proof. split_and!; vm_compute; reflexivity. Qed.

